(** * Address book: validated fields, contact records, registry, birthdays

    A shallow embedding of the two programs of the repository, [1.py]
    (the command bot, module [Py1]) and [main.py] (the interactive menu,
    module [PyMain]), and of the parts of the Python library they call
    ([str.isdigit], [datetime.strptime] with the format [%d.%m.%Y], the
    proleptic Gregorian arithmetic of [datetime.date]).

    Conventions.
    - A Python [str] is a [string]; a character [ascii] stands for the code
      point of the same number, so the strings of the model are the Python
      strings over U+0000..U+00FF. The Ukrainian texts of the errors of
      [main.py] lie outside that range; they stand as the literals of the
      source and are only compared with each other.
    - Python objects that are mutated in place (records, the phone list, the
      registry) are threaded through a state-and-exception monad [M]; the
      state that a computation leaves behind when it raises is kept, so
      that "nothing was mutated before the error" is a statement about the
      model and not a consequence of its types.
    - The text of an error is the text that Python gives it: the literal
      of the source for the errors that the source raises, the text of
      CPython 3.11 for the errors of the library.
    - What the programs take from their environment is an argument:
      [datetime.now().date()] is [today], the rendering of [%Y] by the C
      library is [strftime_Y], the answer of the operating system to the
      writing of the registry file is [os_error]. *)

From Stdlib Require Import ZArith List String Ascii Bool Lia Arith.
From Stdlib Require Import DecimalString.
From Equations Require Import Equations.
Import ListNotations.

Open Scope Z_scope.

(** ** Python strings *)

Definition ord (c : ascii) : Z := Z.of_N (N_of_ascii c).

(** [c.isdigit()] for one character: Unicode Numeric_Type Digit or Decimal.
    Below U+0100 these are '0'..'9' and the superscripts U+00B2, U+00B3
    and U+00B9. *)
Definition char_isdigit (c : ascii) : bool :=
  let n := ord c in
  ((48 <=? n) && (n <=? 57)) || (n =? 178) || (n =? 179) || (n =? 185).

(** The regular expression class [\d] on [str]: Unicode category Nd, which
    below U+0100 is '0'..'9' only. *)
Definition char_isdecimal (c : ascii) : bool :=
  let n := ord c in (48 <=? n) && (n <=? 57).

Fixpoint str_all (p : ascii -> bool) (s : string) : bool :=
  match s with
  | EmptyString => true
  | String c rest => p c && str_all p rest
  end.

(** [s.isdigit()]: every character is a digit and there is at least one. *)
Definition str_isdigit (s : string) : bool :=
  match s with
  | EmptyString => false
  | String _ _ => str_all char_isdigit s
  end.

Definition len (s : string) : Z := Z.of_nat (String.length s).

(** ** More of Python strings: what the commands and the library use *)

Definition chr (n : Z) : ascii := ascii_of_N (Z.to_N n).

(** [c.isspace()], which is also the class [\s] of [re] on [str]: below
    U+0100 the white space is U+0009..U+000D, U+001C..U+0020, U+0085 and
    U+00A0. *)
Definition char_isspace (c : ascii) : bool :=
  let n := ord c in
  ((9 <=? n) && (n <=? 13)) || ((28 <=? n) && (n <=? 32))
  || (n =? 133) || (n =? 160).

(** [c.lower()]: below U+0100 the capitals are 'A'..'Z' and U+00C0..U+00DE
    without the multiplication sign U+00D7, each 32 below its small
    letter. *)
Definition char_lower (c : ascii) : ascii :=
  let n := ord c in
  if ((65 <=? n) && (n <=? 90)) || ((192 <=? n) && (n <=? 214))
     || ((216 <=? n) && (n <=? 222))
  then chr (n + 32) else c.

Fixpoint str_lower (s : string) : string :=
  match s with
  | EmptyString => EmptyString
  | String c rest => String (char_lower c) (str_lower rest)
  end.

Fixpoint str_lstrip (s : string) : string :=
  match s with
  | EmptyString => EmptyString
  | String c rest => if char_isspace c then str_lstrip rest else s
  end.

Fixpoint str_rstrip (s : string) : string :=
  match s with
  | EmptyString => EmptyString
  | String c rest =>
      match str_rstrip rest with
      | EmptyString => if char_isspace c then EmptyString
                       else String c EmptyString
      | String _ _ as rest' => String c rest'
      end
  end.

(** [s.strip()] *)
Definition str_strip (s : string) : string := str_rstrip (str_lstrip s).

(** [sep.join(l)] *)
Fixpoint str_join (sep : string) (l : list string) : string :=
  match l with
  | [] => EmptyString
  | x :: rest =>
      match rest with
      | [] => x
      | _ :: _ => (x ++ sep ++ str_join sep rest)%string
      end
  end.

(** [re.findall(r'\S+', s)]: the maximal runs of characters that are not
    white space, from left to right; [tok] is the run being read. *)
Fixpoint findall_from (tok : string) (s : string) : list string :=
  match s with
  | EmptyString =>
      match tok with
      | EmptyString => []
      | String _ _ => [tok]
      end
  | String c rest =>
      if char_isspace c then
        match tok with
        | EmptyString => findall_from EmptyString rest
        | String _ _ => tok :: findall_from EmptyString rest
        end
      else findall_from (tok ++ String c EmptyString)%string rest
  end.

Definition re_findall_nonspace (s : string) : list string :=
  findall_from EmptyString s.

Fixpoint str_contains (c : ascii) (s : string) : bool :=
  match s with
  | EmptyString => false
  | String a rest => (a =? c)%char || str_contains c rest
  end.

Definition hex_digit (n : Z) : ascii :=
  if n <? 10 then chr (48 + n) else chr (87 + n).

(** [repr(s)], one character at a time: the quote in use and the backslash
    are escaped with a backslash; tab, line feed and carriage return have
    their letters; the other characters that are not printable (below
    U+0100: the controls, U+007F..U+00A0 and U+00AD) are written
    [\xhh]. *)
Definition repr_char (quote c : ascii) : string :=
  let n := ord c in
  if (c =? quote)%char || (c =? "092")%char
  then String "092" (String c EmptyString)
  else if n =? 9 then String "092" "t"
  else if n =? 10 then String "092" "n"
  else if n =? 13 then String "092" "r"
  else if (n <? 32) || ((127 <=? n) && (n <=? 160)) || (n =? 173)
  then String "092" (String "x"
         (String (hex_digit (n / 16)) (String (hex_digit (n mod 16))
            EmptyString)))
  else String c EmptyString.

Fixpoint repr_body (quote : ascii) (s : string) : string :=
  match s with
  | EmptyString => EmptyString
  | String c rest => (repr_char quote c ++ repr_body quote rest)%string
  end.

(** [repr(s)]: in single quotes, or in double quotes when [s] holds a
    single quote and no double quote. *)
Definition repr_str (s : string) : string :=
  let quote :=
    if str_contains "039" s && negb (str_contains "034" s)
    then "034"%char else "039"%char in
  String quote (repr_body quote s ++ String quote EmptyString)%string.

(** [%m] and [%d] of [strftime]: two digits. *)
Definition two_digits (n : Z) : string :=
  String (chr (48 + n / 10)) (String (chr (48 + n mod 10)) EmptyString).

(** [str(n)] and [%i] for an integer: its decimal digits, after a minus
    sign when it is negative. *)
Definition str_of_int (n : Z) : string :=
  NilZero.string_of_int (Z.to_int n).

(** ** Exceptions and the state monad of mutable objects *)

Inductive exn : Type :=
| ValueError (msg : string)
| OverflowError (msg : string).

Inductive outcome (A : Type) : Type :=
| Ok (a : A)
| Raise (e : exn).
Arguments Ok {A} a.
Arguments Raise {A} e.

Definition M (S A : Type) : Type := S -> outcome A * S.

Definition ret {S A} (a : A) : M S A := fun s => (Ok a, s).

Definition bind {S A B} (m : M S A) (k : A -> M S B) : M S B :=
  fun s =>
    match m s with
    | (Ok a, s') => k a s'
    | (Raise e, s') => (Raise e, s')
    end.

Definition raise {S A} (e : exn) : M S A := fun s => (Raise e, s).

Definition get {S} : M S S := fun s => (Ok s, s).

Definition modify {S} (f : S -> S) : M S unit := fun s => (Ok tt, f s).

(** A call that builds a value without touching the object at hand (a
    constructor, a library function). *)
Definition call {S A} (o : outcome A) : M S A := fun s => (o, s).

Declare Scope monad_scope.
Delimit Scope monad_scope with monad.
Notation "x <- m ;; k" := (bind m (fun x => k))
  (at level 61, m at next level, right associativity) : monad_scope.
Notation "m ;;; k" := (bind m (fun _ => k))
  (at level 61, right associativity) : monad_scope.
Open Scope monad_scope.

(** ** Fields and records (both files declare the same shapes) *)

(** [class Field]: an object with one attribute, [value]. [Name], [Phone]
    and [Birthday] add no attribute. *)
Record Field : Type := mkField { value : string }.

Definition Name := Field.
Definition Phone := Field.
Definition Birthday := Field.

(** [class Record]: [name], the list [phones], and [birthday] ([None] or a
    [Birthday]). The Phone objects of a list are pairwise distinct objects:
    [add_phone] is the only code that appends and it allocates a new one;
    [Field] defines no [__eq__], so [phones.remove(p)] deletes the very cell
    that holds [p]. *)
Record Record_ : Type := mkRecord {
  name : Name;
  phones : list Phone;
  birthday : option Birthday
}.

Definition set_phones (l : list Phone) (self : Record_) : Record_ :=
  mkRecord (name self) l (birthday self).

Definition set_birthday (b : option Birthday) (self : Record_) : Record_ :=
  mkRecord (name self) (phones self) b.

(** [del l[i]] and [l[i].value = v]. *)
Fixpoint remove_at {A} (i : nat) (l : list A) : list A :=
  match l, i with
  | [], _ => []
  | _ :: rest, O => rest
  | x :: rest, S j => x :: remove_at j rest
  end.

Fixpoint set_value_at (i : nat) (v : string) (l : list Phone) : list Phone :=
  match l, i with
  | [], _ => []
  | _ :: rest, O => mkField v :: rest
  | x :: rest, S j => x :: set_value_at j v rest
  end.

Definition values (l : list Phone) : list string := map value l.

Definition inspect {A} (a : A) : {b : A | a = b} := exist _ a eq_refl.

(** ** [datetime.date]: the proleptic Gregorian calendar of the library *)

Record date : Type := mkdate { year : Z; month : Z; day : Z }.

Definition MINYEAR : Z := 1.
Definition MAXYEAR : Z := 9999.
Definition _MAXORDINAL : Z := 3652059.
Definition _DI400Y : Z := 146097.
Definition _DI100Y : Z := 36524.
Definition _DI4Y : Z := 1461.

Definition _is_leap (y : Z) : bool :=
  (y mod 4 =? 0) && (negb (y mod 100 =? 0) || (y mod 400 =? 0)).

Definition _DAYS_IN_MONTH (m : Z) : Z :=
  match m with
  | 1 => 31 | 2 => 28 | 3 => 31 | 4 => 30 | 5 => 31 | 6 => 30
  | 7 => 31 | 8 => 31 | 9 => 30 | 10 => 31 | 11 => 30 | 12 => 31
  | _ => -1
  end.

Definition _DAYS_BEFORE_MONTH (m : Z) : Z :=
  match m with
  | 1 => 0 | 2 => 31 | 3 => 59 | 4 => 90 | 5 => 120 | 6 => 151
  | 7 => 181 | 8 => 212 | 9 => 243 | 10 => 273 | 11 => 304 | 12 => 334
  | _ => -1
  end.

Definition _days_before_year (y : Z) : Z :=
  let y := y - 1 in y * 365 + y / 4 - y / 100 + y / 400.

Definition _days_in_month (y m : Z) : Z :=
  if (m =? 2) && _is_leap y then 29 else _DAYS_IN_MONTH m.

Definition _days_before_month (y m : Z) : Z :=
  _DAYS_BEFORE_MONTH m + (if (2 <? m) && _is_leap y then 1 else 0).

Definition _ymd2ord (y m d : Z) : Z :=
  _days_before_year y + _days_before_month y m + d.

Definition _ord2ymd (n : Z) : Z * Z * Z :=
  let n := n - 1 in
  let n400 := n / _DI400Y in
  let n := n mod _DI400Y in
  let y := n400 * 400 + 1 in
  let n100 := n / _DI100Y in
  let n := n mod _DI100Y in
  let n4 := n / _DI4Y in
  let n := n mod _DI4Y in
  let n1 := n / 365 in
  let n := n mod 365 in
  let y := y + (n100 * 100 + n4 * 4 + n1) in
  if (n1 =? 4) || (n100 =? 4) then (y - 1, 12, 31)
  else
    let leapyear := (n1 =? 3) && (negb (n4 =? 24) || (n100 =? 3)) in
    let m := Z.shiftr (n + 50) 5 in
    let preceding :=
      _DAYS_BEFORE_MONTH m + (if (2 <? m) && leapyear then 1 else 0) in
    if n <? preceding then
      let m := m - 1 in
      let preceding :=
        preceding
        - (_DAYS_IN_MONTH m + (if (m =? 2) && leapyear then 1 else 0)) in
      (y, m, n - preceding + 1)
    else (y, m, n - preceding + 1).

(** [date(year, month, day)]: the constructor checks its fields. The texts
    are those of the C implementation, [year %i is out of range] with the
    year it refuses. The programs call it with years from 0 to 10000. *)
Definition date_new (y m d : Z) : outcome date :=
  if negb ((MINYEAR <=? y) && (y <=? MAXYEAR))
  then Raise (ValueError ("year " ++ str_of_int y ++ " is out of range"))
  else if negb ((1 <=? m) && (m <=? 12))
  then Raise (ValueError "month must be in 1..12")
  else if negb ((1 <=? d) && (d <=? _days_in_month y m))
  then Raise (ValueError "day is out of range for month")
  else Ok (mkdate y m d).

Definition replace_year (self : date) (y : Z) : outcome date :=
  date_new y (month self) (day self).

Definition toordinal (self : date) : Z :=
  _ymd2ord (year self) (month self) (day self).

Definition fromordinal (n : Z) : date :=
  let '(y, m, d) := _ord2ymd n in mkdate y m d.

Definition weekday (self : date) : Z := (toordinal self + 6) mod 7.

(** [self < other]: comparison of the tuples (year, month, day). *)
Definition date_lt (self other : date) : bool :=
  (year self <? year other)
  || ((year self =? year other)
      && ((month self <? month other)
          || ((month self =? month other) && (day self <? day other)))).

(** [(self - other).days] *)
Definition date_sub_days (self other : date) : Z :=
  toordinal self - toordinal other.

(** [self + timedelta(days=n)] *)
Definition date_add_days (self : date) (n : Z) : outcome date :=
  let o := toordinal self + n in
  if (0 <? o) && (o <=? _MAXORDINAL) then Ok (fromordinal o)
  else Raise (OverflowError "date value out of range").

(** ** [datetime.strptime(s, "%d.%m.%Y")]

    The format compiles to the regular expression
    [(3[0-1]|[1-2]\d|0[1-9]|[1-9]| [1-9])\.(1[0-2]|0[1-9]|[1-9])\.(\d\d\d\d)].
    Each piece returns its matches in the order in which a backtracking
    matcher tries them, paired with the rest of the input; [re.match]
    keeps the first complete one, and [strptime] then refuses input that
    is left over. Its two errors quote the input: [time data %r does not
    match format %r] and [unconverted data remains: %s]. *)

Definition digit (c : ascii) : Z := ord c - 48.

Definition in_range (lo hi c : ascii) : bool :=
  (ord lo <=? ord c) && (ord c <=? ord hi).

Definition re_two (p1 p2 : ascii -> bool) (s : string) : list (Z * string) :=
  match s with
  | String a (String b r) =>
      if p1 a && p2 b then [(10 * digit a + digit b, r)] else []
  | _ => []
  end.

Definition re_one (p : ascii -> bool) (s : string) : list (Z * string) :=
  match s with
  | String a r => if p a then [(digit a, r)] else []
  | _ => []
  end.

Definition re_space_one (p : ascii -> bool) (s : string)
  : list (Z * string) :=
  match s with
  | String a (String b r) =>
      if (a =? " ")%char && p b then [(digit b, r)] else []
  | _ => []
  end.

Definition re_d (s : string) : list (Z * string) :=
  re_two (in_range "3" "3") (in_range "0" "1") s
  ++ re_two (in_range "1" "2") char_isdecimal s
  ++ re_two (in_range "0" "0") (in_range "1" "9") s
  ++ re_one (in_range "1" "9") s
  ++ re_space_one (in_range "1" "9") s.

Definition re_m (s : string) : list (Z * string) :=
  re_two (in_range "1" "1") (in_range "0" "2") s
  ++ re_two (in_range "0" "0") (in_range "1" "9") s
  ++ re_one (in_range "1" "9") s.

Definition re_Y (s : string) : list (Z * string) :=
  match s with
  | String a (String b (String c (String d r))) =>
      if char_isdecimal a && char_isdecimal b
         && char_isdecimal c && char_isdecimal d
      then [(1000 * digit a + 100 * digit b + 10 * digit c + digit d, r)]
      else []
  | _ => []
  end.

Definition re_dot (s : string) : list string :=
  match s with
  | String a r => if (a =? ".")%char then [r] else []
  | _ => []
  end.

Definition re_dmY (s : string) : list (Z * Z * Z * string) :=
  flat_map (fun '(d, s1) =>
    flat_map (fun s2 =>
      flat_map (fun '(m, s3) =>
        flat_map (fun s4 =>
          map (fun '(y, s5) => (y, m, d, s5)) (re_Y s4))
          (re_dot s3))
        (re_m s2))
      (re_dot s1))
    (re_d s).

Definition strptime_dmY (data_string : string) : outcome date :=
  match re_dmY data_string with
  | [] =>
      Raise (ValueError ("time data " ++ repr_str data_string
                         ++ " does not match format '%d.%m.%Y'"))
  | (y, m, d, EmptyString) :: _ => date_new y m d
  | (_, _, _, String _ _ as rest) :: _ =>
      Raise (ValueError ("unconverted data remains: " ++ rest))
  end.

(** ** Calls that raise without an object at hand *)

Definition obind {A B} (o : outcome A) (k : A -> outcome B) : outcome B :=
  match o with
  | Ok a => k a
  | Raise e => Raise e
  end.

Notation "x <~ o ;; k" := (obind o (fun x => k))
  (at level 61, o at next level, right associativity) : monad_scope.

(** ** [dict]: keys in insertion order, one cell per key *)

Definition dict (V : Type) : Type := list (string * V).

Fixpoint dict_get {V} (k : string) (d : dict V) : option V :=
  match d with
  | [] => None
  | (k', v) :: rest => if (k' =? k)%string then Some v else dict_get k rest
  end.

Definition dict_contains {V} (k : string) (d : dict V) : bool :=
  match dict_get k d with
  | Some _ => true
  | None => false
  end.

(** [d[k] = v]: an existing key keeps its place. *)
Fixpoint dict_set {V} (k : string) (v : V) (d : dict V) : dict V :=
  match d with
  | [] => [(k, v)]
  | (k', v') :: rest =>
      if (k' =? k)%string then (k', v) :: rest
      else (k', v') :: dict_set k v rest
  end.

(** [del d[k]] *)
Fixpoint dict_del {V} (k : string) (d : dict V) : dict V :=
  match d with
  | [] => []
  | (k', v') :: rest =>
      if (k' =? k)%string then rest else (k', v') :: dict_del k rest
  end.

Definition dict_values {V} (d : dict V) : list V := map snd d.

Definition dict_wf {V} (d : dict V) : Prop := NoDup (map fst d).

(** A registry ([AddressBook], a [UserDict]) is its [data]. *)
Definition AddressBook : Type := dict Record_.

(** A method call [record.m(...)] on the record object that the registry
    holds under [key]: the registry cell and the variable [record] are the
    same object, so what the method does to it is seen through the
    registry, also when the method raises half-way. *)
Definition on_record {A} (key : string) (record : Record_)
  (m : M Record_ A) : M AddressBook A :=
  fun book => let '(o, record') := m record in (o, dict_set key record' book).

(** A method call on a record that no registry holds yet. *)
Definition on_local {S} (record : Record_) (m : M Record_ unit)
  : M S Record_ :=
  fun s =>
    match m record with
    | (Ok _, record') => (Ok record', s)
    | (Raise e, _) => (Raise e, s)
    end.

(** ** Exceptions of the commands

    The commands of [1.py] raise [KeyError] besides what [exn] holds, and
    writing the registry to its file raises [OSError] when the operating
    system refuses; [result] and [Cmd] are [outcome] and [M] with these
    two more exceptions, on the registry. *)

Inductive raised : Type :=
| Builtin (e : exn)
| KeyError (key : string)
| OSError (msg : string).

Inductive result (A : Type) : Type :=
| Returns (a : A)
| Raises (r : raised).
Arguments Returns {A} a.
Arguments Raises {A} r.

Definition Cmd (A : Type) : Type := AddressBook -> result A * AddressBook.

Definition lift {A} (m : M AddressBook A) : Cmd A :=
  fun book =>
    match m book with
    | (Ok a, book') => (Returns a, book')
    | (Raise e, book') => (Raises (Builtin e), book')
    end.

Definition cmd_bind {A B} (m : Cmd A) (k : A -> Cmd B) : Cmd B :=
  fun book =>
    match m book with
    | (Returns a, book') => k a book'
    | (Raises r, book') => (Raises r, book')
    end.

Definition cmd_raise {A} (r : raised) : Cmd A :=
  fun book => (Raises r, book).

Notation "x <-- m ;; k" := (cmd_bind m (fun x => k))
  (at level 61, m at next level, right associativity) : monad_scope.

(** ** [1.py] *)

Module Py1.

Definition Phone_validate (v : string) : bool :=
  (len v =? 10) && str_isdigit v.

Definition Phone_init (v : string) : outcome Phone :=
  if negb (Phone_validate v)
  then Raise (ValueError
    "Invalid phone number format. Should start from 0 and be 10 digits")
  else Ok (mkField v).

Definition Birthday_validate (v : string) : outcome bool :=
  match strptime_dmY v with
  | Ok _ => Ok true
  | Raise (ValueError _) => Ok false
  | Raise e => Raise e
  end.

Definition Birthday_init (v : string) : outcome Birthday :=
  ok <~ Birthday_validate v ;;
  if negb ok then Raise (ValueError "Invalid date format. Use DD.MM.YYYY")
  else Ok (mkField v).

Definition Record_init (name : string) : Record_ :=
  mkRecord (mkField name) [] None.

Definition add_phone (phone_number : string) : M Record_ unit :=
  p <- call (Phone_init phone_number) ;;
  modify (fun self => set_phones (phones self ++ [p]) self).

(** [for phone in self.phones: if phone.value == phone_number:
    self.phones.remove(phone)]. The list iterator holds an index into the
    list it walks, and the list shrinks under it. *)
Equations? remove_phone_loop (phone_number : string) (i : nat)
  (l : list Phone) : list Phone by wf (List.length l - i)%nat lt :=
  remove_phone_loop phone_number i l with inspect (nth_error l i) := {
    | exist _ None _ => l
    | exist _ (Some phone) H =>
        if (value phone =? phone_number)%string
        then remove_phone_loop phone_number (S i) (remove_at i l)
        else remove_phone_loop phone_number (S i) l }.
Proof.
  all: assert (Hi : (i < List.length l)%nat)
    by (apply nth_error_Some; congruence).
  - assert (Hr : List.length (remove_at i l) = (List.length l - 1)%nat).
    { clear H remove_phone_loop. revert i Hi.
      induction l as [|x l IH]; intros [|i] Hi; simpl in *; try lia.
      rewrite IH by lia. lia. }
    lia.
  - lia.
Qed.

Definition remove_phone (phone_number : string) : M Record_ unit :=
  modify (fun self =>
    set_phones (remove_phone_loop phone_number 0 (phones self)) self).

Fixpoint edit_phone_from (old_phone new_phone : string) (i : nat)
  (todo : list Phone) : M Record_ unit :=
  match todo with
  | [] => raise (ValueError "Phone number not found")
  | phone :: rest =>
      if (value phone =? old_phone)%string
      then modify (fun self =>
             set_phones (set_value_at i new_phone (phones self)) self)
      else edit_phone_from old_phone new_phone (S i) rest
  end.

Definition edit_phone (old_phone new_phone : string) : M Record_ unit :=
  self <- get ;; edit_phone_from old_phone new_phone 0 (phones self).

Definition add_birthday (new_birthday : string) : M Record_ unit :=
  b <- call (Birthday_init new_birthday) ;;
  modify (set_birthday (Some b)).

Definition add_record (record : Record_) : M AddressBook unit :=
  modify (dict_set (value (name record)) record).

Definition find (name : string) : M AddressBook (option Record_) :=
  book <- get ;; ret (dict_get name book).

Definition delete (name : string) : M AddressBook unit :=
  book <- get ;;
  if dict_contains name book then modify (dict_del name) else ret tt.

(** One turn of the loop of [get_upcoming_birthdays]; [today] stands for
    [datetime.now().date()]. An entry of the result is the pair of the
    values stored under ["name"] and ["congratulation_date"], the latter
    before [strftime] renders it. *)
Definition upcoming_step (today : date) (record : Record_)
  (upcoming_birthdays : list (string * date))
  : outcome (list (string * date)) :=
  match birthday record with
  | None => Ok upcoming_birthdays
  | Some b =>
      birthday_date <~ strptime_dmY (value b) ;;
      birthday_this_year <~ replace_year birthday_date (year today) ;;
      birthday_this_year <~
        (if date_lt birthday_this_year today
         then replace_year birthday_this_year (year today + 1)
         else Ok birthday_this_year) ;;
      let days_until_birthday := date_sub_days birthday_this_year today in
      if (0 <=? days_until_birthday) && (days_until_birthday <=? 7) then
        let congratulation_date := birthday_this_year in
        congratulation_date <~
          (if 5 <=? weekday congratulation_date
           then date_add_days congratulation_date
                  (7 - weekday congratulation_date)
           else Ok congratulation_date) ;;
        Ok (upcoming_birthdays
            ++ [(value (name record), congratulation_date)])
      else Ok upcoming_birthdays
  end.

Fixpoint upcoming_loop (today : date) (records : list Record_)
  (upcoming_birthdays : list (string * date))
  : outcome (list (string * date)) :=
  match records with
  | [] => Ok upcoming_birthdays
  | record :: rest =>
      upcoming_birthdays <~ upcoming_step today record upcoming_birthdays ;;
      upcoming_loop today rest upcoming_birthdays
  end.

Definition get_upcoming_birthdays (today : date) (book : AddressBook)
  : outcome (list (string * date)) :=
  upcoming_loop today (dict_values book) [].

(** The decorator: an exception of the wrapped command becomes its text.
    The commands modelled here raise [ValueError] only, or what the date
    arithmetic raises. *)
Definition input_error (func : M AddressBook string)
  : M AddressBook string :=
  fun book =>
    match func book with
    | (Ok s, book') => (Ok s, book')
    | (Raise (ValueError msg), book') => (Ok msg, book')
    | (Raise (OverflowError msg), book') =>
        (Ok ("An error occurred: " ++ msg)%string, book')
    end.

Definition add_contact_body (args : list string) : M AddressBook string :=
  match args with
  | [name; phone] =>
      record <- find name ;;
      match record with
      | Some r =>
          on_record name r (add_phone phone) ;;;
          ret "Phone added."%string
      | None =>
          r <- on_local (Record_init name) (add_phone phone) ;;
          add_record r ;;;
          ret "Contact added."%string
      end
  | _ => raise (ValueError "Give me name and phone please.")
  end.

Definition add_contact (args : list string) : M AddressBook string :=
  input_error (add_contact_body args).

(** The decorator, on a command that may also raise [KeyError]; the
    text of a [KeyError] is the [repr] of its key. *)
Definition input_error_all (func : Cmd string) : M AddressBook string :=
  fun book =>
    match func book with
    | (Returns s, book') => (Ok s, book')
    | (Raises (Builtin (ValueError msg)), book') => (Ok msg, book')
    | (Raises (KeyError key), book') =>
        (Ok ("Contact " ++ repr_str key ++ " not found.")%string, book')
    | (Raises (Builtin (OverflowError msg)), book') =>
        (Ok ("An error occurred: " ++ msg)%string, book')
    | (Raises (OSError msg), book') =>
        (Ok ("An error occurred: " ++ msg)%string, book')
    end.

Definition change_contact_body (args : list string) : Cmd string :=
  match args with
  | [name; old_phone; new_phone] =>
      record <-- lift (find name) ;;
      match record with
      | Some r =>
          lift (on_record name r (edit_phone old_phone new_phone) ;;;
                ret "Phone updated."%string)
      | None => cmd_raise (KeyError name)
      end
  | _ =>
      cmd_raise
        (Builtin (ValueError "Give me name, old phone and new phone please."))
  end.

Definition change_contact (args : list string) : M AddressBook string :=
  input_error_all (change_contact_body args).

Definition show_phone_body (args : list string) : Cmd string :=
  match args with
  | [name] =>
      record <-- lift (find name) ;;
      match record with
      | Some r => lift (ret (str_join "; " (values (phones r))))
      | None => cmd_raise (KeyError name)
      end
  | _ => cmd_raise (Builtin (ValueError "Enter user name"))
  end.

Definition show_phone (args : list string) : M AddressBook string :=
  input_error_all (show_phone_body args).

(** [Record.__str__] *)
Definition Record_str (self : Record_) : string :=
  let phones_text := str_join "; " (values (phones self)) in
  let birthday_text :=
    match birthday self with
    | Some b => (", birthday: " ++ value b)%string
    | None => EmptyString
    end in
  ("Contact name: " ++ value (name self) ++ ", phones: " ++ phones_text
   ++ birthday_text)%string.

Definition show_all : M AddressBook string :=
  input_error_all
    (book <-- lift get ;;
     lift (ret (str_join (String "010" EmptyString)
                  (map Record_str (dict_values book))))).

(** The command [add_birthday(args, book)]; the method of [Record] has
    the name. *)
Definition cmd_add_birthday_body (args : list string) : Cmd string :=
  match args with
  | [name; birthday] =>
      record <-- lift (find name) ;;
      match record with
      | Some r =>
          lift (on_record name r (add_birthday birthday) ;;;
                ret "Birthday added."%string)
      | None => cmd_raise (KeyError name)
      end
  | _ => cmd_raise (Builtin (ValueError "Give me name and birthday please."))
  end.

Definition cmd_add_birthday (args : list string) : M AddressBook string :=
  input_error_all (cmd_add_birthday_body args).

Definition show_birthday_body (args : list string) : Cmd string :=
  match args with
  | [name] =>
      record <-- lift (find name) ;;
      match record with
      | Some r =>
          match birthday r with
          | Some b =>
              lift (ret (name ++ "'s birthday: " ++ value b)%string)
          | None => lift (ret (name ++ " has no birthday set.")%string)
          end
      | None => cmd_raise (KeyError name)
      end
  | _ => cmd_raise (Builtin (ValueError "Enter user name"))
  end.

Definition show_birthday (args : list string) : M AddressBook string :=
  input_error_all (show_birthday_body args).

(** [strftime("%Y.%m.%d")]. What [%Y] gives is the C library's business
    (four digits on some platforms, no padding on others), so it is the
    argument [strftime_Y]. *)
Definition strftime_Ymd (strftime_Y : Z -> string) (d : date) : string :=
  (strftime_Y (year d) ++ "." ++ two_digits (month d) ++ "."
   ++ two_digits (day d))%string.

Definition birthdays (strftime_Y : Z -> string) (today : date)
  : M AddressBook string :=
  input_error_all
    (book <-- lift get ;;
     upcoming <-- lift (call (get_upcoming_birthdays today book)) ;;
     match upcoming with
     | [] => lift (ret "No upcoming birthdays in the next week."%string)
     | _ :: _ =>
         lift (ret (str_join (String "010" EmptyString)
                      (map (fun b => (fst b ++ ": "
                                      ++ strftime_Ymd strftime_Y (snd b))%string)
                           upcoming)))
     end).

Definition parse_input (user_input : string)
  : outcome (string * list string) :=
  match re_findall_nonspace user_input with
  | [] =>
      Raise (ValueError
        "not enough values to unpack (expected at least 1, got 0)")
  | cmd :: args => Ok (str_lower (str_strip cmd), args)
  end.

(** [save_to_file(filename)]: [open(filename, 'wb')] and [pickle.dump].
    Whether the file can be written is the operating system's business:
    [os_error] is the text of the [OSError] that it answers with, if it
    does. The registry is not touched; what the file holds afterwards is
    not part of the model. *)
Definition save_to_file (os_error : option string) : Cmd unit :=
  match os_error with
  | Some msg => cmd_raise (OSError msg)
  | None => lift (ret tt)
  end.

(** One turn of the loop of [main()], on the line read: what is printed,
    and whether the loop goes on. Leaving writes the registry to its
    file first, outside any [try]. *)
Definition main_turn (strftime_Y : Z -> string) (os_error : option string)
  (today : date) (user_input : string) : Cmd (string * bool) :=
  parsed <-- lift (call (parse_input user_input)) ;;
  let '(command, args) := parsed in
  if (command =? "close")%string || (command =? "exit")%string
  then
    _ <-- save_to_file os_error ;;
    lift (ret ("Good bye!"%string, false))
  else if (command =? "hello")%string
  then lift (ret ("How can I help you?"%string, true))
  else if (command =? "add")%string
  then text <-- lift (add_contact args) ;; lift (ret (text, true))
  else if (command =? "change")%string
  then text <-- lift (change_contact args) ;; lift (ret (text, true))
  else if (command =? "phone")%string
  then text <-- lift (show_phone args) ;; lift (ret (text, true))
  else if (command =? "all")%string
  then text <-- lift show_all ;; lift (ret (text, true))
  else if (command =? "add-birthday")%string
  then text <-- lift (cmd_add_birthday args) ;; lift (ret (text, true))
  else if (command =? "show-birthday")%string
  then text <-- lift (show_birthday args) ;; lift (ret (text, true))
  else if (command =? "birthdays")%string
  then text <-- lift (birthdays strftime_Y today) ;; lift (ret (text, true))
  else lift (ret ("Invalid command."%string, true)).

End Py1.

(** ** [main.py] *)

Module PyMain.

Definition Name_init (name : string) : outcome Name :=
  match name with
  | EmptyString => Raise (ValueError "Ім'я не може бути порожнім")
  | String _ _ => Ok (mkField name)
  end.

Definition Phone_init (phone : string) : outcome Phone :=
  if negb (str_isdigit phone) || negb (len phone =? 10)
  then Raise (ValueError "Номер телефону має містити 10 цифр.")
  else Ok (mkField phone).

Definition Birthday_init (v : string) : outcome Birthday :=
  match strptime_dmY v with
  | Ok _ => Ok (mkField v)
  | Raise (ValueError _) =>
      Raise (ValueError "Невірний формат дати. Використовуйте DD.MM.YYYY")
  | Raise e => Raise e
  end.

(** [Record(name, birthday)]; [birthday] is [None] or a string, and the
    empty string counts as [None]. *)
Definition Record_init (name : string) (birthday : option string)
  : outcome Record_ :=
  n <~ Name_init name ;;
  b <~ match birthday with
       | None | Some EmptyString => Ok None
       | Some v =>
           b <~ Birthday_init v ;; Ok (Some b)
       end ;;
  Ok (mkRecord n [] b).

Definition add_phone (phone : string) : M Record_ unit :=
  p <- call (Phone_init phone) ;;
  modify (fun self => set_phones (phones self ++ [p]) self).

Fixpoint remove_phone_from (phone : string) (i : nat) (todo : list Phone)
  : M Record_ unit :=
  match todo with
  | [] => raise (ValueError "Телефон не знайдено.")
  | p :: rest =>
      if (value p =? phone)%string
      then modify (fun self => set_phones (remove_at i (phones self)) self)
      else remove_phone_from phone (S i) rest
  end.

Definition remove_phone (phone : string) : M Record_ unit :=
  self <- get ;; remove_phone_from phone 0 (phones self).

Fixpoint edit_phone_from (old_phone new_phone : string) (i : nat)
  (todo : list Phone) : M Record_ unit :=
  match todo with
  | [] => raise (ValueError "Старий номер телефону не знайдено.")
  | p :: rest =>
      if (value p =? old_phone)%string
      then
        fresh <- call (Phone_init new_phone) ;;
        modify (fun self =>
          set_phones (set_value_at i (value fresh) (phones self)) self)
      else edit_phone_from old_phone new_phone (S i) rest
  end.

Definition edit_phone (old_phone new_phone : string) : M Record_ unit :=
  self <- get ;; edit_phone_from old_phone new_phone 0 (phones self).

Definition add_record (record : Record_) : M AddressBook unit :=
  book <- get ;;
  if dict_contains (value (name record)) book
  then raise (ValueError "Контакт з таким іменем вже існує.")
  else modify (dict_set (value (name record)) record).

Definition delete_record (name : string) : M AddressBook unit :=
  book <- get ;;
  if negb (dict_contains name book)
  then raise (ValueError "Контакт не знайдено.")
  else modify (dict_del name).

Definition search_record (name : string) : M AddressBook (option Record_) :=
  book <- get ;; ret (dict_get name book).

(** The command [name] of [main()], on the three lines read from the
    user: each line is stripped, then the [try] block runs. An error is
    what the [except] of the command reports; the texts that the commands
    print are left out. *)
Definition command_name (name phone birthday : string)
  : M AddressBook unit :=
  let name := str_strip name in
  let phone := str_strip phone in
  let birthday := str_strip birthday in
  record <- call (Record_init name (Some birthday)) ;;
  record <-
    match phone with
    | EmptyString => ret record
    | String _ _ => on_local record (add_phone phone)
    end ;;
  add_record record.

(** What the other commands of [main()] do to the registry, on the lines
    read from the user, each stripped. *)
Definition command_add_phone (name phone : string) : M AddressBook unit :=
  let name := str_strip name in
  let phone := str_strip phone in
  record <- search_record name ;;
  match record with
  | Some r => on_record name r (add_phone phone)
  | None => ret tt
  end.

Definition command_edit_phone (name old_phone new_phone : string)
  : M AddressBook unit :=
  let name := str_strip name in
  let old_phone := str_strip old_phone in
  let new_phone := str_strip new_phone in
  record <- search_record name ;;
  match record with
  | Some r => on_record name r (edit_phone old_phone new_phone)
  | None => ret tt
  end.

Definition command_remove_phone (name phone : string)
  : M AddressBook unit :=
  let name := str_strip name in
  let phone := str_strip phone in
  record <- search_record name ;;
  match record with
  | Some r => on_record name r (remove_phone phone)
  | None => ret tt
  end.

Definition command_delete (name : string) : M AddressBook unit :=
  delete_record (str_strip name).

End PyMain.

(** * The vocabulary of the properties *)

(** ** The phone rule *)

(** The characters of a string, in order. *)
Definition chars (s : string) : list ascii := list_ascii_of_string s.

(** The rule that the code enforces: ten characters, each one a digit in
    the sense of [str.isdigit]. *)
Definition phone_rule (s : string) : Prop :=
  String.length s = 10%nat /\ Forall (fun c => char_isdigit c = true) (chars s).

(** The rule in the words of the specification: ten characters, each one
    a decimal digit '0'..'9'. *)
Definition decimal_phone_rule (s : string) : Prop :=
  String.length s = 10%nat
  /\ Forall (fun c => char_isdecimal c = true) (chars s).

(** ** Searching a phone list *)

(** The position at which [for p in phones: if p.value == v] first
    succeeds. *)
Fixpoint find_index (v : string) (l : list Phone) : option nat :=
  match l with
  | [] => None
  | p :: rest =>
      if (value p =? v)%string then Some O
      else option_map S (find_index v rest)
  end.

(** What a loop that walks [phones] and gives up at the end leaves behind:
    the first phone equal to [v] is [x], at the end of [pre]. *)
Inductive first_match (v : string) : list Phone -> list Phone -> Phone
  -> list Phone -> Prop :=
| first_match_intro (pre : list Phone) (x : Phone) (post : list Phone) :
    Forall (fun p => value p <> v) pre ->
    value x = v ->
    first_match v (pre ++ x :: post) pre x post.

(** ** The removal loop of [1.py] *)

(** The same walk, told from the cells the iterator has not reached yet:
    after a removal the cell that slides into the freed place is never
    looked at. *)
Fixpoint remove_scan (v : string) (rest : list Phone) : list Phone :=
  match rest with
  | [] => []
  | x :: tl =>
      if (value x =? v)%string then
        match tl with
        | [] => []
        | y :: tl' => y :: remove_scan v tl'
        end
      else x :: remove_scan v tl
  end.

(** A phone whose value is not [v]. *)
Definition differs (v : string) (p : Phone) : bool :=
  negb (value p =? v)%string.



(** ** The phone invariant of a record *)

(** Every phone of the record satisfies the rule. *)
Definition phones_valid (self : Record_) : Prop :=
  Forall (fun p => phone_rule (value p)) (phones self).

(** The operations that the menu of [main.py] runs on a record; an error is
    reported and the session goes on with the record as the failed
    operation left it. *)
Inductive record_op : Type :=
| AddPhone (phone : string)
| RemovePhone (phone : string)
| EditPhone (old_phone new_phone : string).

Definition PyMain_apply (op : record_op) : M Record_ unit :=
  match op with
  | AddPhone v => PyMain.add_phone v
  | RemovePhone v => PyMain.remove_phone v
  | EditPhone v w => PyMain.edit_phone v w
  end.

Fixpoint PyMain_session (ops : list record_op) (self : Record_) : Record_ :=
  match ops with
  | [] => self
  | op :: rest => PyMain_session rest (snd (PyMain_apply op self))
  end.

(** ** Errors leave the state alone *)

(** Whenever [m] raises, the object it ran on is what it was before. *)
Definition keeps_state_on_error {S A} (m : M S A) : Prop :=
  forall s e s', m s = (Raise e, s') -> s' = s.

(** ** Dates *)

(** A date of the calendar, as the constructor of [date] checks it. *)
Definition valid_date (d : date) : Prop :=
  MINYEAR <= year d <= MAXYEAR
  /\ 1 <= month d <= 12
  /\ 1 <= day d <= _days_in_month (year d) (month d).

(** ** Ordinals *)

(** The end of [_ord2ymd]: month and day from the offset [n] of a day in
    its year. *)
Definition month_day (leapyear : bool) (n : Z) : Z * Z :=
  let m := Z.shiftr (n + 50) 5 in
  let preceding :=
    _DAYS_BEFORE_MONTH m + (if (2 <? m) && leapyear then 1 else 0) in
  if n <? preceding then
    let m := m - 1 in
    let preceding :=
      preceding
      - (_DAYS_IN_MONTH m + (if (m =? 2) && leapyear then 1 else 0)) in
    (m, n - preceding + 1)
  else (m, n - preceding + 1).

(** The month and the day that [month_day] finds are in range and lie [n]
    days after 1 January. *)
Definition month_day_ok (leap : bool) (n : Z) : bool :=
  let '(m, d) := month_day leap n in
  (1 <=? m) && (m <=? 12) && (1 <=? d)
  && (d <=? (if (m =? 2) && leap then 29 else _DAYS_IN_MONTH m))
  && (_DAYS_BEFORE_MONTH m + (if (2 <? m) && leap then 1 else 0) + d
      =? n + 1).

(** ** The scheduler, in the words of the specification *)

(** The stored day and month on the year of [today], and on the next. *)
Definition this_year (today bd : date) : date :=
  mkdate (year today) (month bd) (day bd).

Definition next_year (today bd : date) : date :=
  mkdate (year today + 1) (month bd) (day bd).

(** Advanced by one year when strictly before [today]. *)
Definition occurrence (today bd : date) : date :=
  if date_lt (this_year today bd) today then next_year today bd
  else this_year today bd.

(** Both reinterpretations that the code builds are dates of the
    calendar. *)
Definition reinterpretable (today bd : date) : Prop :=
  valid_date (this_year today bd) /\ valid_date (occurrence today bd).

(** Saturday (5) and Sunday (6) move to the Monday after. *)
Definition congratulation (d : date) : date :=
  if 5 <=? weekday d then fromordinal (toordinal d + (7 - weekday d))
  else d.

(** [days_until_birthday] *)
Definition days_until (today bd : date) : Z :=
  toordinal (occurrence today bd) - toordinal today.

(** The pairs that one record contributes: none, or its name with the
    congratulation date when the birthday is at most a week ahead. *)
Definition upcoming_entry (today : date) (r : Record_)
  : list (string * date) :=
  match birthday r with
  | None => []
  | Some b =>
      match strptime_dmY (value b) with
      | Ok bd =>
          if (0 <=? days_until today bd) && (days_until today bd <=? 7)
          then [(value (name r), congratulation (occurrence today bd))]
          else []
      | Raise _ => []
      end
  end.

(** The result, in registry order. *)
Definition upcoming_spec (today : date) (book : AddressBook)
  : list (string * date) :=
  flat_map (upcoming_entry today) (dict_values book).

(** The stored birthday of the record, if any, parses and can be put on
    the years that the scheduler puts it on. *)
Definition schedulable (today : date) (r : Record_) : Prop :=
  forall b, birthday r = Some b ->
  exists bd, strptime_dmY (value b) = Ok bd /\ reinterpretable today bd.

(** ** The text of a birthday *)

(** The spellings that [%d], [%m] and [%Y] read, with the number each one
    stands for: a day is two digits from 01 to 31, one digit from 1 to 9,
    or a space and one such digit; a month is two digits from 01 to 12 or
    one digit from 1 to 9; a year is four digits. *)
Inductive day_text : string -> Z -> Prop :=
| day_two_digits (a b : ascii) :
    char_isdecimal a = true -> char_isdecimal b = true ->
    1 <= 10 * digit a + digit b <= 31 ->
    day_text (String a (String b "")) (10 * digit a + digit b)
| day_one_digit (a : ascii) :
    char_isdecimal a = true -> 1 <= digit a ->
    day_text (String a "") (digit a)
| day_space_digit (a : ascii) :
    char_isdecimal a = true -> 1 <= digit a ->
    day_text (String " " (String a "")) (digit a).

Inductive month_text : string -> Z -> Prop :=
| month_two_digits (a b : ascii) :
    char_isdecimal a = true -> char_isdecimal b = true ->
    1 <= 10 * digit a + digit b <= 12 ->
    month_text (String a (String b "")) (10 * digit a + digit b)
| month_one_digit (a : ascii) :
    char_isdecimal a = true -> 1 <= digit a ->
    month_text (String a "") (digit a).

Inductive year_text : string -> Z -> Prop :=
| year_four_digits (a b c d : ascii) :
    char_isdecimal a = true -> char_isdecimal b = true ->
    char_isdecimal c = true -> char_isdecimal d = true ->
    year_text (String a (String b (String c (String d ""))))
      (1000 * digit a + 100 * digit b + 10 * digit c + digit d).

(** Day, dot, month, dot, year, and nothing else. *)
Definition dmY_text (s : string) (y m d : Z) : Prop :=
  exists td tm ty,
    day_text td d /\ month_text tm m /\ year_text ty y
    /\ s = (td ++ "." ++ tm ++ "." ++ ty)%string.

(** A text of a day or of a month holds no dot, so the first dot of the
    input ends it. *)
Definition no_dot (t : string) : Prop :=
  Forall (fun c => c <> "."%char) (list_ascii_of_string t).

(** What the code accepts as the text of a birthday. *)
Definition birthday_text (s : string) : Prop :=
  exists y m d, dmY_text s y m d /\ valid_date (mkdate y m d).


(** ** Sample records and registries *)

(** Ten times the superscript two, U+00B2. *)
Definition superscript_twos : string :=
  string_of_list_ascii (repeat (ascii_of_nat 178) 10).

Definition ann : Record_ := mkRecord (mkField "Ann") [mkField "1112223330"] None.

Definition address_book : AddressBook := [("Ann"%string, ann)].

Definition leap_ann : Record_ :=
  mkRecord (mkField "Ann") [mkField "1112223330"]
    (Some (mkField "29.02.2024")).

Definition leap_book : AddressBook := [("Ann"%string, leap_ann)].

Definition june_book : AddressBook :=
  [("Ann"%string,
    mkRecord (mkField "Ann") [mkField "1112223330"]
      (Some (mkField "12.06.1990")));
   ("Bob"%string,
    mkRecord (mkField "Bob") [] (Some (mkField "15.06.1990")));
   ("Eve"%string,
    mkRecord (mkField "Eve") [] (Some (mkField "01.01.1990")));
   ("Dan"%string, mkRecord (mkField "Dan") [mkField "4445556660"] None)].

Definition february_book : AddressBook :=
  [("Bob"%string,
    mkRecord (mkField "Bob") [] (Some (mkField "29.02.2000")))].

(** The text of the validation error of [Phone] in [1.py]. *)
Definition invalid_phone_text : string :=
  "Invalid phone number format. Should start from 0 and be 10 digits".

(** ** Registries, commands and sessions *)

(** The keys of the registry are distinct and each record is stored under
    its own name. *)
Definition book_keyed (book : AddressBook) : Prop :=
  dict_wf book
  /\ Forall (fun kr => value (name (snd kr)) = fst kr) book.

(** The fields of a record satisfy their rules: every phone the phone
    rule, the birthday, if there is one, the rule of the birthday text. *)
Definition record_valid (r : Record_) : Prop :=
  phones_valid r
  /\ forall b, birthday r = Some b -> birthday_text (value b).

(** Every record of the registry has valid fields. *)
Definition records_valid (book : AddressBook) : Prop :=
  Forall (fun kr => record_valid (snd kr)) book.

(** A line without a character that is not white space. *)
Definition blank (s : string) : Prop := str_all char_isspace s = true.

(** A word of a command line: not empty, no white space in it. *)
Definition word (s : string) : Prop :=
  s <> EmptyString /\ str_all (fun c => negb (char_isspace c)) s = true.

(** A character that [repr] writes as it is between single quotes: a
    printable ASCII character other than the single quote and the
    backslash. *)
Definition char_plain (c : ascii) : bool :=
  let n := ord c in
  (32 <=? n) && (n <=? 126) && negb (n =? 39) && negb (n =? 92).

(** A string of such characters. *)
Definition plain (s : string) : Prop := str_all char_plain s = true.

(** The method leaves the name of the record alone. *)
Definition keeps_name (m : M Record_ unit) : Prop :=
  forall r, name (snd (m r)) = name r.

(** The method takes a record whose fields are valid to one whose fields
    are valid. *)
Definition keeps_valid (m : M Record_ unit) : Prop :=
  forall r, record_valid r -> record_valid (snd (m r)).

(** The registry after a turn of the loop. *)
Definition turn_book (command : string) (args : list string)
  (book : AddressBook) : AddressBook :=
  if (command =? "add")%string then snd (Py1.add_contact_body args book)
  else if (command =? "change")%string
  then snd (Py1.change_contact_body args book)
  else if (command =? "add-birthday")%string
  then snd (Py1.cmd_add_birthday_body args book)
  else book.

(** No character of the string is white space. *)
Definition nospace (s : string) : Prop :=
  str_all (fun c => negb (char_isspace c)) s = true.

(** The phones that the registry holds under a name. *)
Definition phones_of (who : string) (book : AddressBook) : list string :=
  match dict_get who book with
  | Some r => values (phones r)
  | None => []
  end.

(** The order of dates, as [<] on the tuples. *)
Definition date_before (a b : date) : Prop :=
  year a < year b
  \/ (year a = year b
      /\ (month a < month b \/ (month a = month b /\ day a < day b))).

(** Two decimal digits: the decimal text of the number, after a zero when
    it is below ten. *)
Definition pad2 (n : Z) : string :=
  if n <? 10 then ("0" ++ str_of_int n)%string else str_of_int n.

(** The date as [year.month.day], month and day on two digits, the year
    as the platform writes it. *)
Definition date_text (f : Z -> string) (d : date) : string :=
  (f (year d) ++ "." ++ pad2 (month d) ++ "." ++ pad2 (day d))%string.

(** What [birthdays] answers when the scheduler returns the list [l]: a
    line [name: date] for each entry, or the text that there is none. *)
Definition birthdays_text (f : Z -> string) (l : list (string * date))
  : string :=
  match l with
  | [] => "No upcoming birthdays in the next week."%string
  | _ :: _ =>
      str_join (String "010" EmptyString)
        (map (fun b => (fst b ++ ": " ++ date_text f (snd b))%string) l)
  end.

(** No two neighbours in the list are both equal to [v]. *)
Fixpoint no_neighbours (v : string) (l : list Phone) : Prop :=
  match l with
  | [] => True
  | x :: rest =>
      match rest with
      | [] => True
      | y :: _ => ~ (value x = v /\ value y = v) /\ no_neighbours v rest
      end
  end.

(** The commands of the menu that touch the registry, with the lines
    read from the user. *)
Inductive menu_command : Type :=
| MenuName (who phone birthday_line : string)
| MenuAddPhone (who phone : string)
| MenuEditPhone (who old_phone new_phone : string)
| MenuRemovePhone (who phone : string)
| MenuDelete (who : string).

(** The command of [main.py] that a menu entry runs. *)
Definition PyMain_menu (c : menu_command) : M AddressBook unit :=
  match c with
  | MenuName who phone b => PyMain.command_name who phone b
  | MenuAddPhone who phone => PyMain.command_add_phone who phone
  | MenuEditPhone who v w => PyMain.command_edit_phone who v w
  | MenuRemovePhone who v => PyMain.command_remove_phone who v
  | MenuDelete who => PyMain.command_delete who
  end.

(** A session: the commands one after the other; an error is printed and
    the next command finds the registry as the failed one left it. *)
Fixpoint PyMain_menu_session (cs : list menu_command) (book : AddressBook)
  : AddressBook :=
  match cs with
  | [] => book
  | c :: rest => PyMain_menu_session rest (snd (PyMain_menu c book))
  end.

(** The data model: distinct keys, every record under its own name, no
    empty name, valid phones and birthdays. *)
Definition book_ok (book : AddressBook) : Prop :=
  book_keyed book /\ records_valid book
  /\ Forall (fun kr => fst kr <> EmptyString) book.

(** The birthday that [Record(name, birthday)] stores. *)
Definition initial_birthday (b : option string) : option Birthday :=
  match b with
  | None | Some EmptyString => None
  | Some v => Some (mkField v)
  end.

(** * Properties *)

(** ** The phone rule *)

Lemma str_all_Forall (p : ascii -> bool) (s : string) :
  str_all p s = true <-> Forall (fun c => p c = true) (chars s).
Proof.
  induction s as [|c s IH]; simpl.
  - split; [constructor | reflexivity].
  - rewrite andb_true_iff, IH. split.
    + intros [Hc Hs]. now constructor.
    + intros H. inversion H; subst. now split.
Qed.

Lemma len_10 (s : string) : (len s =? 10) = true <-> String.length s = 10%nat.
Proof. unfold len. rewrite Z.eqb_eq. lia. Qed.

Lemma str_isdigit_nonempty (s : string) :
  String.length s = 10%nat -> str_isdigit s = str_all char_isdigit s.
Proof. destruct s; simpl; [discriminate | reflexivity]. Qed.

Lemma Phone_validate_rule (s : string) :
  Py1.Phone_validate s = true <-> phone_rule s.
Proof.
  unfold Py1.Phone_validate, phone_rule.
  rewrite andb_true_iff, len_10. split; intros [Hl Hd]; split; trivial.
  - apply str_all_Forall. now rewrite <- str_isdigit_nonempty.
  - rewrite str_isdigit_nonempty by assumption. now apply str_all_Forall.
Qed.

Lemma Py1_Phone_init_validate (s : string) :
  Py1.Phone_init s =
  if Py1.Phone_validate s then Ok (mkField s)
  else Raise (ValueError
    "Invalid phone number format. Should start from 0 and be 10 digits").
Proof. unfold Py1.Phone_init. now destruct (Py1.Phone_validate s). Qed.

Lemma PyMain_Phone_init_validate (s : string) :
  PyMain.Phone_init s =
  if Py1.Phone_validate s then Ok (mkField s)
  else Raise (ValueError "Номер телефону має містити 10 цифр.").
Proof.
  unfold PyMain.Phone_init, Py1.Phone_validate.
  destruct (str_isdigit s), (len s =? 10); reflexivity.
Qed.

Lemma char_isdecimal_isdigit (c : ascii) :
  char_isdecimal c = true -> char_isdigit c = true.
Proof.
  unfold char_isdecimal, char_isdigit. cbv zeta. intros ->. reflexivity.
Qed.

Lemma decimal_phone_rule_accepted (s : string) :
  decimal_phone_rule s -> phone_rule s.
Proof.
  intros [Hl Hd]. split; trivial.
  eapply Forall_impl; [|exact Hd]. apply char_isdecimal_isdigit.
Qed.

(** C3, as stated, fails: both constructors accept a string of ten
    superscript digits, none of which is a decimal digit. *)
Lemma Phone_accepts_superscripts :
  Py1.Phone_init superscript_twos = Ok (mkField superscript_twos)
  /\ PyMain.Phone_init superscript_twos = Ok (mkField superscript_twos)
  /\ ~ decimal_phone_rule superscript_twos.
Proof.
  repeat split; try reflexivity.
  intros [_ H]. inversion H as [|c l Hc _]; subst. discriminate Hc.
Qed.

(** C3, amended: in both files, constructing a Phone from [s] succeeds
    exactly when [s] has ten characters and every one of them is a digit in
    the sense of [str.isdigit] (which a decimal digit is); the stored value
    is then [s], and every other string is refused with the validation
    error of the file. *)
Theorem Phone_init_spec (s : string) :
  (phone_rule s ->
     Py1.Phone_init s = Ok (mkField s)
     /\ PyMain.Phone_init s = Ok (mkField s))
  /\ (~ phone_rule s ->
     Py1.Phone_init s = Raise (ValueError
       "Invalid phone number format. Should start from 0 and be 10 digits")
     /\ PyMain.Phone_init s
        = Raise (ValueError "Номер телефону має містити 10 цифр."))
  /\ (decimal_phone_rule s -> phone_rule s).
Proof.
  rewrite Py1_Phone_init_validate, PyMain_Phone_init_validate.
  pose proof (Phone_validate_rule s) as Hr.
  split; [|split].
  - intros H. apply Hr in H. rewrite H. now split.
  - intros Hn. destruct (Py1.Phone_validate s); [|now split].
    exfalso. apply Hn. now apply Hr.
  - apply decimal_phone_rule_accepted.
Qed.

Lemma Phone_init_spec_witness :
  Py1.Phone_init "1112223330" = Ok (mkField "1112223330")
  /\ PyMain.Phone_init "1112223330" = Ok (mkField "1112223330").
Proof.
  apply (Phone_init_spec "1112223330").
  split; [reflexivity | repeat constructor].
Defined.

(** ** Searching a phone list *)

Lemma find_index_None (v : string) (l : list Phone) :
  find_index v l = None <-> Forall (fun p => value p <> v) l.
Proof.
  induction l as [|p l IH]; simpl.
  - split; [constructor | reflexivity].
  - destruct (String.eqb_spec (value p) v) as [E|N].
    + split; [discriminate|]. intros H. inversion H; subst. congruence.
    + destruct (find_index v l); simpl.
      * split; [discriminate|]. intros H. inversion H; subst.
        apply IH in H3. discriminate.
      * split; [|reflexivity]. intros _. constructor; [exact N|].
        now apply IH.
Qed.

Lemma find_index_Some (v : string) (l : list Phone) (i : nat) :
  find_index v l = Some i ->
  exists pre x post,
    first_match v l pre x post /\ List.length pre = i
    /\ remove_at i l = pre ++ post
    /\ forall w, set_value_at i w l = pre ++ mkField w :: post.
Proof.
  revert i. induction l as [|p l IH]; simpl; intros i Hi; [discriminate|].
  destruct (String.eqb_spec (value p) v) as [E|N].
  - inversion Hi; subst i. exists [], p, l. repeat split; trivial.
    exact (first_match_intro v [] p l (Forall_nil _) E).
  - destruct (find_index v l) as [j|]; [|discriminate].
    inversion Hi; subst i.
    destruct (IH j eq_refl) as (pre & x & post & Hm & Hl & Hr & Hs).
    inversion Hm; subst.
    exists (p :: pre), x, post. split; [|split; [|split]].
    + apply (first_match_intro (value x) (p :: pre) x post); trivial.
      now constructor.
    + reflexivity.
    + simpl. now rewrite Hr.
    + intros w. simpl. now rewrite Hs.
Qed.

Lemma remove_at_app {A} (pre : list A) (x : A) (post : list A) :
  remove_at (List.length pre) (pre ++ x :: post) = pre ++ post.
Proof. induction pre as [|y pre IH]; simpl; [reflexivity | now rewrite IH]. Qed.

(** ** [edit_phone] and [remove_phone] of [main.py] *)

Lemma PyMain_edit_phone_from (old_phone new_phone : string)
  (todo : list Phone) (i : nat) (self : Record_) :
  PyMain.edit_phone_from old_phone new_phone i todo self =
  match find_index old_phone todo with
  | None => (Raise (ValueError "Старий номер телефону не знайдено."), self)
  | Some j =>
      match PyMain.Phone_init new_phone with
      | Ok fresh =>
          (Ok tt,
           set_phones (set_value_at (i + j) (value fresh) (phones self)) self)
      | Raise e => (Raise e, self)
      end
  end.
Proof.
  revert i. induction todo as [|p todo IH]; intros i; simpl; [reflexivity|].
  destruct (value p =? old_phone)%string.
  - unfold bind, call, modify. rewrite Nat.add_0_r.
    now destruct (PyMain.Phone_init new_phone).
  - rewrite IH. destruct (find_index old_phone todo) as [j|]; simpl; trivial.
    now rewrite Nat.add_succ_r.
Qed.

Lemma PyMain_remove_phone_from (phone : string) (todo : list Phone)
  (i : nat) (self : Record_) :
  PyMain.remove_phone_from phone i todo self =
  match find_index phone todo with
  | None => (Raise (ValueError "Телефон не знайдено."), self)
  | Some j => (Ok tt, set_phones (remove_at (i + j) (phones self)) self)
  end.
Proof.
  revert i. induction todo as [|p todo IH]; intros i; simpl; [reflexivity|].
  destruct (value p =? phone)%string.
  - unfold modify. now rewrite Nat.add_0_r.
  - rewrite IH. destruct (find_index phone todo) as [j|]; simpl; trivial.
    now rewrite Nat.add_succ_r.
Qed.

(** ** [edit_phone] and [remove_phone] of [1.py] *)

Lemma Py1_edit_phone_from (old_phone new_phone : string)
  (todo : list Phone) (i : nat) (self : Record_) :
  Py1.edit_phone_from old_phone new_phone i todo self =
  match find_index old_phone todo with
  | None => (Raise (ValueError "Phone number not found"), self)
  | Some j =>
      (Ok tt, set_phones (set_value_at (i + j) new_phone (phones self)) self)
  end.
Proof.
  revert i. induction todo as [|p todo IH]; intros i; simpl; [reflexivity|].
  destruct (value p =? old_phone)%string.
  - unfold modify. now rewrite Nat.add_0_r.
  - rewrite IH. destruct (find_index old_phone todo) as [j|]; simpl; trivial.
    now rewrite Nat.add_succ_r.
Qed.

Lemma remove_phone_loop_step (v : string) (i : nat) (l : list Phone) :
  Py1.remove_phone_loop v i l =
  match nth_error l i with
  | None => l
  | Some phone =>
      if (value phone =? v)%string
      then Py1.remove_phone_loop v (S i) (remove_at i l)
      else Py1.remove_phone_loop v (S i) l
  end.
Proof.
  funelim (Py1.remove_phone_loop v i l).
  - rewrite H. reflexivity.
  - rewrite e. reflexivity.
Qed.

Lemma list_pair_ind {A} (P : list A -> Prop) :
  P [] -> (forall x, P [x]) ->
  (forall x y l, P l -> P (y :: l) -> P (x :: y :: l)) ->
  forall l, P l.
Proof.
  intros H0 H1 H2 l. enough (P l /\ forall x, P (x :: l)) by tauto.
  induction l as [|y l [IH1 IH2]]; split; auto.
Qed.

Lemma remove_phone_loop_scan (v : string) (rest pre : list Phone) :
  Py1.remove_phone_loop v (List.length pre) (pre ++ rest)
  = pre ++ remove_scan v rest.
Proof.
  revert pre. induction rest as [|x|x y l IHl IHyl] using list_pair_ind;
    intros pre; rewrite remove_phone_loop_step.
  - rewrite (proj2 (nth_error_None _ _)); [reflexivity|].
    rewrite length_app. simpl. lia.
  - rewrite nth_error_app2, Nat.sub_diag by lia. simpl.
    destruct (value x =? v)%string.
    + rewrite remove_at_app, remove_phone_loop_step.
      rewrite (proj2 (nth_error_None _ _)); [reflexivity|].
      rewrite length_app. simpl. lia.
    + rewrite remove_phone_loop_step.
      rewrite (proj2 (nth_error_None _ _)); [reflexivity|].
      rewrite length_app. simpl. lia.
  - rewrite nth_error_app2, Nat.sub_diag by lia. simpl.
    destruct (value x =? v)%string.
    + rewrite remove_at_app.
      replace (S (List.length pre)) with (List.length (pre ++ [y]))
        by (rewrite length_app; simpl; lia).
      replace (pre ++ y :: l) with ((pre ++ [y]) ++ l)
        by (now rewrite <- app_assoc).
      rewrite IHl, <- app_assoc. reflexivity.
    + replace (S (List.length pre)) with (List.length (pre ++ [x]))
        by (rewrite length_app; simpl; lia).
      replace (pre ++ x :: y :: l) with ((pre ++ [x]) ++ y :: l)
        by (now rewrite <- app_assoc).
      rewrite IHyl, <- app_assoc. reflexivity.
Qed.

Lemma Py1_remove_phone_scan (v : string) (self : Record_) :
  Py1.remove_phone v self
  = (Ok tt, set_phones (remove_scan v (phones self)) self).
Proof.
  unfold Py1.remove_phone, modify.
  pose proof (remove_phone_loop_scan v (phones self) []) as H.
  simpl in H. now rewrite H.
Qed.


Lemma remove_scan_two (v : string) (x y : Phone) (l : list Phone) :
  remove_scan v (x :: y :: l)
  = if (value x =? v)%string then y :: remove_scan v l
    else x :: remove_scan v (y :: l).
Proof. reflexivity. Qed.


Lemma remove_scan_Forall (P : Phone -> Prop) (v : string) (l : list Phone) :
  Forall P l -> Forall P (remove_scan v l).
Proof.
  induction l as [|x|x y l IHl IHyl] using list_pair_ind; intros H.
  - constructor.
  - simpl. now destruct (value x =? v)%string.
  - rewrite remove_scan_two. inversion H as [|? ? Hx Hr]; subst.
    inversion Hr as [|? ? Hy Hl]; subst.
    destruct (value x =? v)%string; constructor; auto.
Qed.






Lemma first_match_find_index (v : string) (l pre post : list Phone)
  (x : Phone) :
  first_match v l pre x post -> find_index v l = Some (List.length pre).
Proof.
  intros Hm. inversion Hm as [? ? ? Hpre Hx]; subst. clear Hm.
  induction Hpre as [|q pre Hq Hpre IH]; simpl.
  - now rewrite String.eqb_refl.
  - destruct (String.eqb_spec (value q) (value x)); [contradiction|].
    now rewrite IH.
Qed.

Lemma set_value_at_app (w : string) (pre : list Phone) (x : Phone)
  (post : list Phone) :
  set_value_at (List.length pre) w (pre ++ x :: post)
  = pre ++ mkField w :: post.
Proof. induction pre as [|y pre IH]; simpl; [reflexivity | now rewrite IH]. Qed.

Lemma first_match_or_none (v : string) (l : list Phone) :
  Forall (fun p => value p <> v) l
  \/ exists pre x post, first_match v l pre x post.
Proof.
  destruct (find_index v l) as [i|] eqn:E.
  - right. destruct (find_index_Some v l i E) as (pre & x & post & Hm & _).
    now exists pre, x, post.
  - left. now apply find_index_None.
Qed.

(** [edit_phone] of [main.py]: the first phone equal to [old_phone] takes
    the value [new_phone] once [Phone(new_phone)] has accepted it; nothing
    is stored when it refuses, or when no phone is equal to [old_phone]. *)
Lemma PyMain_edit_phone_spec (self : Record_) (old_phone new_phone : string) :
  (Forall (fun q => value q <> old_phone) (phones self) ->
     PyMain.edit_phone old_phone new_phone self
     = (Raise (ValueError "Старий номер телефону не знайдено."), self))
  /\ (forall pre x post,
        first_match old_phone (phones self) pre x post ->
        PyMain.edit_phone old_phone new_phone self
        = match PyMain.Phone_init new_phone with
          | Ok _ =>
              (Ok tt, set_phones (pre ++ mkField new_phone :: post) self)
          | Raise e => (Raise e, self)
          end).
Proof.
  unfold PyMain.edit_phone, bind, get. rewrite PyMain_edit_phone_from.
  split.
  - intros H. apply find_index_None in H. now rewrite H.
  - intros pre x post Hm. rewrite (first_match_find_index _ _ _ _ _ Hm).
    rewrite PyMain_Phone_init_validate.
    destruct (Py1.Phone_validate new_phone); [|reflexivity].
    inversion Hm as [? ? ? _ _ Hl]. simpl.
    now rewrite set_value_at_app.
Qed.

(** [edit_phone] of [1.py]: the same search, and [new_phone] is stored as
    it comes. *)
Lemma Py1_edit_phone_spec (self : Record_) (old_phone new_phone : string) :
  (Forall (fun q => value q <> old_phone) (phones self) ->
     Py1.edit_phone old_phone new_phone self
     = (Raise (ValueError "Phone number not found"), self))
  /\ (forall pre x post,
        first_match old_phone (phones self) pre x post ->
        Py1.edit_phone old_phone new_phone self
        = (Ok tt, set_phones (pre ++ mkField new_phone :: post) self)).
Proof.
  unfold Py1.edit_phone, bind, get. rewrite Py1_edit_phone_from.
  split.
  - intros H. apply find_index_None in H. now rewrite H.
  - intros pre x post Hm. rewrite (first_match_find_index _ _ _ _ _ Hm).
    inversion Hm as [? ? ? _ _ Hl]. simpl.
    now rewrite set_value_at_app.
Qed.

(** ** The phone invariant of a record *)

Lemma Phone_init_valid (v : string) (p : Phone) :
  Py1.Phone_init v = Ok p \/ PyMain.Phone_init v = Ok p ->
  phone_rule (value p) /\ value p = v.
Proof.
  rewrite Py1_Phone_init_validate, PyMain_Phone_init_validate.
  destruct (Py1.Phone_validate v) eqn:E.
  - intros [H|H]; inversion H; subst; split; trivial;
      now apply Phone_validate_rule.
  - intros [H|H]; discriminate.
Qed.

(** Every operation of [main.py] on a record keeps the phone invariant,
    whatever its outcome. *)
Lemma PyMain_keeps_phones_valid (self self' : Record_) (o : outcome unit) :
  phones_valid self ->
  (exists v, PyMain.add_phone v self = (o, self'))
  \/ (exists v, PyMain.remove_phone v self = (o, self'))
  \/ (exists v w, PyMain.edit_phone v w self = (o, self')) ->
  phones_valid self'.
Proof.
  unfold phones_valid. intros Hv [[v H] | [[v H] | [v [w H]]]].
  - unfold PyMain.add_phone, bind, call, modify in H.
    destruct (PyMain.Phone_init v) as [p|e] eqn:E; inversion H; subst; trivial.
    simpl. apply Forall_app. split; trivial. constructor; [|constructor].
    apply (Phone_init_valid v p). now right.
  - unfold PyMain.remove_phone, bind, get in H.
    rewrite PyMain_remove_phone_from in H.
    destruct (find_index v (phones self)) as [i|] eqn:E;
      inversion H; subst; trivial.
    destruct (find_index_Some _ _ _ E) as (pre & x & post & Hm & _ & Hr & _).
    simpl. rewrite Hr. inversion Hm as [? ? ? _ _ Hl]. rewrite <- Hl in Hv.
    apply Forall_app in Hv. destruct Hv as [Hpre Hpost].
    inversion Hpost; subst. apply Forall_app. now split.
  - destruct (first_match_or_none v (phones self))
      as [Hn | (pre & x & post & Hm)].
    + rewrite (proj1 (PyMain_edit_phone_spec self v w) Hn) in H.
      now inversion H; subst.
    + rewrite (proj2 (PyMain_edit_phone_spec self v w) _ _ _ Hm) in H.
      destruct (PyMain.Phone_init w) as [p|e] eqn:E;
        inversion H; subst; trivial.
      simpl. inversion Hm as [? ? ? _ _ Hl]. rewrite <- Hl in Hv.
      apply Forall_app in Hv. destruct Hv as [Hpre Hpost].
      inversion Hpost; subst. apply Forall_app. split; trivial.
      constructor; trivial. simpl.
      destruct (Phone_init_valid w p (or_intror E)) as [Hp Hw]. congruence.
Qed.

(** So the invariant holds all along a session of [main.py] on a record
    that starts without phones. *)
Lemma PyMain_session_phones_valid (ops : list record_op) (who : string)
  (b : option string) (self : Record_) :
  PyMain.Record_init who b = Ok self ->
  phones_valid (PyMain_session ops self).
Proof.
  intros Hinit.
  assert (Hv : phones_valid self).
  { unfold PyMain.Record_init in Hinit.
    destruct (PyMain.Name_init who) as [n|e]; [|discriminate].
    cbn [obind] in Hinit.
    destruct (match b with
              | Some (String _ _ as v) =>
                  obind (PyMain.Birthday_init v) (fun b0 => Ok (Some b0))
              | _ => Ok None
              end) as [b'|e]; [|discriminate].
    inversion Hinit. constructor. }
  clear Hinit. revert self Hv.
  induction ops as [|op ops IH]; intros self Hv; [exact Hv|].
  simpl. apply IH.
  destruct (PyMain_apply op self) as [o self'] eqn:E.
  apply (PyMain_keeps_phones_valid self self' o Hv).
  destruct op; simpl in E; eauto.
Qed.

(** In [1.py], [add_phone], [remove_phone] and [add_birthday] keep it. *)
Lemma Py1_keeps_phones_valid (self self' : Record_) (o : outcome unit) :
  phones_valid self ->
  (exists v, Py1.add_phone v self = (o, self'))
  \/ (exists v, Py1.remove_phone v self = (o, self'))
  \/ (exists v, Py1.add_birthday v self = (o, self')) ->
  phones_valid self'.
Proof.
  unfold phones_valid. intros Hv [[v H] | [[v H] | [v H]]].
  - unfold Py1.add_phone, bind, call, modify in H.
    destruct (Py1.Phone_init v) as [p|e] eqn:E; inversion H; subst; trivial.
    simpl. apply Forall_app. split; trivial. constructor; [|constructor].
    apply (Phone_init_valid v p). now left.
  - rewrite Py1_remove_phone_scan in H. inversion H; subst. simpl.
    now apply remove_scan_Forall.
  - unfold Py1.add_birthday, bind, call, modify in H.
    destruct (Py1.Birthday_init v); inversion H; subst; trivial.
Qed.

(** C1: in [1.py] the invariant is broken by [edit_phone], which stores the
    new value without building a [Phone] from it: on a new record,
    [add_phone("1112223330")] followed by
    [edit_phone("1112223330", "12")] succeeds and leaves the phone ["12"],
    which fails the rule. *)
Theorem Py1_edit_phone_breaks_phone_rule :
  (Py1.add_phone "1112223330" ;;; Py1.edit_phone "1112223330" "12")
    (Py1.Record_init "Ann")
  = (Ok tt, mkRecord (mkField "Ann") [mkField "12"] None)
  /\ ~ phones_valid (mkRecord (mkField "Ann") [mkField "12"] None).
Proof.
  split; [reflexivity|].
  intros H. inversion H as [|p l [Hl _] _]; subst. discriminate Hl.
Qed.

(** C5: on the record with the single phone ["1112223330"], editing it to
    ["abc"] is refused by [main.py] with the validation error and nothing
    changes, while [1.py] reports success and stores ["abc"]. *)
Theorem Py1_edit_phone_stores_unvalidated :
  PyMain.edit_phone "1112223330" "abc" ann
  = (Raise (ValueError "Номер телефону має містити 10 цифр."), ann)
  /\ Py1.edit_phone "1112223330" "abc" ann
     = (Ok tt, mkRecord (mkField "Ann") [mkField "abc"] None)
  /\ Py1.Phone_init "abc"
     = Raise (ValueError
         "Invalid phone number format. Should start from 0 and be 10 digits").
Proof. repeat split. Qed.




(** ** The registry *)

Lemma dict_get_absent {V} (k : string) (d : dict V) :
  ~ In k (map fst d) -> dict_get k d = None.
Proof.
  induction d as [|[k' v] d IH]; simpl; intros H; [reflexivity|].
  destruct (String.eqb_spec k' k) as [E|N]; [tauto|].
  apply IH. tauto.
Qed.

Lemma dict_get_del {V} (k : string) (d : dict V) :
  dict_wf d -> dict_get k (dict_del k d) = None.
Proof.
  unfold dict_wf. induction d as [|[k' v] d IH]; simpl; intros H;
    [reflexivity|].
  inversion H as [|? ? Hk Hd]; subst.
  destruct (String.eqb_spec k' k) as [E|N].
  - subst k'. now apply dict_get_absent.
  - simpl. destruct (String.eqb_spec k' k); [contradiction|]. now apply IH.
Qed.

Lemma dict_set_same {V} (k : string) (v : V) (d : dict V) :
  dict_get k d = Some v -> dict_set k v d = d.
Proof.
  induction d as [|[k' v'] d IH]; simpl; [discriminate|].
  destruct (k' =? k)%string.
  - intros H. now inversion H.
  - intros H. now rewrite IH.
Qed.

Lemma dict_set_absent {V} (k : string) (v : V) (d : dict V) :
  dict_get k d = None -> dict_set k v d = d ++ [(k, v)].
Proof.
  induction d as [|[k' v'] d IH]; simpl; [reflexivity|].
  destruct (k' =? k)%string; [discriminate|].
  intros H. now rewrite IH.
Qed.

Lemma dict_get_set {V} (k k0 : string) (v : V) (d : dict V) :
  dict_get k0 (dict_set k v d)
  = if (k =? k0)%string then Some v else dict_get k0 d.
Proof.
  induction d as [|[k' v'] d IH]; simpl.
  - reflexivity.
  - destruct (String.eqb_spec k' k) as [E|N]; simpl.
    + subst k'. now destruct (k =? k0)%string.
    + rewrite IH. destruct (String.eqb_spec k' k0) as [E0|N0]; trivial.
      subst k0. destruct (String.eqb_spec k k'); [congruence | reflexivity].
Qed.

(** C7, as stated, fails in [1.py]: the second [delete] of a name returns
    normally. *)
Lemma Py1_second_delete_is_silent :
  Py1.delete "Ann" address_book = (Ok tt, [])
  /\ Py1.delete "Ann" [] = (Ok tt, []).
Proof. split; reflexivity. Qed.

(** C7, amended: for every registry and every name present in it, deleting
    the name leaves a registry in which looking the name up returns [None]
    and raises nothing; on that registry a second deletion fails with the
    not-found error in [main.py] ([delete_record]) and is a silent no-op in
    [1.py] ([delete]); either way the registry stays as it is. *)
Theorem delete_then_find (book : AddressBook) (name : string) :
  dict_wf book ->
  dict_contains name book = true ->
  (PyMain.delete_record name book = (Ok tt, dict_del name book)
   /\ PyMain.search_record name (dict_del name book)
      = (Ok None, dict_del name book)
   /\ PyMain.delete_record name (dict_del name book)
      = (Raise (ValueError "Контакт не знайдено."), dict_del name book))
  /\ (Py1.delete name book = (Ok tt, dict_del name book)
      /\ Py1.find name (dict_del name book) = (Ok None, dict_del name book)
      /\ Py1.delete name (dict_del name book) = (Ok tt, dict_del name book)).
Proof.
  intros Hwf Hin.
  unfold PyMain.delete_record, PyMain.search_record, Py1.delete, Py1.find,
    bind, get, ret, raise, modify, dict_contains in *.
  rewrite (dict_get_del name book Hwf).
  destruct (dict_get name book); [|discriminate].
  repeat split.
Qed.

Lemma delete_then_find_witness :
  (PyMain.delete_record "Ann" address_book = (Ok tt, [])
   /\ PyMain.search_record "Ann" [] = (Ok None, [])
   /\ PyMain.delete_record "Ann" []
      = (Raise (ValueError "Контакт не знайдено."), []))
  /\ (Py1.delete "Ann" address_book = (Ok tt, [])
      /\ Py1.find "Ann" [] = (Ok None, [])
      /\ Py1.delete "Ann" [] = (Ok tt, [])).
Proof.
  apply (delete_then_find address_book "Ann").
  - repeat constructor. simpl. tauto.
  - reflexivity.
Defined.

(** A key that the dictionary holds has a first cell, and only that
    cell is written. *)
Lemma dict_get_split {V} (k : string) (v : V) (d : dict V) :
  dict_get k d = Some v ->
  exists before after,
    d = before ++ (k, v) :: after /\ ~ In k (map fst before).
Proof.
  induction d as [|[k' v'] d IH]; simpl; [discriminate|].
  destruct (String.eqb_spec k' k) as [->|N].
  - intros H. inversion H. now exists [], d.
  - intros H. destruct (IH H) as (before & after & -> & Hn).
    exists ((k', v') :: before), after. split; [reflexivity|].
    simpl. intros [E|E]; [now apply N | now apply Hn].
Qed.

Lemma dict_set_split {V} (k : string) (v v' : V) (before after : dict V) :
  ~ In k (map fst before) ->
  dict_set k v' (before ++ (k, v) :: after) = before ++ (k, v') :: after.
Proof.
  induction before as [|[k0 v0] before IH]; simpl; intros Hn.
  - now rewrite String.eqb_refl.
  - destruct (String.eqb_spec k0 k) as [E|N]; [tauto|].
    rewrite IH; [reflexivity | tauto].
Qed.

Lemma dict_get_first {V} (k : string) (v : V) (before after : dict V) :
  ~ In k (map fst before) ->
  dict_get k (before ++ (k, v) :: after) = Some v.
Proof.
  induction before as [|[k0 v0] before IH]; simpl; intros Hn.
  - now rewrite String.eqb_refl.
  - destruct (String.eqb_spec k0 k) as [E|N]; [tauto|].
    apply IH. tauto.
Qed.

Lemma dict_get_None_keys {V} (k : string) (d : dict V) :
  dict_get k d = None -> ~ In k (map fst d).
Proof.
  induction d as [|[k' v] d IH]; simpl; [tauto|].
  destruct (String.eqb_spec k' k); [discriminate|].
  intros H [E|E]; [contradiction | now apply IH].
Qed.

(** ** Errors leave the state alone *)

Lemma on_local_keeps_state {S} (r : Record_) (m : M Record_ unit) :
  keeps_state_on_error (S := S) (on_local r m).
Proof.
  intros s e s' H. unfold on_local in H.
  destruct (m r) as [[a|e'] r']; now inversion H.
Qed.

Lemma Py1_add_phone_keeps (v : string) :
  keeps_state_on_error (Py1.add_phone v).
Proof.
  intros s e s' H. unfold Py1.add_phone, bind, call, modify in H.
  destruct (Py1.Phone_init v); now inversion H.
Qed.

Lemma PyMain_add_phone_keeps (v : string) :
  keeps_state_on_error (PyMain.add_phone v).
Proof.
  intros s e s' H. unfold PyMain.add_phone, bind, call, modify in H.
  destruct (PyMain.Phone_init v); now inversion H.
Qed.

Lemma Py1_edit_phone_keeps (old_phone new_phone : string) :
  keeps_state_on_error (Py1.edit_phone old_phone new_phone).
Proof.
  intros s e s' H. unfold Py1.edit_phone, bind, get in H.
  rewrite Py1_edit_phone_from in H.
  destruct (find_index old_phone (phones s)); now inversion H.
Qed.

Lemma PyMain_edit_phone_keeps (old_phone new_phone : string) :
  keeps_state_on_error (PyMain.edit_phone old_phone new_phone).
Proof.
  intros s e s' H. unfold PyMain.edit_phone, bind, get in H.
  rewrite PyMain_edit_phone_from in H.
  destruct (find_index old_phone (phones s)); [|now inversion H].
  destruct (PyMain.Phone_init new_phone); now inversion H.
Qed.

Lemma Py1_add_birthday_keeps (v : string) :
  keeps_state_on_error (Py1.add_birthday v).
Proof.
  intros s e s' H. unfold Py1.add_birthday, bind, call, modify in H.
  destruct (Py1.Birthday_init v); now inversion H.
Qed.

Lemma Py1_add_contact_body_keeps (args : list string) :
  keeps_state_on_error (Py1.add_contact_body args).
Proof.
  intros book e book' H.
  destruct args as [|name [|phone [|x args]]]; try now inversion H.
  unfold Py1.add_contact_body, Py1.find, Py1.add_record, bind, get, ret,
    modify, on_record, on_local in H.
  destruct (dict_get name book) as [r|] eqn:E.
  - destruct (Py1.add_phone phone r) as [[a|e'] r'] eqn:Ea;
      inversion H; subst.
    rewrite (Py1_add_phone_keeps phone r e r' Ea).
    now apply dict_set_same.
  - destruct (Py1.add_phone phone (Py1.Record_init name)) as [[a|e'] r'];
      now inversion H.
Qed.

Lemma PyMain_command_name_keeps (who phone birthday_text : string) :
  keeps_state_on_error (PyMain.command_name who phone birthday_text).
Proof.
  intros book e book' H.
  unfold PyMain.command_name, PyMain.add_record, bind, call, get, ret,
    raise, modify in H. cbv zeta in H.
  destruct (PyMain.Record_init (str_strip who)
              (Some (str_strip birthday_text))) as [r|e0];
    [|now inversion H].
  destruct (str_strip phone) as [|c phone'].
  - destruct (dict_contains (value (name r)) book); now inversion H.
  - destruct (on_local r (PyMain.add_phone (String c phone')) book)
      as [[r'|e1] book1] eqn:El.
    + unfold on_local in El.
      destruct (PyMain.add_phone (String c phone') r) as [[a|e2] r2];
        inversion El; subst.
      destruct (dict_contains (value (name r')) book1);
        now inversion H.
    + inversion H; subst. now apply (on_local_keeps_state _ _ _ _ _ El).
Qed.

(** C8: an operation that raises has mutated nothing. For [add_phone] and
    [edit_phone] of both files and for [add_birthday] the record is, after
    the error, what it was before; for the [name] command of [main.py]
    (which builds the record with its initial birthday) and for
    [add_contact] of [1.py] the registry is what it was before, and
    [add_contact] hands the text of the error back as its message. The
    validation errors do occur: the last two lines run [add_contact] and
    [add_birthday] on malformed input. *)
Theorem errors_leave_state_unchanged :
  (forall v, keeps_state_on_error (Py1.add_phone v))
  /\ (forall v, keeps_state_on_error (PyMain.add_phone v))
  /\ (forall old_phone new_phone,
        keeps_state_on_error (Py1.edit_phone old_phone new_phone))
  /\ (forall old_phone new_phone,
        keeps_state_on_error (PyMain.edit_phone old_phone new_phone))
  /\ (forall v, keeps_state_on_error (Py1.add_birthday v))
  /\ (forall who phone birthday_text,
        keeps_state_on_error (PyMain.command_name who phone birthday_text))
  /\ (forall args, keeps_state_on_error (Py1.add_contact_body args))
  /\ (forall args book e book',
        Py1.add_contact_body args book = (Raise e, book') ->
        exists msg, Py1.add_contact args book = (Ok msg, book))
  /\ Py1.add_contact ["Ann"; "12"]%string address_book
     = (Ok "Invalid phone number format. Should start from 0 and be 10 digits"%string,
        address_book)
  /\ Py1.add_birthday "31.02.2024" ann
     = (Raise (ValueError "Invalid date format. Use DD.MM.YYYY"), ann).
Proof.
  split; [exact Py1_add_phone_keeps|].
  split; [exact PyMain_add_phone_keeps|].
  split; [exact Py1_edit_phone_keeps|].
  split; [exact PyMain_edit_phone_keeps|].
  split; [exact Py1_add_birthday_keeps|].
  split; [exact PyMain_command_name_keeps|].
  split; [exact Py1_add_contact_body_keeps|].
  split; [|split; reflexivity].
  intros args book e book' H.
  rewrite (Py1_add_contact_body_keeps args book e book' H) in H.
  unfold Py1.add_contact, Py1.input_error. rewrite H.
  destruct e; eexists; reflexivity.
Qed.

Lemma errors_leave_state_unchanged_witness :
  snd (PyMain.edit_phone "1112223330" "abc" ann) = ann
  /\ snd (Py1.add_contact_body ["Ann"; "12"]%string address_book)
     = address_book.
Proof.
  split.
  - apply (proj1 (proj2 (proj2 (proj2 errors_leave_state_unchanged)))
             "1112223330"%string "abc"%string ann
             (ValueError "Номер телефону має містити 10 цифр.")).
    reflexivity.
  - apply (proj1 (proj2 (proj2 (proj2 (proj2 (proj2 (proj2
             errors_leave_state_unchanged))))))
             ["Ann"; "12"]%string address_book
             (ValueError invalid_phone_text)).
    reflexivity.
Defined.

(** ** [add_contact] *)

(** C9: [add_contact] of [1.py], called with a name and a phone. When the
    registry holds a record under the name (the name then has a first
    cell in the registry), a valid phone is appended to that record, which
    keeps its place, its name, its earlier phones and its birthday, the
    other records being as they were; the message is "Phone added." and
    [find] of the name then returns the record with the new phone. When
    the registry holds none, a record with the name, that single phone and
    no birthday is added at the end, the message is "Contact added." and
    [find] of the name then returns that record. A phone that fails the
    rule is refused in both cases: the message is the text of the
    validation error and the registry is left as it was. *)
Theorem add_contact_spec (book : AddressBook) (who phone : string) :
  (forall r, dict_get who book = Some r ->
     exists before after,
       book = before ++ (who, r) :: after /\ ~ In who (map fst before))
  /\ (forall before r after,
        book = before ++ (who, r) :: after ->
        ~ In who (map fst before) ->
        (phone_rule phone ->
           Py1.add_contact [who; phone] book
           = (Ok "Phone added."%string,
              before
              ++ (who, mkRecord (name r) (phones r ++ [mkField phone])
                         (birthday r)) :: after)
           /\ Py1.find who
                (before
                 ++ (who, mkRecord (name r) (phones r ++ [mkField phone])
                            (birthday r)) :: after)
              = (Ok (Some (mkRecord (name r) (phones r ++ [mkField phone])
                             (birthday r))),
                 before
                 ++ (who, mkRecord (name r) (phones r ++ [mkField phone])
                            (birthday r)) :: after))
        /\ (~ phone_rule phone ->
            Py1.add_contact [who; phone] book
            = (Ok invalid_phone_text, book)))
  /\ (dict_get who book = None ->
     (phone_rule phone ->
        Py1.add_contact [who; phone] book
        = (Ok "Contact added."%string,
           book ++ [(who, mkRecord (mkField who) [mkField phone] None)])
        /\ Py1.find who
             (book ++ [(who, mkRecord (mkField who) [mkField phone] None)])
           = (Ok (Some (mkRecord (mkField who) [mkField phone] None)),
              book ++ [(who, mkRecord (mkField who) [mkField phone] None)]))
     /\ (~ phone_rule phone ->
        Py1.add_contact [who; phone] book = (Ok invalid_phone_text, book))).
Proof.
  split; [intros r; apply dict_get_split|].
  unfold Py1.add_contact, Py1.input_error, Py1.add_contact_body, Py1.find,
    Py1.add_record, Py1.add_phone, on_record, on_local, bind, get, ret,
    call, modify.
  rewrite Py1_Phone_init_validate.
  pose proof (Phone_validate_rule phone) as Hr.
  split.
  - intros before r after -> Hn.
    rewrite !(dict_get_first who _ before after Hn). split; intros H.
    + apply Hr in H. rewrite H. cbn [negb]. cbv iota beta.
      split; [|reflexivity].
      unfold set_phones. now rewrite (dict_set_split who _ _ _ _ Hn).
    + destruct (Py1.Phone_validate phone).
      * exfalso. apply H. now apply Hr.
      * cbn [negb]. cbv iota beta.
        now rewrite (dict_set_split who _ _ _ _ Hn).
  - intros Hget. rewrite Hget. split; intros H.
    + apply Hr in H. rewrite H. simpl.
      rewrite (dict_set_absent _ _ _ Hget). split; [reflexivity|].
      now rewrite (dict_get_first who _ book []
                     (dict_get_None_keys _ _ Hget)).
    + destruct (Py1.Phone_validate phone); [|reflexivity].
      exfalso. apply H. now apply Hr.
Qed.

Lemma add_contact_spec_witness :
  Py1.add_contact ["Bob"; "4445556660"]%string june_book
  = (Ok "Phone added."%string,
     [("Ann"%string,
       mkRecord (mkField "Ann") [mkField "1112223330"]
         (Some (mkField "12.06.1990")));
      ("Bob"%string,
       mkRecord (mkField "Bob") [mkField "4445556660"]
         (Some (mkField "15.06.1990")));
      ("Eve"%string,
       mkRecord (mkField "Eve") [] (Some (mkField "01.01.1990")));
      ("Dan"%string, mkRecord (mkField "Dan") [mkField "4445556660"] None)]).
Proof.
  refine (proj1 (proj1 (proj1 (proj2 (add_contact_spec june_book "Bob"
                                        "4445556660"))
            [("Ann"%string,
              mkRecord (mkField "Ann") [mkField "1112223330"]
                (Some (mkField "12.06.1990")))]
            (mkRecord (mkField "Bob") [] (Some (mkField "15.06.1990")))
            [("Eve"%string,
              mkRecord (mkField "Eve") [] (Some (mkField "01.01.1990")));
             ("Dan"%string,
              mkRecord (mkField "Dan") [mkField "4445556660"] None)]
            _ _) _)).
  - reflexivity.
  - simpl. intros [E|[]]. discriminate E.
  - split; [reflexivity | repeat constructor].
Defined.

(** ** Dates *)

Lemma date_new_Ok (y m d : Z) (x : date) :
  date_new y m d = Ok x <-> x = mkdate y m d /\ valid_date (mkdate y m d).
Proof.
  unfold date_new, valid_date. simpl.
  destruct ((MINYEAR <=? y) && (y <=? MAXYEAR)) eqn:Ey; simpl.
  2:{ split; [discriminate|]. intros [_ H].
      apply andb_false_iff in Ey. destruct Ey as [E|E];
        [apply Z.leb_gt in E | apply Z.leb_gt in E]; lia. }
  destruct ((1 <=? m) && (m <=? 12)) eqn:Em; simpl.
  2:{ split; [discriminate|]. intros [_ H].
      apply andb_false_iff in Em. destruct Em as [E|E];
        [apply Z.leb_gt in E | apply Z.leb_gt in E]; lia. }
  destruct ((1 <=? d) && (d <=? _days_in_month y m)) eqn:Ed; simpl.
  2:{ split; [discriminate|]. intros [_ H].
      apply andb_false_iff in Ed. destruct Ed as [E|E];
        [apply Z.leb_gt in E | apply Z.leb_gt in E]; lia. }
  apply andb_true_iff in Ey, Em, Ed.
  rewrite !Z.leb_le in Ey, Em, Ed.
  split.
  - intros H. inversion H. split; [reflexivity | lia].
  - intros [-> _]. reflexivity.
Qed.

Lemma date_new_valid (y m d : Z) :
  valid_date (mkdate y m d) -> date_new y m d = Ok (mkdate y m d).
Proof. intros H. apply date_new_Ok. now split. Qed.

Lemma date_new_invalid (y m d : Z) :
  ~ valid_date (mkdate y m d) -> exists msg, date_new y m d = Raise (ValueError msg).
Proof.
  intros H. destruct (date_new y m d) as [x|e] eqn:E.
  - apply date_new_Ok in E. tauto.
  - unfold date_new in E.
    repeat match type of E with
           | (if ?c then _ else _) = _ => destruct c
           end; inversion E; eexists; reflexivity.
Qed.

(** 29 February exists in leap years only. *)
Lemma leap_day_invalid (y : Z) :
  _is_leap y = false -> ~ valid_date (mkdate y 2 29).
Proof.
  unfold valid_date, _days_in_month. simpl. intros ->. simpl. lia.
Qed.

(** ** The scheduler raises on 29 February *)

Lemma upcoming_step_leap_day (today : date) (r : Record_) (b : Birthday)
  (bd : date) (acc : list (string * date)) :
  birthday r = Some b ->
  strptime_dmY (value b) = Ok bd ->
  month bd = 2 -> day bd = 29 ->
  _is_leap (year today) = false ->
  exists msg, Py1.upcoming_step today r acc = Raise (ValueError msg).
Proof.
  intros Hb Hs Hm Hd Hl. unfold Py1.upcoming_step. rewrite Hb, Hs. simpl.
  unfold replace_year. rewrite Hm, Hd.
  destruct (date_new_invalid (year today) 2 29 (leap_day_invalid _ Hl))
    as [msg ->].
  now exists msg.
Qed.

Lemma upcoming_loop_raises (today : date) (records : list Record_)
  (r : Record_) :
  In r records ->
  (forall acc, exists e, Py1.upcoming_step today r acc = Raise e) ->
  forall acc, exists e, Py1.upcoming_loop today records acc = Raise e.
Proof.
  intros Hin Hr.
  induction records as [|x records IH]; intros acc; [contradiction|].
  simpl. destruct Hin as [->|Hin].
  - destruct (Hr acc) as [e ->]. now exists e.
  - destruct (Py1.upcoming_step today x acc) as [acc'|e'] eqn:Ex; simpl.
    + now apply IH.
    + now exists e'.
Qed.

(** C10: whenever the registry holds a record whose stored birthday reads
    as a 29 February and the year of [today] is not a leap year,
    [get_upcoming_birthdays] raises instead of returning a list. Such a
    registry is within reach of the commands: [leap_book] is what
    [add_contact] and [add_birthday] build from the empty registry, all its
    fields pass their validation, and on 25 February 2023 the scheduler
    raises the [ValueError] of [date.replace]. *)
Theorem leap_day_birthday_raises :
  (forall (today : date) (book : AddressBook) (r : Record_) (b : Birthday)
          (bd : date),
      In r (dict_values book) ->
      birthday r = Some b ->
      strptime_dmY (value b) = Ok bd ->
      month bd = 2 -> day bd = 29 ->
      _is_leap (year today) = false ->
      exists e, Py1.get_upcoming_birthdays today book = Raise e)
  /\ (exists book1,
        Py1.add_contact ["Ann"; "1112223330"]%string []
        = (Ok "Contact added."%string, book1)
        /\ on_record "Ann" ann (Py1.add_birthday "29.02.2024") book1
           = (Ok tt, leap_book))
  /\ phones_valid leap_ann
  /\ Py1.Birthday_validate "29.02.2024" = Ok true
  /\ Py1.get_upcoming_birthdays (mkdate 2023 2 25) leap_book
     = Raise (ValueError "day is out of range for month").
Proof.
  split; [|split; [|split; [|split]]].
  - intros today book r b bd Hin Hb Hs Hm Hd Hl.
    unfold Py1.get_upcoming_birthdays.
    apply (upcoming_loop_raises today (dict_values book) r Hin).
    intros acc.
    destruct (upcoming_step_leap_day today r b bd acc Hb Hs Hm Hd Hl)
      as [msg H].
    now exists (ValueError msg).
  - eexists. split; reflexivity.
  - repeat constructor.
  - reflexivity.
  - reflexivity.
Qed.

Lemma leap_day_birthday_raises_witness :
  exists e, Py1.get_upcoming_birthdays (mkdate 2023 2 25) leap_book = Raise e.
Proof.
  apply (proj1 leap_day_birthday_raises (mkdate 2023 2 25) leap_book
           leap_ann (mkField "29.02.2024") (mkdate 2024 2 29)).
  - simpl. tauto.
  - reflexivity.
  - reflexivity.
  - reflexivity.
  - reflexivity.
  - reflexivity.
Defined.

(** ** Ordinals *)

Lemma month_cases (m : Z) :
  1 <= m <= 12 ->
  m = 1 \/ m = 2 \/ m = 3 \/ m = 4 \/ m = 5 \/ m = 6 \/ m = 7 \/ m = 8
  \/ m = 9 \/ m = 10 \/ m = 11 \/ m = 12.
Proof. lia. Qed.

Lemma month_table (leap : bool) (m : Z) :
  1 <= m <= 12 ->
  0 <= _DAYS_BEFORE_MONTH m + (if (2 <? m) && leap then 1 else 0)
  /\ _DAYS_BEFORE_MONTH m + (if (2 <? m) && leap then 1 else 0)
     + (if (m =? 2) && leap then 29 else _DAYS_IN_MONTH m)
     <= 365 + (if leap then 1 else 0)
  /\ 28 <= (if (m =? 2) && leap then 29 else _DAYS_IN_MONTH m).
Proof.
  intros Hm.
  destruct (month_cases m Hm) as
    [->|[->|[->|[->|[->|[->|[->|[->|[->|[->|[->| ->]]]]]]]]]]];
    destruct leap; vm_compute; intuition discriminate.
Qed.

Lemma day_of_year_bounds (y m d : Z) :
  1 <= m <= 12 -> 1 <= d <= _days_in_month y m ->
  1 <= _days_before_month y m + d <= 365 + (if _is_leap y then 1 else 0).
Proof.
  intros Hm Hd. unfold _days_before_month, _days_in_month in *.
  pose proof (month_table (_is_leap y) m Hm). lia.
Qed.

Lemma days_before_next_year (y : Z) :
  _days_before_year (y + 1)
  = _days_before_year y + 365 + (if _is_leap y then 1 else 0).
Proof.
  unfold _days_before_year, _is_leap. cbv zeta.
  replace (y + 1 - 1) with y by lia.
  destruct (Z.eqb_spec (y mod 4) 0), (Z.eqb_spec (y mod 100) 0),
    (Z.eqb_spec (y mod 400) 0); cbn [andb negb orb];
    Z.div_mod_to_equations; lia.
Qed.

Lemma days_before_year_mono (y1 y2 : Z) :
  y1 <= y2 -> _days_before_year y1 <= _days_before_year y2.
Proof. unfold _days_before_year. cbv zeta. Z.div_mod_to_equations. lia. Qed.

Lemma toordinal_bounds (d : date) :
  valid_date d -> 1 <= toordinal d <= _MAXORDINAL.
Proof.
  intros (Hy & Hm & Hd). unfold toordinal, _ymd2ord.
  pose proof (day_of_year_bounds _ _ _ Hm Hd) as Hb.
  pose proof (days_before_next_year (year d)) as Hn.
  pose proof (days_before_year_mono 1 (year d) (proj1 Hy)) as H1.
  pose proof (days_before_year_mono (year d + 1) 10000) as H2.
  unfold MINYEAR, MAXYEAR in *.
  change (_days_before_year 1) with 0 in H1.
  change (_days_before_year 10000) with 3652059 in H2.
  unfold _MAXORDINAL. lia.
Qed.

Lemma month_day_table :
  forallb (fun n => month_day_ok false n && month_day_ok true n)
    (map Z.of_nat (seq 0 365)) = true.
Proof. vm_compute. reflexivity. Qed.

Lemma month_day_spec (leap : bool) (n : Z) :
  0 <= n <= 364 -> month_day_ok leap n = true.
Proof.
  intros Hn. pose proof month_day_table as T.
  rewrite forallb_forall in T. specialize (T n).
  assert (Hin : In n (map Z.of_nat (seq 0 365))).
  { apply in_map_iff. exists (Z.to_nat n). split; [lia|].
    apply in_seq. lia. }
  apply T in Hin. apply andb_true_iff in Hin. now destruct leap.
Qed.

Lemma ord2ymd_unfold (n : Z) :
  _ord2ymd n =
  let n0 := n - 1 in
  let n400 := n0 / 146097 in
  let r400 := n0 mod 146097 in
  let n100 := r400 / 36524 in
  let r100 := r400 mod 36524 in
  let n4 := r100 / 1461 in
  let r4 := r100 mod 1461 in
  let n1 := r4 / 365 in
  let r1 := r4 mod 365 in
  let y := n400 * 400 + 1 + (n100 * 100 + n4 * 4 + n1) in
  if (n1 =? 4) || (n100 =? 4) then (y - 1, 12, 31)
  else
    let leapyear := (n1 =? 3) && (negb (n4 =? 24) || (n100 =? 3)) in
    (y, fst (month_day leapyear r1), snd (month_day leapyear r1)).
Proof.
  unfold _ord2ymd, month_day, _DI400Y, _DI100Y, _DI4Y. cbv zeta.
  destruct (_ || _); [reflexivity|].
  destruct (_ <? _); reflexivity.
Qed.

Lemma ymd2ord_ord2ymd (n : Z) :
  1 <= n ->
  let '(y, m, d) := _ord2ymd n in _ymd2ord y m d = n.
Proof.
  intros Hn. rewrite ord2ymd_unfold. cbv zeta.
  set (n0 := n - 1).
  set (n400 := n0 / 146097). set (r400 := n0 mod 146097).
  set (n100 := r400 / 36524). set (r100 := r400 mod 36524).
  set (n4 := r100 / 1461). set (r4 := r100 mod 1461).
  set (n1 := r4 / 365). set (r1 := r4 mod 365).
  assert (H400 : n0 = 146097 * n400 + r400 /\ 0 <= r400 < 146097)
    by (subst n400 r400; Z.div_mod_to_equations; lia).
  assert (H100 : r400 = 36524 * n100 + r100 /\ 0 <= r100 < 36524)
    by (subst n100 r100; Z.div_mod_to_equations; lia).
  assert (H4 : r100 = 1461 * n4 + r4 /\ 0 <= r4 < 1461)
    by (subst n4 r4; Z.div_mod_to_equations; lia).
  assert (H1 : r4 = 365 * n1 + r1 /\ 0 <= r1 < 365)
    by (subst n1 r1; Z.div_mod_to_equations; lia).
  assert (H0 : 0 <= n0) by (subst n0; lia).
  assert (Hn0 : n = n0 + 1) by (subst n0; lia).
  clearbody n400 r400 n100 r100 n4 r4 n1 r1 n0.
  destruct (Z.eqb_spec n1 4) as [E1|E1]; [|destruct (Z.eqb_spec n100 4) as [E100|E100]];
    cbn [orb].
  - unfold _ymd2ord, _days_before_year, _days_before_month, _is_leap.
    cbv zeta. change (_DAYS_BEFORE_MONTH 12) with 334.
    change (2 <? 12) with true. cbn [andb].
    destruct (Z.eqb_spec ((n400 * 400 + 1 + (n100 * 100 + n4 * 4 + n1) - 1) mod 4) 0),
      (Z.eqb_spec ((n400 * 400 + 1 + (n100 * 100 + n4 * 4 + n1) - 1) mod 100) 0),
      (Z.eqb_spec ((n400 * 400 + 1 + (n100 * 100 + n4 * 4 + n1) - 1) mod 400) 0);
      cbn [andb negb orb]; Z.div_mod_to_equations; lia.
  - unfold _ymd2ord, _days_before_year, _days_before_month, _is_leap.
    cbv zeta. change (_DAYS_BEFORE_MONTH 12) with 334.
    change (2 <? 12) with true. cbn [andb].
    destruct (Z.eqb_spec ((n400 * 400 + 1 + (n100 * 100 + n4 * 4 + n1) - 1) mod 4) 0),
      (Z.eqb_spec ((n400 * 400 + 1 + (n100 * 100 + n4 * 4 + n1) - 1) mod 100) 0),
      (Z.eqb_spec ((n400 * 400 + 1 + (n100 * 100 + n4 * 4 + n1) - 1) mod 400) 0);
      cbn [andb negb orb]; Z.div_mod_to_equations; lia.
  - set (y := n400 * 400 + 1 + (n100 * 100 + n4 * 4 + n1)).
    set (leapyear := (n1 =? 3) && (negb (n4 =? 24) || (n100 =? 3))).
    assert (Hleap : _is_leap y = leapyear).
    { unfold _is_leap, leapyear, y.
      destruct (Z.eqb_spec ((n400 * 400 + 1 + (n100 * 100 + n4 * 4 + n1)) mod 4) 0),
        (Z.eqb_spec ((n400 * 400 + 1 + (n100 * 100 + n4 * 4 + n1)) mod 100) 0),
        (Z.eqb_spec ((n400 * 400 + 1 + (n100 * 100 + n4 * 4 + n1)) mod 400) 0),
        (Z.eqb_spec n1 3), (Z.eqb_spec n4 24), (Z.eqb_spec n100 3);
        cbn [andb negb orb]; try reflexivity;
        exfalso; Z.div_mod_to_equations; lia. }
    assert (Hyear : _days_before_year y = n0 - r1).
    { unfold _days_before_year, y. cbv zeta. Z.div_mod_to_equations. lia. }
    pose proof (month_day_spec leapyear r1 ltac:(lia)) as Hmd.
    unfold month_day_ok in Hmd.
    destruct (month_day leapyear r1) as [m d]. cbn [fst snd].
    rewrite !andb_true_iff, !Z.leb_le, Z.eqb_eq in Hmd.
    unfold _ymd2ord, _days_before_month. rewrite Hyear, Hleap. lia.
Qed.

Lemma toordinal_fromordinal (n : Z) :
  1 <= n -> toordinal (fromordinal n) = n.
Proof.
  intros Hn. pose proof (ymd2ord_ord2ymd n Hn) as H.
  unfold toordinal, fromordinal. now destruct (_ord2ymd n) as [[y m] d].
Qed.

(** ** The scheduler, in the words of the specification *)

Lemma weekend_shift_in_range (d : date) :
  valid_date d -> 5 <= weekday d ->
  date_add_days d (7 - weekday d)
  = Ok (fromordinal (toordinal d + (7 - weekday d))).
Proof.
  intros Hv Hw. unfold date_add_days.
  pose proof (toordinal_bounds d Hv) as Hb.
  unfold weekday, _MAXORDINAL in *.
  replace ((0 <? _) && (_ <=? 3652059)) with true; [reflexivity|].
  symmetry. apply andb_true_iff. rewrite Z.ltb_lt, Z.leb_le.
  Z.div_mod_to_equations. lia.
Qed.

Lemma congratulation_weekend (d : date) :
  valid_date d -> 5 <= weekday d ->
  toordinal (congratulation d) = toordinal d + (7 - weekday d)
  /\ weekday (congratulation d) = 0.
Proof.
  intros Hv Hw. unfold congratulation.
  destruct (Z.leb_spec 5 (weekday d)); [|lia].
  pose proof (toordinal_bounds d Hv) as Hb.
  assert (Ho : toordinal (fromordinal (toordinal d + (7 - weekday d)))
               = toordinal d + (7 - weekday d)).
  { apply toordinal_fromordinal. unfold weekday in *.
    Z.div_mod_to_equations. lia. }
  split; [exact Ho|].
  unfold weekday at 1. rewrite Ho. unfold weekday in *.
  Z.div_mod_to_equations. lia.
Qed.

Lemma congratulation_weekday (d : date) :
  weekday d < 5 -> congratulation d = d.
Proof.
  intros Hw. unfold congratulation.
  destruct (Z.leb_spec 5 (weekday d)); [lia | reflexivity].
Qed.

Lemma upcoming_step_spec (today : date) (r : Record_)
  (acc : list (string * date)) :
  schedulable today r ->
  Py1.upcoming_step today r acc = Ok (acc ++ upcoming_entry today r).
Proof.
  intros Hs. unfold Py1.upcoming_step, upcoming_entry.
  unfold schedulable in Hs.
  destruct (birthday r) as [b|]; [|now rewrite app_nil_r].
  destruct (Hs b eq_refl) as (bd & Hp & Hthis & Hocc).
  rewrite Hp. cbn [obind]. unfold replace_year.
  rewrite (date_new_valid _ _ _ Hthis). cbn [obind].
  fold (this_year today bd).
  assert (Hadv :
    (if date_lt (this_year today bd) today
     then date_new (year today + 1) (month (this_year today bd))
            (day (this_year today bd))
     else Ok (this_year today bd)) = Ok (occurrence today bd)).
  { unfold occurrence in *.
    destruct (date_lt (this_year today bd) today); [|reflexivity].
    now apply date_new_valid. }
  rewrite Hadv. cbn [obind]. unfold date_sub_days. fold (days_until today bd).
  destruct ((0 <=? days_until today bd) && (days_until today bd <=? 7));
    [|now rewrite app_nil_r].
  unfold congratulation.
  destruct (Z.leb_spec 5 (weekday (occurrence today bd))) as [Hw|Hw].
  - now rewrite (weekend_shift_in_range _ Hocc Hw).
  - reflexivity.
Qed.

Lemma upcoming_loop_spec (today : date) (records : list Record_)
  (acc : list (string * date)) :
  Forall (schedulable today) records ->
  Py1.upcoming_loop today records acc
  = Ok (acc ++ flat_map (upcoming_entry today) records).
Proof.
  intros H. revert acc.
  induction H as [|r records Hr Hrs IH]; intros acc; simpl.
  - now rewrite app_nil_r.
  - rewrite (upcoming_step_spec today r acc Hr). cbn [obind].
    now rewrite IH, app_assoc.
Qed.

Lemma upcoming_entry_In (today : date) (r : Record_) (n : string) (d : date) :
  In (n, d) (upcoming_entry today r) <->
  exists b bd,
    birthday r = Some b /\ strptime_dmY (value b) = Ok bd
    /\ 0 <= days_until today bd <= 7
    /\ n = value (name r) /\ d = congratulation (occurrence today bd).
Proof.
  unfold upcoming_entry. split.
  - destruct (birthday r) as [b|]; [|contradiction].
    destruct (strptime_dmY (value b)) as [bd|e] eqn:Hp; [|contradiction].
    destruct ((0 <=? days_until today bd) && (days_until today bd <=? 7))
      eqn:E; [|contradiction].
    intros [H|[]]. inversion H; subst. exists b, bd.
    apply andb_true_iff in E. rewrite !Z.leb_le in E.
    repeat split; trivial; lia.
  - intros (b & bd & Hb & Hp & Hd & -> & ->). rewrite Hb, Hp.
    replace ((0 <=? days_until today bd) && (days_until today bd <=? 7))
      with true; [now left|].
    symmetry. apply andb_true_iff. rewrite !Z.leb_le. lia.
Qed.

(** C2, as stated, fails: with a birthday on 29 February 2000 in the
    registry, the call of 27 February 2025 returns no list at all. *)
Lemma upcoming_birthdays_no_result :
  Py1.get_upcoming_birthdays (mkdate 2025 2 27) february_book
  = Raise (ValueError "day is out of range for month").
Proof. reflexivity. Qed.

(** C2, amended: for every date [today] and every registry in which each
    stored birthday parses and its day and month exist as a date in the
    year of [today] and, when that date is strictly before [today], in the
    next year too, [get_upcoming_birthdays] returns, in registry order,
    one pair for exactly those records that have a birthday whose
    day and month, put on the year of [today] and advanced by one year
    when strictly before [today], lie from 0 to 7 days after [today]. The
    pair holds the name and that date, which is moved forward by
    [7 - weekday] days, onto a Monday, when it falls on a Saturday (5) or a
    Sunday (6), and is left alone otherwise. *)
Theorem get_upcoming_birthdays_spec (today : date) (book : AddressBook) :
  Forall (schedulable today) (dict_values book) ->
  Py1.get_upcoming_birthdays today book = Ok (upcoming_spec today book)
  /\ (forall n d,
        In (n, d) (upcoming_spec today book) <->
        exists r b bd,
          In r (dict_values book)
          /\ birthday r = Some b /\ strptime_dmY (value b) = Ok bd
          /\ 0 <= toordinal (occurrence today bd) - toordinal today <= 7
          /\ n = value (name r)
          /\ d = congratulation (occurrence today bd))
  /\ (forall r b bd,
        In r (dict_values book) ->
        birthday r = Some b -> strptime_dmY (value b) = Ok bd ->
        (5 <= weekday (occurrence today bd) ->
           toordinal (congratulation (occurrence today bd))
           = toordinal (occurrence today bd)
             + (7 - weekday (occurrence today bd))
           /\ weekday (congratulation (occurrence today bd)) = 0)
        /\ (weekday (occurrence today bd) < 5 ->
           congratulation (occurrence today bd) = occurrence today bd)).
Proof.
  intros Hs. split; [|split].
  - unfold Py1.get_upcoming_birthdays, upcoming_spec.
    now rewrite (upcoming_loop_spec today (dict_values book) [] Hs).
  - intros n d. unfold upcoming_spec. rewrite in_flat_map. split.
    + intros (r & Hr & Hin). apply upcoming_entry_In in Hin.
      destruct Hin as (b & bd & H). exists r, b, bd. tauto.
    + intros (r & b & bd & Hr & H). exists r. split; trivial.
      apply upcoming_entry_In. exists b, bd. tauto.
  - intros r b bd Hr Hb Hp. split.
    + intros Hw. apply congratulation_weekend; trivial.
      rewrite Forall_forall in Hs.
      destruct (Hs r Hr b Hb) as (bd' & Hp' & _ & Hocc).
      congruence.
    + apply congratulation_weekday.
Qed.

Lemma get_upcoming_birthdays_spec_witness :
  Py1.get_upcoming_birthdays (mkdate 2024 6 10) june_book
  = Ok [("Ann"%string, mkdate 2024 6 12); ("Bob"%string, mkdate 2024 6 17)].
Proof.
  refine (proj1 (get_upcoming_birthdays_spec (mkdate 2024 6 10) june_book _)).
  repeat constructor; intros b Hb; inversion Hb; subst;
    eexists; (split; [reflexivity|]); split; vm_compute;
    intuition discriminate.
Defined.

(** ** The text of a birthday *)

Lemma in_range_spec (lo hi c : ascii) :
  in_range lo hi c = true <-> digit lo <= digit c <= digit hi.
Proof.
  unfold in_range, digit. rewrite andb_true_iff, !Z.leb_le. lia.
Qed.

Lemma char_isdecimal_spec (c : ascii) :
  char_isdecimal c = true <-> 0 <= digit c <= 9.
Proof.
  unfold char_isdecimal, digit. cbv zeta.
  rewrite andb_true_iff, !Z.leb_le. lia.
Qed.

Lemma re_two_In (p1 p2 : ascii -> bool) (s r : string) (v : Z) :
  In (v, r) (re_two p1 p2 s) <->
  exists a b, s = String a (String b r) /\ p1 a = true /\ p2 b = true
              /\ v = 10 * digit a + digit b.
Proof.
  unfold re_two. split.
  - destruct s as [|a [|b r']]; try contradiction.
    destruct (p1 a) eqn:E1, (p2 b) eqn:E2; try contradiction.
    intros [H|[]]. inversion H; subst. now exists a, b.
  - intros (a & b & -> & H1 & H2 & ->). rewrite H1, H2. now left.
Qed.

Lemma re_one_In (p : ascii -> bool) (s r : string) (v : Z) :
  In (v, r) (re_one p s) <->
  exists a, s = String a r /\ p a = true /\ v = digit a.
Proof.
  unfold re_one. split.
  - destruct s as [|a r']; try contradiction.
    destruct (p a) eqn:E; try contradiction.
    intros [H|[]]. inversion H; subst. now exists a.
  - intros (a & -> & H1 & ->). rewrite H1. now left.
Qed.

Lemma re_space_one_In (p : ascii -> bool) (s r : string) (v : Z) :
  In (v, r) (re_space_one p s) <->
  exists a, s = String " " (String a r) /\ p a = true /\ v = digit a.
Proof.
  unfold re_space_one. split.
  - destruct s as [|a [|b r']]; try contradiction.
    destruct (Ascii.eqb_spec a " ") as [->|N]; try contradiction.
    destruct (p b) eqn:E; try contradiction.
    intros [H|[]]. inversion H; subst. now exists b.
  - intros (a & -> & H1 & ->). rewrite H1. now left.
Qed.

Ltac char_arith :=
  repeat match goal with
         | H : in_range _ _ _ = true |- _ => apply in_range_spec in H
         | H : char_isdecimal _ = true |- _ => apply char_isdecimal_spec in H
         | |- in_range _ _ _ = true => apply in_range_spec
         | |- char_isdecimal _ = true => apply char_isdecimal_spec
         end;
  repeat match goal with
         | H : context [digit (Ascii ?a ?b ?c ?d ?e ?f ?g ?h)] |- _ =>
             let v := eval vm_compute in (digit (Ascii a b c d e f g h)) in
             change (digit (Ascii a b c d e f g h)) with v in H
         | |- context [digit (Ascii ?a ?b ?c ?d ?e ?f ?g ?h)] =>
             let v := eval vm_compute in (digit (Ascii a b c d e f g h)) in
             change (digit (Ascii a b c d e f g h)) with v
         end;
  try lia.

Lemma re_d_In (s r : string) (d : Z) :
  In (d, r) (re_d s) <-> exists t, day_text t d /\ s = (t ++ r)%string.
Proof.
  unfold re_d. rewrite !in_app_iff, !re_two_In, re_one_In, re_space_one_In.
  split.
  - intros [H|[H|[H|[H|H]]]].
    + destruct H as (a & b & -> & H1 & H2 & ->).
      exists (String a (String b "")). split; [|reflexivity].
      constructor; char_arith.
    + destruct H as (a & b & -> & H1 & H2 & ->).
      exists (String a (String b "")). split; [|reflexivity].
      constructor; char_arith.
    + destruct H as (a & b & -> & H1 & H2 & ->).
      exists (String a (String b "")). split; [|reflexivity].
      constructor; char_arith.
    + destruct H as (a & -> & H1 & ->).
      exists (String a ""). split; [|reflexivity].
      constructor; char_arith.
    + destruct H as (a & -> & H1 & ->).
      exists (String " " (String a "")). split; [|reflexivity].
      constructor; char_arith.
  - intros (t & Ht & ->). destruct Ht as [a b Ha Hb Hv | a Ha Hv | a Ha Hv].
    + assert (C : digit a = 3 \/ 1 <= digit a <= 2 \/ digit a = 0)
        by char_arith.
      destruct C as [C|[C|C]].
      * left. exists a, b. repeat split; char_arith.
      * right; left. exists a, b. repeat split; char_arith.
      * right; right; left. exists a, b. repeat split; char_arith.
    + right; right; right; left. exists a. repeat split; char_arith.
    + right; right; right; right. exists a. repeat split; char_arith.
Qed.

Lemma re_m_In (s r : string) (m : Z) :
  In (m, r) (re_m s) <-> exists t, month_text t m /\ s = (t ++ r)%string.
Proof.
  unfold re_m. rewrite !in_app_iff, !re_two_In, re_one_In.
  split.
  - intros [H|[H|H]].
    + destruct H as (a & b & -> & H1 & H2 & ->).
      exists (String a (String b "")). split; [|reflexivity].
      constructor; char_arith.
    + destruct H as (a & b & -> & H1 & H2 & ->).
      exists (String a (String b "")). split; [|reflexivity].
      constructor; char_arith.
    + destruct H as (a & -> & H1 & ->).
      exists (String a ""). split; [|reflexivity].
      constructor; char_arith.
  - intros (t & Ht & ->). destruct Ht as [a b Ha Hb Hv | a Ha Hv].
    + assert (C : digit a = 1 \/ digit a = 0) by char_arith.
      destruct C as [C|C].
      * left. exists a, b. repeat split; char_arith.
      * right; left. exists a, b. repeat split; char_arith.
    + right; right. exists a. repeat split; char_arith.
Qed.

Lemma re_Y_In (s r : string) (y : Z) :
  In (y, r) (re_Y s) <-> exists t, year_text t y /\ s = (t ++ r)%string.
Proof.
  unfold re_Y. split.
  - destruct s as [|a [|b [|c [|d r']]]]; try contradiction.
    destruct (char_isdecimal a) eqn:Ea, (char_isdecimal b) eqn:Eb,
      (char_isdecimal c) eqn:Ec, (char_isdecimal d) eqn:Ed;
      try contradiction.
    intros [H|[]]. inversion H; subst.
    exists (String a (String b (String c (String d "")))).
    split; [now constructor | reflexivity].
  - intros (t & Ht & ->). destruct Ht as [a b c d Ha Hb Hc Hd].
    simpl. rewrite Ha, Hb, Hc, Hd. now left.
Qed.

Lemma re_dot_In (s r : string) :
  In r (re_dot s) <-> s = String "." r.
Proof.
  unfold re_dot. split.
  - destruct s as [|a r']; try contradiction.
    destruct (Ascii.eqb_spec a "."); try contradiction.
    intros [H|[]]. now subst.
  - intros ->. now left.
Qed.

Lemma re_dmY_In (s r : string) (y m d : Z) :
  In (y, m, d, r) (re_dmY s) <->
  exists td tm ty,
    day_text td d /\ month_text tm m /\ year_text ty y
    /\ s = (td ++ "." ++ tm ++ "." ++ ty ++ r)%string.
Proof.
  unfold re_dmY. rewrite in_flat_map. split.
  - intros ([d0 s1] & Hd & H). rewrite in_flat_map in H.
    destruct H as (s2 & Hdot1 & H). rewrite in_flat_map in H.
    destruct H as ([m0 s3] & Hm & H). rewrite in_flat_map in H.
    destruct H as (s4 & Hdot2 & H). rewrite in_map_iff in H.
    destruct H as ([y0 s5] & Heq & Hy). inversion Heq; subst.
    apply re_d_In in Hd. destruct Hd as (td & Htd & ->).
    apply re_dot_In in Hdot1. subst s1.
    apply re_m_In in Hm. destruct Hm as (tm & Htm & ->).
    apply re_dot_In in Hdot2. subst s3.
    apply re_Y_In in Hy. destruct Hy as (ty & Hty & ->).
    exists td, tm, ty. repeat split; trivial.
  - intros (td & tm & ty & Htd & Htm & Hty & ->).
    exists (d, ("." ++ tm ++ "." ++ ty ++ r)%string). split.
    { apply re_d_In. now exists td. }
    rewrite in_flat_map. exists (tm ++ "." ++ ty ++ r)%string. split.
    { now apply re_dot_In. }
    rewrite in_flat_map. exists (m, ("." ++ ty ++ r)%string). split.
    { apply re_m_In. now exists tm. }
    rewrite in_flat_map. exists (ty ++ r)%string. split.
    { now apply re_dot_In. }
    rewrite in_map_iff. exists (y, r). split; [reflexivity|].
    apply re_Y_In. now exists ty.
Qed.

Lemma decimal_not_dot (a : ascii) : char_isdecimal a = true -> a <> "."%char.
Proof. intros H ->. discriminate H. Qed.

Lemma day_text_no_dot (t : string) (d : Z) : day_text t d -> no_dot t.
Proof.
  intros [a b Ha Hb _ | a Ha _ | a Ha _]; repeat constructor;
    try (now apply decimal_not_dot); discriminate.
Qed.

Lemma month_text_no_dot (t : string) (m : Z) : month_text t m -> no_dot t.
Proof.
  intros [a b Ha Hb _ | a Ha _]; repeat constructor;
    now apply decimal_not_dot.
Qed.

Lemma split_at_dot (t t' x x' : string) :
  no_dot t -> no_dot t' ->
  (t ++ String "." x)%string = (t' ++ String "." x')%string ->
  t = t' /\ x = x'.
Proof.
  unfold no_dot. revert t'.
  induction t as [|c t IH]; intros [|c' t'] Ht Ht' H; simpl in *.
  - inversion H. now split.
  - inversion H; subst. inversion Ht'; subst. congruence.
  - inversion H; subst. inversion Ht; subst. congruence.
  - inversion H; subst. inversion Ht; inversion Ht'; subst.
    destruct (IH t') as [-> ->]; trivial. now split.
Qed.

Lemma day_text_fun (t : string) (d d' : Z) :
  day_text t d -> day_text t d' -> d = d'.
Proof.
  intros H H'. destruct H; inversion H'; subst; try reflexivity;
    match goal with
    | E : char_isdecimal " " = true |- _ => discriminate E
    end.
Qed.

Lemma month_text_fun (t : string) (m m' : Z) :
  month_text t m -> month_text t m' -> m = m'.
Proof.
  intros H H'. destruct H; inversion H'; subst; reflexivity.
Qed.

Lemma year_text_split (t t' r r' : string) (y y' : Z) :
  year_text t y -> year_text t' y' ->
  (t ++ r)%string = (t' ++ r')%string -> y = y' /\ r = r'.
Proof.
  intros H H'. destruct H; destruct H'. simpl. intros E.
  inversion E; subst. now split.
Qed.

Lemma re_dmY_unique (s : string) (p q : Z * Z * Z * string) :
  In p (re_dmY s) -> In q (re_dmY s) -> p = q.
Proof.
  destruct p as [[[y m] d] r], q as [[[y' m'] d'] r'].
  rewrite !re_dmY_In.
  intros (td & tm & ty & Htd & Htm & Hty & Hs)
         (td' & tm' & ty' & Htd' & Htm' & Hty' & Hs').
  rewrite Hs in Hs'. simpl in Hs'.
  apply split_at_dot in Hs'; eauto using day_text_no_dot.
  destruct Hs' as [-> Hs'].
  apply split_at_dot in Hs'; eauto using month_text_no_dot.
  destruct Hs' as [-> Hs'].
  destruct (year_text_split _ _ _ _ _ _ Hty Hty' Hs') as [-> ->].
  now rewrite (day_text_fun _ _ _ Htd Htd'), (month_text_fun _ _ _ Htm Htm').
Qed.

Lemma re_dmY_first (s : string) (p : Z * Z * Z * string) :
  In p (re_dmY s) -> exists l, re_dmY s = p :: l.
Proof.
  intros H. destruct (re_dmY s) as [|q l] eqn:E; [contradiction|].
  exists l. f_equal. apply (re_dmY_unique s); rewrite E; [now left | exact H].
Qed.

Lemma append_empty (s : string) : (s ++ "")%string = s.
Proof. induction s as [|c s IH]; simpl; [reflexivity | now rewrite IH]. Qed.

Lemma strptime_Ok (s : string) (x : date) :
  strptime_dmY s = Ok x <->
  dmY_text s (year x) (month x) (day x) /\ valid_date x.
Proof.
  unfold strptime_dmY, dmY_text. split.
  - destruct (re_dmY s) as [|[[[y m] d] [|c r]] l] eqn:E; try discriminate.
    intros H. apply date_new_Ok in H. destruct H as [-> Hv].
    split; [|exact Hv]. simpl.
    assert (Hin : In (y, m, d, ""%string) (re_dmY s)) by (rewrite E; now left).
    apply re_dmY_In in Hin.
    destruct Hin as (td & tm & ty & Htd & Htm & Hty & Hs).
    exists td, tm, ty. rewrite append_empty in Hs. tauto.
  - intros [(td & tm & ty & Htd & Htm & Hty & Hs) Hv].
    assert (Hin : In (year x, month x, day x, ""%string) (re_dmY s)).
    { apply re_dmY_In. exists td, tm, ty. rewrite append_empty. tauto. }
    destruct (re_dmY_first s _ Hin) as [l ->].
    destruct x as [y m d]. now apply date_new_valid.
Qed.

Lemma strptime_raises_ValueError (s : string) (e : exn) :
  strptime_dmY s = Raise e -> exists msg, e = ValueError msg.
Proof.
  unfold strptime_dmY.
  destruct (re_dmY s) as [|[[[y m] d] [|c r]] l].
  - intros H. inversion H. eexists; reflexivity.
  - intros H. destruct (date_new y m d) as [x|e'] eqn:E; [discriminate|].
    unfold date_new in E.
    repeat match type of E with
           | (if ?c then _ else _) = _ => destruct c
           end; inversion E; subst; inversion H; eexists; reflexivity.
  - intros H. inversion H. eexists; reflexivity.
Qed.

Lemma strptime_accepts (s : string) :
  (exists x, strptime_dmY s = Ok x) <-> birthday_text s.
Proof.
  unfold birthday_text. split.
  - intros [x H]. apply strptime_Ok in H. destruct x as [y m d].
    now exists y, m, d.
  - intros (y & m & d & Ht & Hv). exists (mkdate y m d).
    apply strptime_Ok. now split.
Qed.

Lemma days_in_month_le_31 (y m : Z) : 1 <= m <= 12 -> _days_in_month y m <= 31.
Proof.
  intros Hm. unfold _days_in_month.
  destruct (month_cases m Hm) as
    [->|[->|[->|[->|[->|[->|[->|[->|[->|[->|[->| ->]]]]]]]]]]];
    destruct (_is_leap y); vm_compute; discriminate.
Qed.





(** * Further properties *)

(** ** The registry as a dictionary *)

Lemma dict_get_del_other {V} (k k0 : string) (d : dict V) :
  k <> k0 -> dict_get k0 (dict_del k d) = dict_get k0 d.
Proof.
  intros Hk. induction d as [|[k' v] d IH]; simpl; [reflexivity|].
  destruct (String.eqb_spec k' k) as [E|N].
  - subst k'. destruct (String.eqb_spec k k0); [contradiction | reflexivity].
  - simpl. now rewrite IH.
Qed.

Lemma dict_get_In {V} (k : string) (v : V) (d : dict V) :
  dict_get k d = Some v -> In (k, v) d.
Proof.
  induction d as [|[k' v'] d IH]; simpl; [discriminate|].
  destruct (String.eqb_spec k' k) as [E|N].
  - intros H. inversion H; subst. now left.
  - intros H. right. now apply IH.
Qed.

Lemma dict_get_keys {V} (k : string) (d : dict V) :
  dict_get k d = None <-> ~ In k (map fst d).
Proof.
  induction d as [|[k' v'] d IH]; simpl.
  - tauto.
  - destruct (String.eqb_spec k' k) as [E|N].
    + split; [discriminate | tauto].
    + rewrite IH. tauto.
Qed.

Lemma dict_set_keys {V} (k : string) (v : V) (d : dict V) :
  map fst (dict_set k v d)
  = if dict_contains k d then map fst d else map fst d ++ [k].
Proof.
  unfold dict_contains. induction d as [|[k' v'] d IH]; simpl; [reflexivity|].
  destruct (String.eqb_spec k' k) as [E|N]; simpl; [reflexivity|].
  rewrite IH. now destruct (dict_get k d).
Qed.

Lemma dict_wf_set {V} (k : string) (v : V) (d : dict V) :
  dict_wf d -> dict_wf (dict_set k v d).
Proof.
  unfold dict_wf. intros H. rewrite dict_set_keys. unfold dict_contains.
  destruct (dict_get k d) eqn:E; [exact H|].
  apply dict_get_keys in E.
  apply NoDup_app; [exact H | repeat constructor; simpl; tauto |].
  intros x Hx [<-|[]]. contradiction.
Qed.

Lemma dict_del_incl {V} (k : string) (d : dict V) (x : string * V) :
  In x (dict_del k d) -> In x d.
Proof.
  induction d as [|[k' v'] d IH]; simpl; [tauto|].
  destruct (k' =? k)%string; simpl; tauto.
Qed.

Lemma dict_wf_del {V} (k : string) (d : dict V) :
  dict_wf d -> dict_wf (dict_del k d).
Proof.
  unfold dict_wf. induction d as [|[k' v'] d IH]; simpl; intros H; trivial.
  inversion H as [|? ? Hk Hd]; subst.
  destruct (k' =? k)%string; simpl; trivial.
  constructor; [|now apply IH].
  intros Hin. apply Hk. apply in_map_iff in Hin.
  destruct Hin as (x & Hx & Hin). apply in_map_iff. exists x.
  split; trivial. now apply (dict_del_incl k).
Qed.

Lemma dict_set_Forall {V} (P : string * V -> Prop) (k : string) (v : V)
  (d : dict V) :
  Forall P d -> (forall k', (k' =? k)%string = true -> P (k', v)) ->
  P (k, v) -> Forall P (dict_set k v d).
Proof.
  intros H Hk Hv. induction H as [|[k' v'] d Hx Hd IH]; simpl.
  - now repeat constructor.
  - destruct (k' =? k)%string eqn:E.
    + constructor; trivial. now apply Hk.
    + now constructor.
Qed.

Lemma dict_del_Forall {V} (P : string * V -> Prop) (k : string) (d : dict V) :
  Forall P d -> Forall P (dict_del k d).
Proof.
  intros H. rewrite Forall_forall in *. intros x Hx.
  apply H. now apply (dict_del_incl k).
Qed.

Lemma book_keyed_set (book : AddressBook) (r : Record_) :
  book_keyed book -> book_keyed (dict_set (value (name r)) r book).
Proof.
  intros [Hwf Hk]. split; [now apply dict_wf_set|].
  apply dict_set_Forall; trivial.
  intros k' E. apply String.eqb_eq in E. now subst.
Qed.

Lemma book_keyed_del (book : AddressBook) (k : string) :
  book_keyed book -> book_keyed (dict_del k book).
Proof.
  intros [Hwf Hk]. split; [now apply dict_wf_del | now apply dict_del_Forall].
Qed.

Lemma book_keyed_get (book : AddressBook) (k : string) (r : Record_) :
  book_keyed book -> dict_get k book = Some r -> value (name r) = k.
Proof.
  intros [_ Hk] Hg. apply dict_get_In in Hg.
  rewrite Forall_forall in Hk. exact (Hk _ Hg).
Qed.

(** X1: [add_record] of [1.py] stores the record under its name, taking
    the place of a record that was there under that name: a lookup of the
    name right after it gives the record itself, a lookup of any other
    name gives what it gave before, and the keys stay distinct. *)
Theorem Py1_add_record_find (book : AddressBook) (r : Record_) (k : string) :
  dict_wf book ->
  (Py1.add_record r ;;; Py1.find k) book
  = (Ok (if (value (name r) =? k)%string then Some r else dict_get k book),
     dict_set (value (name r)) r book)
  /\ dict_wf (dict_set (value (name r)) r book).
Proof.
  intros Hwf. split.
  - unfold Py1.add_record, Py1.find, bind, modify, get, ret.
    now rewrite dict_get_set.
  - now apply dict_wf_set.
Qed.

Lemma Py1_add_record_find_witness :
  (Py1.add_record leap_ann ;;; Py1.find "Ann") address_book
  = (Ok (Some leap_ann), leap_book)
  /\ dict_wf leap_book.
Proof.
  apply (Py1_add_record_find address_book leap_ann "Ann").
  repeat constructor. simpl. tauto.
Defined.

(** X2: [add_record] of [main.py] never replaces a record. Under a name
    that the registry holds it fails with the duplicate-name error and the
    registry is left as it was; under a new name it adds the record at
    the end, [search_record] then finds it, every other name is looked up
    as before, and the keys stay distinct. *)
Theorem PyMain_add_record_spec (book : AddressBook) (r : Record_) :
  dict_wf book ->
  (dict_contains (value (name r)) book = true ->
     PyMain.add_record r book
     = (Raise (ValueError "Контакт з таким іменем вже існує."), book))
  /\ (dict_contains (value (name r)) book = false ->
     PyMain.add_record r book = (Ok tt, book ++ [(value (name r), r)])
     /\ dict_wf (book ++ [(value (name r), r)])
     /\ forall k,
          PyMain.search_record k (book ++ [(value (name r), r)])
          = (Ok (if (value (name r) =? k)%string then Some r
                 else dict_get k book),
             book ++ [(value (name r), r)])).
Proof.
  intros Hwf. unfold PyMain.add_record, PyMain.search_record, bind, get,
    ret, raise, modify.
  split; intros Hc; rewrite Hc; [reflexivity|].
  assert (Hn : dict_get (value (name r)) book = None).
  { unfold dict_contains in Hc.
    now destruct (dict_get (value (name r)) book). }
  rewrite <- (dict_set_absent _ r _ Hn).
  split; [reflexivity|]. split; [now apply dict_wf_set|].
  intros k. now rewrite dict_get_set.
Qed.

Lemma PyMain_add_record_spec_witness :
  PyMain.add_record leap_ann address_book
  = (Raise (ValueError "Контакт з таким іменем вже існує."), address_book).
Proof.
  apply (proj1 (PyMain_add_record_spec address_book leap_ann
                  ltac:(repeat constructor; simpl; tauto))).
  reflexivity.
Defined.

(** X3: deleting a name touches no other entry. After [delete] of [1.py]
    and after a successful [delete_record] of [main.py], every other name
    is looked up as before, the name itself is absent, and the keys stay
    distinct. *)
Theorem delete_leaves_others (book : AddressBook) (k k0 : string) :
  dict_wf book -> k <> k0 ->
  (Py1.delete k ;;; Py1.find k0) book
  = (Ok (dict_get k0 book), snd (Py1.delete k book))
  /\ (dict_contains k book = true ->
      (PyMain.delete_record k ;;; PyMain.search_record k0) book
      = (Ok (dict_get k0 book), dict_del k book))
  /\ dict_get k (snd (Py1.delete k book)) = None
  /\ dict_wf (snd (Py1.delete k book)).
Proof.
  intros Hwf Hk.
  unfold Py1.delete, Py1.find, PyMain.delete_record, PyMain.search_record,
    bind, get, ret, raise, modify.
  unfold dict_contains.
  destruct (dict_get k book) as [r|] eqn:E; simpl.
  - rewrite (dict_get_del_other k k0 book Hk).
    repeat split; trivial; [now apply dict_get_del | now apply dict_wf_del].
  - repeat split; trivial. discriminate.
Qed.

Lemma delete_leaves_others_witness :
  (Py1.delete "Ann" ;;; Py1.find "Bob") june_book
  = (Ok (dict_get "Bob" june_book), snd (Py1.delete "Ann" june_book)).
Proof.
  refine (proj1 (delete_leaves_others june_book "Ann" "Bob" _ _)).
  - repeat constructor; simpl; intuition discriminate.
  - discriminate.
Defined.

(** ** Methods of a record, seen from the registry *)

Lemma on_record_eq {A} (k : string) (r : Record_) (m : M Record_ A)
  (book : AddressBook) :
  on_record k r m book = (fst (m r), dict_set k (snd (m r)) book).
Proof. unfold on_record. now destruct (m r). Qed.

Lemma Py1_add_phone_run (v : string) (r : Record_) :
  Py1.add_phone v r =
  match Py1.Phone_init v with
  | Ok p => (Ok tt, set_phones (phones r ++ [p]) r)
  | Raise e => (Raise e, r)
  end.
Proof.
  unfold Py1.add_phone, bind, call, modify.
  now destruct (Py1.Phone_init v).
Qed.

Lemma PyMain_add_phone_run (v : string) (r : Record_) :
  PyMain.add_phone v r =
  match PyMain.Phone_init v with
  | Ok p => (Ok tt, set_phones (phones r ++ [p]) r)
  | Raise e => (Raise e, r)
  end.
Proof.
  unfold PyMain.add_phone, bind, call, modify.
  now destruct (PyMain.Phone_init v).
Qed.

Lemma Py1_add_birthday_run (v : string) (r : Record_) :
  Py1.add_birthday v r =
  match Py1.Birthday_init v with
  | Ok b => (Ok tt, set_birthday (Some b) r)
  | Raise e => (Raise e, r)
  end.
Proof.
  unfold Py1.add_birthday, bind, call, modify.
  now destruct (Py1.Birthday_init v).
Qed.

Lemma Py1_edit_phone_run (v w : string) (r : Record_) :
  Py1.edit_phone v w r =
  match find_index v (phones r) with
  | None => (Raise (ValueError "Phone number not found"), r)
  | Some j => (Ok tt, set_phones (set_value_at j w (phones r)) r)
  end.
Proof.
  unfold Py1.edit_phone, bind, get. now rewrite Py1_edit_phone_from.
Qed.

Lemma PyMain_edit_phone_run (v w : string) (r : Record_) :
  PyMain.edit_phone v w r =
  match find_index v (phones r) with
  | None => (Raise (ValueError "Старий номер телефону не знайдено."), r)
  | Some j =>
      match PyMain.Phone_init w with
      | Ok fresh =>
          (Ok tt, set_phones (set_value_at j (value fresh) (phones r)) r)
      | Raise e => (Raise e, r)
      end
  end.
Proof.
  unfold PyMain.edit_phone, bind, get. now rewrite PyMain_edit_phone_from.
Qed.

Lemma PyMain_remove_phone_run (v : string) (r : Record_) :
  PyMain.remove_phone v r =
  match find_index v (phones r) with
  | None => (Raise (ValueError "Телефон не знайдено."), r)
  | Some j => (Ok tt, set_phones (remove_at j (phones r)) r)
  end.
Proof.
  unfold PyMain.remove_phone, bind, get. now rewrite PyMain_remove_phone_from.
Qed.

Lemma keeps_name_methods :
  (forall v, keeps_name (Py1.add_phone v))
  /\ (forall v w, keeps_name (Py1.edit_phone v w))
  /\ (forall v, keeps_name (Py1.remove_phone v))
  /\ (forall v, keeps_name (Py1.add_birthday v))
  /\ (forall v, keeps_name (PyMain.add_phone v))
  /\ (forall v w, keeps_name (PyMain.edit_phone v w))
  /\ (forall v, keeps_name (PyMain.remove_phone v)).
Proof.
  unfold keeps_name.
  repeat match goal with |- _ /\ _ => split end; intros.
  - rewrite Py1_add_phone_run. now destruct (Py1.Phone_init v).
  - rewrite Py1_edit_phone_run. now destruct (find_index v (phones r)).
  - now rewrite Py1_remove_phone_scan.
  - rewrite Py1_add_birthday_run. now destruct (Py1.Birthday_init v).
  - rewrite PyMain_add_phone_run. now destruct (PyMain.Phone_init v).
  - rewrite PyMain_edit_phone_run.
    destruct (find_index v (phones r)); trivial.
    now destruct (PyMain.Phone_init w).
  - rewrite PyMain_remove_phone_run. now destruct (find_index v (phones r)).
Qed.

Lemma Birthday_init_Ok (v : string) (b : Birthday) :
  Py1.Birthday_init v = Ok b \/ PyMain.Birthday_init v = Ok b ->
  b = mkField v /\ birthday_text v.
Proof.
  unfold Py1.Birthday_init, Py1.Birthday_validate, PyMain.Birthday_init.
  destruct (strptime_dmY v) as [x|e] eqn:E.
  - intros [H|H]; inversion H; split; trivial;
      apply strptime_accepts; now exists x.
  - destruct (strptime_raises_ValueError v e E) as [msg ->].
    intros [H|H]; discriminate.
Qed.

Lemma record_valid_phones (r : Record_) (l : list Phone) :
  record_valid r -> Forall (fun p => phone_rule (value p)) l ->
  record_valid (set_phones l r).
Proof. intros [Hp Hb] Hl. split; [exact Hl | exact Hb]. Qed.

Lemma keeps_valid_methods :
  (forall v, keeps_valid (Py1.add_phone v))
  /\ (forall v, keeps_valid (Py1.remove_phone v))
  /\ (forall v, keeps_valid (Py1.add_birthday v))
  /\ (forall v, keeps_valid (PyMain.add_phone v))
  /\ (forall v w, keeps_valid (PyMain.edit_phone v w))
  /\ (forall v, keeps_valid (PyMain.remove_phone v)).
Proof.
  unfold keeps_valid.
  repeat match goal with |- _ /\ _ => split end; intros.
  - destruct (Py1.add_phone v r) as [o r'] eqn:E. simpl.
    split; [|destruct H as [_ Hb];
             rewrite Py1_add_phone_run in E;
             destruct (Py1.Phone_init v); inversion E; subst; exact Hb].
    apply (Py1_keeps_phones_valid r r' o (proj1 H)). eauto.
  - destruct (Py1.remove_phone v r) as [o r'] eqn:E. simpl.
    split; [|destruct H as [_ Hb];
             rewrite Py1_remove_phone_scan in E; inversion E; subst;
             exact Hb].
    apply (Py1_keeps_phones_valid r r' o (proj1 H)). eauto.
  - rewrite Py1_add_birthday_run.
    destruct (Py1.Birthday_init v) as [b|e] eqn:E; simpl; trivial.
    destruct (Birthday_init_Ok v b (or_introl E)) as [-> Ht].
    split; [exact (proj1 H)|]. simpl. intros b0 Hb0. now inversion Hb0.
  - destruct (PyMain.add_phone v r) as [o r'] eqn:E. simpl.
    split; [|destruct H as [_ Hb];
             rewrite PyMain_add_phone_run in E;
             destruct (PyMain.Phone_init v); inversion E; subst; exact Hb].
    apply (PyMain_keeps_phones_valid r r' o (proj1 H)). eauto.
  - destruct (PyMain.edit_phone v w r) as [o r'] eqn:E. simpl.
    split; [|destruct H as [_ Hb];
             rewrite PyMain_edit_phone_run in E;
             destruct (find_index v (phones r));
             [destruct (PyMain.Phone_init w)|]; inversion E; subst;
             exact Hb].
    apply (PyMain_keeps_phones_valid r r' o (proj1 H)). eauto 6.
  - destruct (PyMain.remove_phone v r) as [o r'] eqn:E. simpl.
    split; [|destruct H as [_ Hb];
             rewrite PyMain_remove_phone_run in E;
             destruct (find_index v (phones r)); inversion E; subst;
             exact Hb].
    apply (PyMain_keeps_phones_valid r r' o (proj1 H)). eauto.
Qed.

(** A method call on a stored record keeps the registry keyed, and keeps
    its records valid when the method keeps a record valid. *)
Lemma on_record_keyed (k : string) (r : Record_) (m : M Record_ unit)
  (book : AddressBook) :
  keeps_name m -> book_keyed book -> dict_get k book = Some r ->
  book_keyed (snd (on_record k r m book)).
Proof.
  intros Hm Hk Hg. rewrite on_record_eq. simpl.
  pose proof (book_keyed_get book k r Hk Hg) as Hn.
  rewrite <- Hn, <- (Hm r). now apply book_keyed_set.
Qed.

Lemma records_valid_get (book : AddressBook) (k : string) (r : Record_) :
  records_valid book -> dict_get k book = Some r -> record_valid r.
Proof.
  intros Hv Hg. apply dict_get_In in Hg.
  unfold records_valid in Hv. rewrite Forall_forall in Hv.
  exact (Hv _ Hg).
Qed.

Lemma records_valid_set (book : AddressBook) (k : string) (r : Record_) :
  records_valid book -> record_valid r ->
  records_valid (dict_set k r book).
Proof.
  intros Hv Hr. apply dict_set_Forall; trivial.
Qed.

Lemma on_record_valid (k : string) (r : Record_) (m : M Record_ unit)
  (book : AddressBook) :
  keeps_valid m -> records_valid book -> dict_get k book = Some r ->
  records_valid (snd (on_record k r m book)).
Proof.
  intros Hm Hv Hg. rewrite on_record_eq. simpl.
  apply records_valid_set; trivial. apply Hm.
  now apply (records_valid_get book k).
Qed.

(** ** The commands of [1.py] *)

Lemma input_error_total (m : M AddressBook string) (book : AddressBook) :
  exists text, Py1.input_error m book = (Ok text, snd (m book)).
Proof.
  unfold Py1.input_error. destruct (m book) as [[s|[msg|msg]] b];
    eexists; reflexivity.
Qed.

Lemma input_error_all_total (c : Cmd string) (book : AddressBook) :
  exists text, Py1.input_error_all c book = (Ok text, snd (c book)).
Proof.
  unfold Py1.input_error_all.
  destruct (c book) as [[s|[[msg|msg]|k|msg]] b]; eexists; reflexivity.
Qed.

(** On a command that raises no [KeyError] the two readings of the
    decorator agree. *)
Lemma input_error_all_lift (m : M AddressBook string) (book : AddressBook) :
  Py1.input_error_all (lift m) book = Py1.input_error m book.
Proof.
  unfold Py1.input_error_all, Py1.input_error, lift.
  now destruct (m book) as [[s|[msg|msg]] b].
Qed.

(** What each command does to the registry. *)
Lemma add_contact_book (args : list string) (book : AddressBook) :
  snd (Py1.add_contact_body args book) = book
  \/ exists who phone p,
       args = [who; phone] /\ Py1.Phone_init phone = Ok p
       /\ ((exists r, dict_get who book = Some r
            /\ snd (Py1.add_contact_body args book)
               = dict_set who (set_phones (phones r ++ [p]) r) book)
           \/ (dict_get who book = None
               /\ snd (Py1.add_contact_body args book)
                  = dict_set who (mkRecord (mkField who) [p] None) book)).
Proof.
  destruct args as [|who [|phone [|x args]]]; try (now left).
  unfold Py1.add_contact_body, Py1.find, Py1.add_record, bind, get, ret,
    modify, on_local.
  destruct (dict_get who book) as [r|] eqn:E.
  - rewrite on_record_eq, Py1_add_phone_run.
    destruct (Py1.Phone_init phone) as [p|e] eqn:Ep; simpl.
    + right. exists who, phone, p. split; [reflexivity|].
      split; [exact Ep|]. left. now exists r.
    + left. now apply dict_set_same.
  - rewrite Py1_add_phone_run.
    destruct (Py1.Phone_init phone) as [p|e] eqn:Ep; simpl.
    + right. exists who, phone, p. split; [reflexivity|].
      split; [exact Ep|]. now right.
    + now left.
Qed.

Lemma change_contact_book (args : list string) (book : AddressBook) :
  snd (Py1.change_contact_body args book) = book
  \/ exists who v w r,
       args = [who; v; w] /\ dict_get who book = Some r
       /\ snd (Py1.change_contact_body args book)
          = snd (on_record who r (Py1.edit_phone v w) book).
Proof.
  destruct args as [|who [|v [|w [|x args]]]]; try (now left).
  unfold Py1.change_contact_body, Py1.find, cmd_bind, lift, cmd_raise,
    bind, get, ret.
  destruct (dict_get who book) as [r|] eqn:E; [|now left].
  right. exists who, v, w, r. split; [reflexivity|]. split; [exact E|].
  now destruct (on_record who r (Py1.edit_phone v w) book) as [[[]|e] b].
Qed.

Lemma cmd_add_birthday_book (args : list string) (book : AddressBook) :
  snd (Py1.cmd_add_birthday_body args book) = book
  \/ exists who v r,
       args = [who; v] /\ dict_get who book = Some r
       /\ snd (Py1.cmd_add_birthday_body args book)
          = snd (on_record who r (Py1.add_birthday v) book).
Proof.
  destruct args as [|who [|v [|x args]]]; try (now left).
  unfold Py1.cmd_add_birthday_body, Py1.find, cmd_bind, lift, cmd_raise,
    bind, get, ret.
  destruct (dict_get who book) as [r|] eqn:E; [|now left].
  right. exists who, v, r. split; [reflexivity|]. split; [exact E|].
  now destruct (on_record who r (Py1.add_birthday v) book) as [[[]|e] b].
Qed.

Lemma show_phone_book (args : list string) (book : AddressBook) :
  snd (Py1.show_phone_body args book) = book.
Proof.
  destruct args as [|who [|x args]]; try reflexivity.
  unfold Py1.show_phone_body, Py1.find, cmd_bind, lift, cmd_raise, bind,
    get, ret.
  now destruct (dict_get who book).
Qed.

Lemma show_birthday_book (args : list string) (book : AddressBook) :
  snd (Py1.show_birthday_body args book) = book.
Proof.
  destruct args as [|who [|x args]]; try reflexivity.
  unfold Py1.show_birthday_body, Py1.find, cmd_bind, lift, cmd_raise, bind,
    get, ret.
  destruct (dict_get who book) as [r|]; [|reflexivity].
  now destruct (birthday r).
Qed.

Lemma show_all_book (book : AddressBook) :
  snd (Py1.show_all book) = book.
Proof. reflexivity. Qed.

Lemma birthdays_book (f : Z -> string) (today : date) (book : AddressBook) :
  snd (Py1.birthdays f today book) = book.
Proof.
  unfold Py1.birthdays, Py1.input_error_all, cmd_bind, lift, call, get.
  destruct (Py1.get_upcoming_birthdays today book) as [[|x l]|[msg|msg]];
    reflexivity.
Qed.

Lemma main_turn_leaving (f : Z -> string) (os : option string)
  (today : date) (line : string) (book : AddressBook) (command : string)
  (args : list string) :
  Py1.parse_input line = Ok (command, args) ->
  command = "close"%string \/ command = "exit"%string ->
  Py1.main_turn f os today line book
  = (match os with
     | Some msg => Raises (OSError msg)
     | None => Returns ("Good bye!"%string, false)
     end, book).
Proof.
  intros Hp Hc. unfold Py1.main_turn, cmd_bind, lift, call. rewrite Hp.
  destruct Hc as [-> | ->]; destruct os; reflexivity.
Qed.

Lemma main_turn_parsed (f : Z -> string) (os : option string)
  (today : date) (line : string) (book : AddressBook) (command : string)
  (args : list string) :
  Py1.parse_input line = Ok (command, args) ->
  command <> "close"%string -> command <> "exit"%string ->
  exists text,
    Py1.main_turn f os today line book
    = (Returns (text, true), turn_book command args book).
Proof.
  intros Hp N1 N2. unfold Py1.main_turn, cmd_bind, lift, call, ret.
  rewrite Hp. unfold turn_book.
  destruct (String.eqb_spec command "close"); [contradiction|].
  destruct (String.eqb_spec command "exit"); [contradiction|].
  cbn [orb].
  destruct (String.eqb_spec command "hello") as [->|N3];
    [eexists; reflexivity|].
  destruct (String.eqb_spec command "add") as [->|N4].
  { unfold Py1.add_contact.
    destruct (input_error_total (Py1.add_contact_body args) book) as [t ->].
    eexists; reflexivity. }
  destruct (String.eqb_spec command "change") as [->|N5].
  { unfold Py1.change_contact.
    destruct (input_error_all_total (Py1.change_contact_body args) book)
      as [t ->].
    eexists; reflexivity. }
  destruct (String.eqb_spec command "phone") as [->|N6].
  { unfold Py1.show_phone.
    destruct (input_error_all_total (Py1.show_phone_body args) book)
      as [t ->].
    rewrite show_phone_book. eexists; reflexivity. }
  destruct (String.eqb_spec command "all") as [->|N7].
  { destruct (Py1.show_all book) as [o b] eqn:E.
    pose proof (show_all_book book) as Hb. rewrite E in Hb. simpl in Hb.
    subst b. unfold Py1.show_all in E.
    match type of E with
    | Py1.input_error_all ?c _ = _ =>
        destruct (input_error_all_total c book) as [t Ht]
    end.
    rewrite Ht in E. inversion E. eexists; reflexivity. }
  destruct (String.eqb_spec command "add-birthday") as [->|N8].
  { unfold Py1.cmd_add_birthday.
    destruct (input_error_all_total (Py1.cmd_add_birthday_body args) book)
      as [t ->].
    eexists; reflexivity. }
  destruct (String.eqb_spec command "show-birthday") as [->|N9].
  { unfold Py1.show_birthday.
    destruct (input_error_all_total (Py1.show_birthday_body args) book)
      as [t ->].
    rewrite show_birthday_book. eexists; reflexivity. }
  destruct (String.eqb_spec command "birthdays") as [->|N10].
  { destruct (Py1.birthdays f today book) as [o b] eqn:E.
    pose proof (birthdays_book f today book) as Hb. rewrite E in Hb.
    simpl in Hb. subst b. unfold Py1.birthdays in E.
    match type of E with
    | Py1.input_error_all ?c _ = _ =>
        destruct (input_error_all_total c book) as [t Ht]
    end.
    rewrite Ht in E. inversion E. eexists; reflexivity. }
  eexists; reflexivity.
Qed.

(** The registry after a turn, whatever the turn prints or raises. *)
Lemma main_turn_book (f : Z -> string) (os : option string)
  (today : date) (line : string) (book : AddressBook) (command : string)
  (args : list string) :
  Py1.parse_input line = Ok (command, args) ->
  snd (Py1.main_turn f os today line book) = turn_book command args book.
Proof.
  intros Hp.
  destruct (String.eqb_spec command "close") as [E1|N1].
  { rewrite (main_turn_leaving f os today line book command args Hp
               (or_introl E1)).
    now subst command. }
  destruct (String.eqb_spec command "exit") as [E2|N2].
  { rewrite (main_turn_leaving f os today line book command args Hp
               (or_intror E2)).
    now subst command. }
  now destruct (main_turn_parsed f os today line book command args Hp N1 N2)
    as [t ->].
Qed.

(** ** Reading a command line *)

Lemma findall_from_nil (tok s : string) :
  findall_from tok s = [] <-> tok = EmptyString /\ blank s.
Proof.
  unfold blank. revert tok. induction s as [|c s IH]; intros tok; simpl.
  - destruct tok; split; try discriminate; try tauto.
    intros [H _]. discriminate.
  - destruct (char_isspace c); simpl.
    + destruct tok.
      * rewrite IH. tauto.
      * split; [discriminate|]. intros [H _]. discriminate.
    + rewrite IH. split; [|intros [_ H]; discriminate].
      intros [H _]. destruct tok; discriminate.
Qed.

Lemma parse_input_blank (line : string) :
  blank line ->
  Py1.parse_input line
  = Raise (ValueError
      "not enough values to unpack (expected at least 1, got 0)").
Proof.
  intros H. unfold Py1.parse_input, re_findall_nonspace.
  now rewrite (proj2 (findall_from_nil EmptyString line) (conj eq_refl H)).
Qed.

Lemma parse_input_not_blank (line : string) :
  ~ blank line -> exists command args, Py1.parse_input line = Ok (command, args).
Proof.
  intros H. unfold Py1.parse_input, re_findall_nonspace.
  destruct (findall_from EmptyString line) as [|cmd args] eqn:E.
  - apply findall_from_nil in E. tauto.
  - eexists; eexists; reflexivity.
Qed.

Lemma blank_dec (s : string) : blank s \/ ~ blank s.
Proof. unfold blank. destruct (str_all char_isspace s); auto. Qed.

Lemma nospace_app (s t : string) :
  nospace s -> nospace t -> nospace (s ++ t).
Proof.
  unfold nospace. induction s as [|c s IH]; simpl; trivial.
  intros Hs Ht. apply andb_true_iff in Hs. destruct Hs as [Hc Hs].
  rewrite Hc. simpl. now apply IH.
Qed.

Lemma findall_from_words (tok s : string) :
  nospace tok -> Forall word (findall_from tok s).
Proof.
  revert tok. induction s as [|c s IH]; intros tok Ht; simpl.
  - destruct tok; repeat constructor; trivial. discriminate.
  - destruct (char_isspace c) eqn:Ec.
    + destruct tok.
      * now apply IH.
      * constructor; [split; [discriminate | exact Ht]|]. now apply IH.
    + apply IH. apply nospace_app; trivial.
      unfold nospace. simpl. now rewrite Ec.
Qed.

Lemma str_append_assoc (s t u : string) :
  ((s ++ t) ++ u)%string = (s ++ (t ++ u))%string.
Proof. induction s as [|c s IH]; simpl; [reflexivity | now rewrite IH]. Qed.

Lemma findall_from_word (tok w rest : string) :
  nospace w ->
  findall_from tok (w ++ rest) = findall_from (tok ++ w) rest.
Proof.
  unfold nospace. revert tok. induction w as [|c w IH]; intros tok Hw; simpl.
  - now rewrite append_empty.
  - simpl in Hw. apply andb_true_iff in Hw. destruct Hw as [Hc Hw].
    apply negb_true_iff in Hc. rewrite Hc, IH by assumption.
    f_equal. now rewrite str_append_assoc.
Qed.

Lemma str_join_two (sep x y : string) (l : list string) :
  str_join sep (x :: y :: l) = (x ++ sep ++ str_join sep (y :: l))%string.
Proof. reflexivity. Qed.

Lemma findall_from_space (tok rest : string) :
  tok <> EmptyString ->
  findall_from tok (String " " rest) = tok :: findall_from EmptyString rest.
Proof. destruct tok; [contradiction | reflexivity]. Qed.

Lemma findall_join (ws : list string) :
  Forall word ws -> re_findall_nonspace (str_join " " ws) = ws.
Proof.
  unfold re_findall_nonspace.
  induction 1 as [|w ws [Hne Hw] Hws IH]; [reflexivity|].
  destruct ws as [|w' ws].
  - cbn [str_join]. rewrite <- (append_empty w) at 1.
    rewrite findall_from_word by exact Hw.
    simpl. destruct w; [contradiction | reflexivity].
  - rewrite str_join_two, findall_from_word by exact Hw.
    change (" " ++ str_join " " (w' :: ws))%string
      with (String " " (str_join " " (w' :: ws))).
    rewrite findall_from_space by exact Hne. now rewrite IH.
Qed.

Lemma str_lstrip_word (w : string) : nospace w -> str_lstrip w = w.
Proof.
  unfold nospace. destruct w as [|c w]; simpl; trivial.
  intros H. apply andb_true_iff in H. destruct H as [Hc _].
  apply negb_true_iff in Hc. now rewrite Hc.
Qed.

Lemma str_rstrip_word (w : string) : nospace w -> str_rstrip w = w.
Proof.
  unfold nospace. induction w as [|c w IH]; simpl; trivial.
  intros H. apply andb_true_iff in H. destruct H as [Hc Hw].
  apply negb_true_iff in Hc. rewrite (IH Hw), Hc. now destruct w.
Qed.

Lemma str_strip_word (w : string) : nospace w -> str_strip w = w.
Proof.
  intros H. unfold str_strip. rewrite str_lstrip_word by exact H.
  now apply str_rstrip_word.
Qed.

Lemma char_lower_facts (c : ascii) :
  char_lower (char_lower c) = char_lower c
  /\ char_isspace (char_lower c) = char_isspace c.
Proof.
  destruct c as [[] [] [] [] [] [] [] []]; split; reflexivity.
Qed.

Lemma str_lower_facts (s : string) :
  str_lower (str_lower s) = str_lower s
  /\ (word s -> word (str_lower s)).
Proof.
  split.
  - induction s as [|c s IH]; simpl; trivial.
    now rewrite IH, (proj1 (char_lower_facts c)).
  - intros [Hne Hs]. split; [destruct s; [contradiction | discriminate]|].
    clear Hne. induction s as [|c s IH]; simpl in *; trivial.
    apply andb_true_iff in Hs. destruct Hs as [Hc Hs].
    rewrite (proj2 (char_lower_facts c)), Hc. simpl. now apply IH.
Qed.

(** X4: a command line made of words (strings without white space, not
    empty) joined by single spaces is read back as those words:
    [parse_input] returns the first word in lower case as the command and
    the other words, unchanged, as the arguments. *)
Theorem parse_input_join (command : string) (args : list string) :
  Forall word (command :: args) ->
  Py1.parse_input (str_join " " (command :: args))
  = Ok (str_lower command, args).
Proof.
  intros H. unfold Py1.parse_input. rewrite (findall_join _ H).
  inversion H as [|? ? [_ Hc] _]; subst.
  now rewrite (str_strip_word command Hc).
Qed.

Lemma parse_input_join_witness :
  Py1.parse_input (str_join " " ["ADD"; "Ann"; "1112223330"]%string)
  = Ok ("add"%string, ["Ann"; "1112223330"]%string).
Proof.
  apply (parse_input_join "ADD" ["Ann"; "1112223330"]%string).
  repeat constructor; discriminate.
Defined.

(** X5: whatever the line, what [parse_input] returns is clean: the command
    is a word in lower case (so [strip] had nothing to strip and a second
    [lower] changes nothing), and every argument is a word. *)
Theorem parse_input_words (line command : string) (args : list string) :
  Py1.parse_input line = Ok (command, args) ->
  word command /\ str_lower command = command /\ Forall word args.
Proof.
  unfold Py1.parse_input, re_findall_nonspace.
  pose proof (findall_from_words EmptyString line eq_refl) as Hw.
  destruct (findall_from EmptyString line) as [|cmd rest]; [discriminate|].
  intros H. inversion H; subst. inversion Hw as [|? ? Hc Hr]; subst.
  rewrite (str_strip_word cmd (proj2 Hc)).
  split; [now apply str_lower_facts|]. split; [|exact Hr].
  apply str_lower_facts.
Qed.

Lemma parse_input_words_witness :
  word "add" /\ str_lower "add" = "add"%string
  /\ Forall word ["Ann"; "1112223330"]%string.
Proof.
  apply (parse_input_words "  ADD Ann   1112223330 ").
  reflexivity.
Defined.

(** ** A turn of the loop of [1.py] *)

Lemma main_turn_blank_line (f : Z -> string) (os : option string)
  (today : date) (line : string) (book : AddressBook) :
  blank line ->
  Py1.main_turn f os today line book
  = (Raises (Builtin (ValueError
       "not enough values to unpack (expected at least 1, got 0)")), book).
Proof.
  intros H. unfold Py1.main_turn, cmd_bind, lift, call.
  now rewrite (parse_input_blank line H).
Qed.

Lemma turn_book_keyed (command : string) (args : list string)
  (book : AddressBook) :
  book_keyed book -> book_keyed (turn_book command args book).
Proof.
  intros Hk. unfold turn_book.
  destruct (command =? "add")%string.
  { destruct (add_contact_book args book)
      as [->|(who & phone & p & _ & _ & [(r & Hg & ->)|(Hg & ->)])]; trivial.
    - pose proof (book_keyed_get book who r Hk Hg) as Hn.
      rewrite <- Hn.
      apply (book_keyed_set book (set_phones (phones r ++ [p]) r) Hk).
    - apply (book_keyed_set book (mkRecord (mkField who) [p] None) Hk). }
  destruct (command =? "change")%string.
  { destruct (change_contact_book args book)
      as [->|(who & v & w & r & _ & Hg & ->)]; trivial.
    apply on_record_keyed; trivial. apply keeps_name_methods. }
  destruct (command =? "add-birthday")%string; trivial.
  destruct (cmd_add_birthday_book args book)
    as [->|(who & v & r & _ & Hg & ->)]; trivial.
  apply on_record_keyed; trivial. apply keeps_name_methods.
Qed.

Lemma Py1_Phone_init_Ok (v : string) (p : Phone) :
  Py1.Phone_init v = Ok p -> p = mkField v /\ phone_rule v.
Proof.
  rewrite Py1_Phone_init_validate.
  destruct (Py1.Phone_validate v) eqn:E; [|discriminate].
  intros H. inversion H. split; trivial. now apply Phone_validate_rule.
Qed.

Lemma turn_book_valid (command : string) (args : list string)
  (book : AddressBook) :
  command <> "change"%string ->
  records_valid book -> records_valid (turn_book command args book).
Proof.
  intros Hc Hv. unfold turn_book.
  destruct (command =? "add")%string.
  { destruct (add_contact_book args book)
      as [->|(who & phone & p & _ & Hp & [(r & Hg & ->)|(Hg & ->)])]; trivial.
    - apply records_valid_set; trivial.
      pose proof (records_valid_get book who r Hv Hg) as Hr.
      pose proof (proj1 keeps_valid_methods phone r Hr) as H.
      rewrite Py1_add_phone_run, Hp in H. exact H.
    - apply records_valid_set; trivial.
      destruct (Py1_Phone_init_Ok phone p Hp) as [-> Hr].
      split; [|discriminate].
      unfold phones_valid. simpl. constructor; [exact Hr | constructor]. }
  destruct (String.eqb_spec command "change"); [contradiction|].
  destruct (command =? "add-birthday")%string; trivial.
  destruct (cmd_add_birthday_book args book)
    as [->|(who & v & r & _ & Hg & ->)]; trivial.
  apply on_record_valid; trivial. apply keeps_valid_methods.
Qed.

(** X6: the outcomes of a turn of the loop of [1.py]. A line without a
    visible character makes the turn raise the [ValueError] of the
    unpacking in [parse_input], which nothing catches; every other line
    has a command. On [close] and [exit] the registry is written to its
    file: when the operating system refuses, the [OSError] is not caught
    either and ends the program; otherwise the turn prints [Good bye!]
    and the loop ends. On every other command the turn prints a text and
    the loop goes on, no command letting an exception through. In all
    of these only the last can change the registry. *)
Theorem main_turn_outcomes (f : Z -> string) (os : option string)
  (today : date) (line : string) (book : AddressBook) :
  (blank line ->
     Py1.main_turn f os today line book
     = (Raises (Builtin (ValueError
          "not enough values to unpack (expected at least 1, got 0)")),
        book))
  /\ (~ blank line ->
      exists command args, Py1.parse_input line = Ok (command, args))
  /\ (forall command args,
        Py1.parse_input line = Ok (command, args) ->
        (command = "close"%string \/ command = "exit"%string ->
           (forall msg, os = Some msg ->
              Py1.main_turn f os today line book
              = (Raises (OSError msg), book))
           /\ (os = None ->
               Py1.main_turn f os today line book
               = (Returns ("Good bye!"%string, false), book)))
        /\ (command <> "close"%string -> command <> "exit"%string ->
            exists text,
              Py1.main_turn f os today line book
              = (Returns (text, true),
                 snd (Py1.main_turn f os today line book)))).
Proof.
  split; [apply main_turn_blank_line|].
  split; [apply parse_input_not_blank|].
  intros c a Hp. split.
  - intros Hc. rewrite (main_turn_leaving f os today line book c a Hp Hc).
    split; [intros msg ->|intros ->]; reflexivity.
  - intros N1 N2.
    destruct (main_turn_parsed f os today line book c a Hp N1 N2) as [t Ht].
    exists t. now rewrite Ht.
Qed.

Lemma main_turn_outcomes_witness :
  Py1.main_turn (fun _ => EmptyString)
    (Some "[Errno 13] Permission denied: 'address_book.pkl'"%string)
    (mkdate 2024 6 10) " Exit " address_book
  = (Raises (OSError "[Errno 13] Permission denied: 'address_book.pkl'"),
     address_book).
Proof.
  refine (proj1 (proj1 (proj2 (proj2 (main_turn_outcomes
            (fun _ => EmptyString)
            (Some "[Errno 13] Permission denied: 'address_book.pkl'"%string)
            (mkdate 2024 6 10) " Exit " address_book))
            "exit"%string [] _) _) _ _).
  - reflexivity.
  - now right.
  - reflexivity.
Defined.

(** X7: only [add], [change] and [add-birthday] write to the registry: a
    turn of the loop on a line whose command is any other word leaves the
    registry exactly as it was, and so does a turn that raises. *)
Theorem main_turn_read_only (f : Z -> string) (os : option string)
  (today : date) (line : string) (book : AddressBook) :
  (forall command args,
     Py1.parse_input line = Ok (command, args) ->
     command <> "add"%string /\ command <> "change"%string
     /\ command <> "add-birthday"%string) ->
  snd (Py1.main_turn f os today line book) = book.
Proof.
  intros H. destruct (blank_dec line) as [Hb|Hb].
  - now rewrite main_turn_blank_line.
  - destruct (parse_input_not_blank line Hb) as (c & a & Hp).
    rewrite (main_turn_book f os today line book c a Hp).
    destruct (H c a Hp) as (H1 & H2 & H3). unfold turn_book.
    destruct (String.eqb_spec c "add"); [contradiction|].
    destruct (String.eqb_spec c "change"); [contradiction|].
    destruct (String.eqb_spec c "add-birthday"); [contradiction|].
    reflexivity.
Qed.

Lemma main_turn_read_only_witness :
  snd (Py1.main_turn (fun _ => EmptyString) None (mkdate 2024 6 10)
         "birthdays" leap_book) = leap_book.
Proof.
  apply main_turn_read_only.
  intros command args H. inversion H. repeat split; discriminate.
Defined.

(** X8: every turn of the loop of [1.py], whatever the line, keeps the
    registry keyed: the keys stay distinct and every record stays stored
    under its own name. *)
Theorem main_turn_keeps_keyed (f : Z -> string) (os : option string)
  (today : date) (line : string) (book : AddressBook) :
  book_keyed book ->
  book_keyed (snd (Py1.main_turn f os today line book)).
Proof.
  intros Hk. destruct (blank_dec line) as [Hb|Hb].
  - now rewrite main_turn_blank_line.
  - destruct (parse_input_not_blank line Hb) as (c & a & Hp).
    rewrite (main_turn_book f os today line book c a Hp).
    now apply turn_book_keyed.
Qed.

Lemma main_turn_keeps_keyed_witness :
  book_keyed (snd (Py1.main_turn (fun _ => EmptyString) None
                     (mkdate 2024 6 10) "add Bob 4445556660"
                     address_book)).
Proof.
  apply main_turn_keeps_keyed.
  split; repeat constructor. simpl. tauto.
Defined.

(** X9: every turn of the loop of [1.py] whose command is not [change]
    keeps the fields of the registry valid: if every stored phone
    satisfies the phone rule and every stored birthday is a text that
    [Birthday] accepts before the turn, so it is after. *)
Theorem main_turn_keeps_valid (f : Z -> string) (os : option string)
  (today : date) (line : string) (book : AddressBook) :
  records_valid book ->
  (forall command args,
     Py1.parse_input line = Ok (command, args) ->
     command <> "change"%string) ->
  records_valid (snd (Py1.main_turn f os today line book)).
Proof.
  intros Hv H. destruct (blank_dec line) as [Hb|Hb].
  - now rewrite main_turn_blank_line.
  - destruct (parse_input_not_blank line Hb) as (c & a & Hp).
    rewrite (main_turn_book f os today line book c a Hp).
    apply turn_book_valid; trivial. exact (H c a Hp).
Qed.

Lemma main_turn_keeps_valid_witness :
  records_valid (snd (Py1.main_turn (fun _ => EmptyString) None
                        (mkdate 2024 6 10) "add-birthday Ann 1.2.2024"
                        address_book)).
Proof.
  apply main_turn_keeps_valid.
  - repeat constructor. intros b Hb. discriminate Hb.
  - intros command args H. inversion H. discriminate.
Defined.

(** ** [change_contact], [show_phone], the birthday commands *)

Lemma Py1_Birthday_init_text (v : string) :
  (birthday_text v -> Py1.Birthday_init v = Ok (mkField v))
  /\ (~ birthday_text v ->
      Py1.Birthday_init v
      = Raise (ValueError "Invalid date format. Use DD.MM.YYYY")).
Proof.
  unfold Py1.Birthday_init, Py1.Birthday_validate. split; intros H.
  - apply strptime_accepts in H. now destruct H as [x ->].
  - destruct (strptime_dmY v) as [x|e] eqn:E.
    + exfalso. apply H. apply strptime_accepts. now exists x.
    + now destruct (strptime_raises_ValueError v e E) as [msg ->].
Qed.

Lemma repr_char_plain (c : ascii) :
  char_plain c = true -> repr_char "039" c = String c EmptyString.
Proof.
  destruct c as [[] [] [] [] [] [] [] []]; vm_compute;
    intros H; try reflexivity; discriminate H.
Qed.

Lemma plain_no_quote (s : string) :
  plain s -> str_contains "039" s = false.
Proof.
  unfold plain. induction s as [|c s IH]; simpl; [reflexivity|].
  intros H. apply andb_true_iff in H. destruct H as [Hc Hs].
  rewrite (IH Hs), orb_false_r.
  destruct c as [[] [] [] [] [] [] [] []]; vm_compute in Hc |- *;
    try reflexivity; discriminate Hc.
Qed.

Lemma repr_body_plain (s : string) :
  plain s -> repr_body "039" s = s.
Proof.
  unfold plain. induction s as [|c s IH]; simpl; [reflexivity|].
  intros H. apply andb_true_iff in H. destruct H as [Hc Hs].
  now rewrite (repr_char_plain c Hc), (IH Hs).
Qed.

Lemma repr_str_plain (s : string) :
  plain s -> repr_str s = ("'" ++ s ++ "'")%string.
Proof.
  intros H. unfold repr_str. rewrite (plain_no_quote s H).
  cbn [andb]. cbv zeta. now rewrite (repr_body_plain s H).
Qed.

(** X10: [change_contact] of [1.py] on a name, an old and a new phone
    answers with a text and never raises. For a name that the registry
    does not hold, the text is [Contact <repr of the name> not found.],
    which for a name of printable ASCII characters without quote and
    backslash is the name between single quotes, and nothing changes. For
    a name that it holds (the name then has a first cell in the
    registry): when the record is without the old phone the text is
    [Phone number not found] and nothing changes; otherwise it is
    [Phone updated.], the first phone equal to the old one carries the new
    value, the record keeps its place, its name, its other phones and its
    birthday, the other records are as before, and [find] of the name
    then returns the record with the new value. *)
Theorem change_contact_spec (book : AddressBook) (who v w : string) :
  (dict_get who book = None ->
     Py1.change_contact [who; v; w] book
     = (Ok ("Contact " ++ repr_str who ++ " not found.")%string, book)
     /\ (plain who ->
         Py1.change_contact [who; v; w] book
         = (Ok ("Contact '" ++ who ++ "' not found.")%string, book)))
  /\ (forall r, dict_get who book = Some r ->
      exists before after,
        book = before ++ (who, r) :: after /\ ~ In who (map fst before))
  /\ (forall before r after,
        book = before ++ (who, r) :: after ->
        ~ In who (map fst before) ->
        (Forall (fun q => value q <> v) (phones r) ->
           Py1.change_contact [who; v; w] book
           = (Ok "Phone number not found"%string, book))
        /\ (forall pre x post,
              first_match v (phones r) pre x post ->
              Py1.change_contact [who; v; w] book
              = (Ok "Phone updated."%string,
                 before
                 ++ (who, mkRecord (name r) (pre ++ mkField w :: post)
                            (birthday r)) :: after)
              /\ Py1.find who
                   (before
                    ++ (who, mkRecord (name r) (pre ++ mkField w :: post)
                               (birthday r)) :: after)
                 = (Ok (Some (mkRecord (name r) (pre ++ mkField w :: post)
                                (birthday r))),
                    before
                    ++ (who, mkRecord (name r) (pre ++ mkField w :: post)
                               (birthday r)) :: after))).
Proof.
  split; [|split; [intros r; apply dict_get_split|]].
  - intros Hn.
    assert (H : Py1.change_contact [who; v; w] book
                = (Ok ("Contact " ++ repr_str who ++ " not found.")%string,
                   book)).
    { unfold Py1.change_contact, Py1.input_error_all,
        Py1.change_contact_body, Py1.find, cmd_bind, lift, cmd_raise, bind,
        get, ret.
      now rewrite Hn. }
    split; [exact H|]. intros Hp. rewrite H, (repr_str_plain who Hp).
    cbn [append]. now rewrite str_append_assoc.
  - intros before r after -> Hn.
    unfold Py1.change_contact, Py1.input_error_all, Py1.change_contact_body,
      Py1.find, cmd_bind, lift, cmd_raise, bind, get, ret.
    rewrite !(dict_get_first who _ before after Hn), on_record_eq. split.
    + intros Hno. rewrite (proj1 (Py1_edit_phone_spec r v w) Hno).
      cbn [fst snd]. now rewrite (dict_set_split who _ _ _ _ Hn).
    + intros pre x post Hm.
      rewrite (proj2 (Py1_edit_phone_spec r v w) pre x post Hm).
      cbn [fst snd]. rewrite (dict_set_split who _ _ _ _ Hn).
      split; [reflexivity|].
      now rewrite (dict_get_first who _ before after Hn).
Qed.

Lemma change_contact_spec_witness :
  Py1.change_contact ["Bob"; "1112223330"; "4445556660"]%string address_book
  = (Ok "Contact 'Bob' not found."%string, address_book)
  /\ Py1.change_contact ["Dan"; "4445556660"; "12"]%string june_book
     = (Ok "Phone updated."%string,
        [("Ann"%string,
          mkRecord (mkField "Ann") [mkField "1112223330"]
            (Some (mkField "12.06.1990")));
         ("Bob"%string,
          mkRecord (mkField "Bob") [] (Some (mkField "15.06.1990")));
         ("Eve"%string,
          mkRecord (mkField "Eve") [] (Some (mkField "01.01.1990")));
         ("Dan"%string, mkRecord (mkField "Dan") [mkField "12"] None)]).
Proof.
  split.
  - refine (proj2 (proj1 (change_contact_spec address_book "Bob"
                            "1112223330" "4445556660") _) _);
      reflexivity.
  - refine (proj1 (proj2 (proj2 (proj2 (change_contact_spec june_book "Dan"
                                          "4445556660" "12"))
              [("Ann"%string,
                mkRecord (mkField "Ann") [mkField "1112223330"]
                  (Some (mkField "12.06.1990")));
               ("Bob"%string,
                mkRecord (mkField "Bob") [] (Some (mkField "15.06.1990")));
               ("Eve"%string,
                mkRecord (mkField "Eve") [] (Some (mkField "01.01.1990")))]
              (mkRecord (mkField "Dan") [mkField "4445556660"] None) []
              _ _)
              [] (mkField "4445556660") [] _)).
    + reflexivity.
    + simpl. intros [E|[E|[E|[]]]]; discriminate E.
    + apply (first_match_intro "4445556660" [] (mkField "4445556660") []);
        [constructor | reflexivity].
Defined.

(** X11: what [add_contact] stores, [show_phone] shows. After
    [add_contact] of a name and a valid phone, [show_phone] of the name
    answers with the phones that the name had before, if any, and the new
    one after them, joined by ["; "]; a phone added twice is shown
    twice. *)
Theorem show_phone_after_add_contact (book : AddressBook)
  (who phone : string) :
  phone_rule phone ->
  (Py1.add_contact [who; phone] ;;; Py1.show_phone [who]) book
  = (Ok (str_join "; " (phones_of who book ++ [phone])),
     snd (Py1.add_contact [who; phone] book)).
Proof.
  intros Hp. apply Phone_validate_rule in Hp.
  unfold phones_of, bind, Py1.add_contact, Py1.input_error,
    Py1.add_contact_body, Py1.find, Py1.add_record, on_local, bind, get,
    ret, modify.
  destruct (dict_get who book) as [r|] eqn:E.
  - rewrite on_record_eq, Py1_add_phone_run, Py1_Phone_init_validate, Hp.
    simpl.
    unfold Py1.show_phone, Py1.input_error_all, Py1.show_phone_body,
      Py1.find, cmd_bind, lift, bind, get, ret.
    rewrite dict_get_set, String.eqb_refl. simpl.
    unfold values. now rewrite map_app.
  - rewrite Py1_add_phone_run, Py1_Phone_init_validate, Hp. simpl.
    unfold Py1.show_phone, Py1.input_error_all, Py1.show_phone_body,
      Py1.find, cmd_bind, lift, bind, get, ret.
    rewrite dict_get_set, String.eqb_refl. reflexivity.
Qed.

Lemma show_phone_after_add_contact_witness :
  (Py1.add_contact ["Ann"; "1112223330"]%string ;;;
   Py1.show_phone ["Ann"]%string) address_book
  = (Ok "1112223330; 1112223330"%string,
     snd (Py1.add_contact ["Ann"; "1112223330"]%string address_book)).
Proof.
  apply (show_phone_after_add_contact address_book "Ann" "1112223330").
  split; [reflexivity | repeat constructor].
Defined.

(** X12: the birthday of a record is one slot that [add-birthday] writes
    and [show-birthday] reads. For a name that the registry holds:
    a text that [Birthday] accepts is stored, whatever birthday was there,
    with the answer [Birthday added.], and [show_birthday] then answers
    with the name and that very text; a text that [Birthday] refuses
    gives the validation error as the answer and changes nothing. *)
Theorem birthday_commands_round_trip (book : AddressBook) (who v : string)
  (r : Record_) :
  dict_get who book = Some r ->
  (birthday_text v ->
     Py1.cmd_add_birthday [who; v] book
     = (Ok "Birthday added."%string,
        dict_set who (set_birthday (Some (mkField v)) r) book)
     /\ Py1.show_birthday [who]
          (dict_set who (set_birthday (Some (mkField v)) r) book)
        = (Ok (who ++ "'s birthday: " ++ v)%string,
           dict_set who (set_birthday (Some (mkField v)) r) book))
  /\ (~ birthday_text v ->
      Py1.cmd_add_birthday [who; v] book
      = (Ok "Invalid date format. Use DD.MM.YYYY"%string, book)).
Proof.
  intros Hg.
  unfold Py1.cmd_add_birthday, Py1.show_birthday, Py1.input_error_all,
    Py1.cmd_add_birthday_body, Py1.show_birthday_body, Py1.find, cmd_bind,
    lift, cmd_raise, bind, get, ret.
  rewrite Hg, on_record_eq, Py1_add_birthday_run. split; intros Hv.
  - rewrite (proj1 (Py1_Birthday_init_text v) Hv). simpl.
    split; [reflexivity|].
    now rewrite dict_get_set, String.eqb_refl.
  - rewrite (proj2 (Py1_Birthday_init_text v) Hv). simpl.
    now rewrite (dict_set_same _ _ _ Hg).
Qed.

Lemma birthday_commands_round_trip_witness :
  Py1.cmd_add_birthday ["Ann"; "29.02.2024"]%string address_book
  = (Ok "Birthday added."%string, leap_book)
  /\ Py1.show_birthday ["Ann"]%string leap_book
     = (Ok "Ann's birthday: 29.02.2024"%string, leap_book).
Proof.
  refine (proj1 (birthday_commands_round_trip address_book "Ann"
                   "29.02.2024" ann _) _).
  - reflexivity.
  - apply strptime_accepts. eexists. reflexivity.
Defined.

(** ** More on the scheduler *)

Lemma date_new_day (y m d : Z) :
  MINYEAR <= y <= MAXYEAR -> 1 <= m <= 12 ->
  date_new y m d
  = if (1 <=? d) && (d <=? _days_in_month y m) then Ok (mkdate y m d)
    else Raise (ValueError "day is out of range for month").
Proof.
  intros Hy Hm. unfold date_new.
  replace ((MINYEAR <=? y) && (y <=? MAXYEAR)) with true
    by (symmetry; apply andb_true_iff; rewrite !Z.leb_le; lia).
  replace ((1 <=? m) && (m <=? 12)) with true
    by (symmetry; apply andb_true_iff; rewrite !Z.leb_le; lia).
  simpl. now destruct ((1 <=? d) && (d <=? _days_in_month y m)).
Qed.

Lemma upcoming_step_Ok (today : date) (r : Record_)
  (acc acc' : list (string * date)) :
  Py1.upcoming_step today r acc = Ok acc' -> schedulable today r.
Proof.
  unfold Py1.upcoming_step, schedulable. intros H b Hb. rewrite Hb in H.
  destruct (strptime_dmY (value b)) as [bd|e]; [|discriminate].
  exists bd. split; trivial. cbn [obind] in H. unfold replace_year in H.
  destruct (date_new (year today) (month bd) (day bd)) as [x|e] eqn:E1;
    [|discriminate].
  apply date_new_Ok in E1. destruct E1 as [-> Hthis].
  cbn [obind] in H. fold (this_year today bd) in *.
  split; trivial. unfold occurrence.
  destruct (date_lt (this_year today bd) today); trivial.
  destruct (date_new (year today + 1) (month (this_year today bd))
              (day (this_year today bd))) as [x|e] eqn:E2; [|discriminate].
  apply date_new_Ok in E2. now destruct E2 as [_ Hnext].
Qed.

Lemma upcoming_loop_Ok (today : date) (records : list Record_)
  (acc l : list (string * date)) :
  Py1.upcoming_loop today records acc = Ok l ->
  Forall (schedulable today) records.
Proof.
  revert acc. induction records as [|r records IH]; intros acc H;
    [constructor|].
  simpl in H.
  destruct (Py1.upcoming_step today r acc) as [acc'|e] eqn:E;
    [|discriminate].
  constructor; [now apply (upcoming_step_Ok today r acc acc') |].
  now apply (IH acc').
Qed.

Lemma get_upcoming_birthdays_Ok (today : date) (book : AddressBook)
  (l : list (string * date)) :
  Py1.get_upcoming_birthdays today book = Ok l ->
  Forall (schedulable today) (dict_values book)
  /\ l = upcoming_spec today book.
Proof.
  unfold Py1.get_upcoming_birthdays. intros H.
  pose proof (upcoming_loop_Ok _ _ _ _ H) as Hs. split; trivial.
  rewrite (upcoming_loop_spec today (dict_values book) [] Hs) in H.
  now inversion H.
Qed.

Lemma weekday_range (d : date) : 0 <= weekday d <= 6.
Proof. unfold weekday. Z.div_mod_to_equations. lia. Qed.

(** X13: a date that the scheduler hands out is never a Saturday or a
    Sunday, never before [today] and at most nine days after it (seven of
    the window and two of the move to Monday). *)
Theorem upcoming_dates_are_working_days (today : date) (book : AddressBook)
  (l : list (string * date)) (n : string) (d : date) :
  Py1.get_upcoming_birthdays today book = Ok l ->
  In (n, d) l ->
  weekday d <= 4 /\ 0 <= toordinal d - toordinal today <= 9.
Proof.
  intros H Hin. apply get_upcoming_birthdays_Ok in H.
  destruct H as [Hs ->]. unfold upcoming_spec in Hin.
  apply in_flat_map in Hin. destruct Hin as (r & Hr & Hin).
  apply upcoming_entry_In in Hin.
  destruct Hin as (b & bd & Hb & Hp & Hd & _ & ->).
  rewrite Forall_forall in Hs.
  destruct (Hs r Hr b Hb) as (bd' & Hp' & _ & Hocc).
  rewrite Hp in Hp'. inversion Hp'; subst bd'.
  unfold days_until in Hd.
  pose proof (weekday_range (occurrence today bd)) as Hw.
  destruct (Z.le_gt_cases 5 (weekday (occurrence today bd))) as [H5|H5].
  - destruct (congratulation_weekend _ Hocc H5) as [Ho ->]. lia.
  - rewrite congratulation_weekday by lia. lia.
Qed.

Lemma upcoming_dates_are_working_days_witness :
  weekday (mkdate 2024 6 17) <= 4
  /\ 0 <= toordinal (mkdate 2024 6 17) - toordinal (mkdate 2024 6 10) <= 9.
Proof.
  apply (upcoming_dates_are_working_days (mkdate 2024 6 10) june_book
           [("Ann"%string, mkdate 2024 6 12); ("Bob"%string, mkdate 2024 6 17)]
           "Bob" (mkdate 2024 6 17)).
  - reflexivity.
  - simpl. tauto.
Defined.

Lemma date_lt_before (a b : date) :
  date_lt a b = true <-> date_before a b.
Proof.
  unfold date_lt, date_before.
  rewrite !orb_true_iff, !andb_true_iff, !orb_true_iff, !andb_true_iff,
    !Z.ltb_lt, !Z.eqb_eq. tauto.
Qed.

Lemma month_before (y m1 m2 : Z) :
  1 <= m1 -> m1 < m2 -> m2 <= 12 ->
  _days_before_month y m1 + _days_in_month y m1 <= _days_before_month y m2.
Proof.
  intros H1 H12 H2. unfold _days_before_month, _days_in_month.
  destruct (month_cases m1 ltac:(lia)) as
    [->|[->|[->|[->|[->|[->|[->|[->|[->|[->|[->| ->]]]]]]]]]]];
    destruct (month_cases m2 ltac:(lia)) as
    [->|[->|[->|[->|[->|[->|[->|[->|[->|[->|[->| ->]]]]]]]]]]];
    try lia; destruct (_is_leap y); vm_compute; discriminate.
Qed.

Lemma toordinal_before (a b : date) :
  valid_date a -> valid_date b -> date_before a b ->
  toordinal a < toordinal b.
Proof.
  intros (Hya & Hma & Hda) (Hyb & Hmb & Hdb) H.
  unfold toordinal, _ymd2ord.
  pose proof (day_of_year_bounds _ _ _ Hma Hda) as Ba.
  pose proof (day_of_year_bounds _ _ _ Hmb Hdb) as Bb.
  destruct H as [Hy | [Hy [Hm | [Hm Hd]]]].
  - pose proof (days_before_next_year (year a)) as Hn.
    pose proof (days_before_year_mono (year a + 1) (year b) ltac:(lia)).
    lia.
  - rewrite Hy in *.
    pose proof (month_before (year b) (month a) (month b)
                  ltac:(lia) Hm ltac:(lia)).
    pose proof (month_table (_is_leap (year b)) (month b) Hmb).
    unfold _days_before_month in *. lia.
  - rewrite Hy, Hm. lia.
Qed.

Lemma toordinal_not_before (a b : date) :
  valid_date a -> valid_date b -> date_lt a b = false ->
  toordinal b <= toordinal a.
Proof.
  intros Ha Hb H.
  assert (Hn : ~ date_before a b).
  { intros Hab. apply date_lt_before in Hab. congruence. }
  assert (C : date_before b a
              \/ (year a = year b /\ month a = month b /\ day a = day b)).
  { unfold date_before in *. lia. }
  destruct C as [C|(E1 & E2 & E3)].
  - apply (toordinal_before b a Hb Ha) in C. lia.
  - unfold toordinal. rewrite E1, E2, E3. lia.
Qed.

Lemma days_before_month_next_year (y m : Z) :
  _days_before_month (y + 1) m - _days_before_month y m
  = (if (2 <? m) && _is_leap (y + 1) then 1 else 0)
    - (if (2 <? m) && _is_leap y then 1 else 0).
Proof. unfold _days_before_month. lia. Qed.

(** X14: the next occurrence of a birthday is never in the past and less
    than a year away: for a date [today] of the calendar, the day and
    month of a birthday, put on the year of [today] and advanced by one
    year when before [today], lie from 0 to 365 days after [today]. So
    the test [0 <= days_until_birthday] of the code never fails. *)
Theorem days_until_bounds (today bd : date) :
  valid_date today -> reinterpretable today bd ->
  0 <= days_until today bd <= 365.
Proof.
  intros Ht [Hthis Hocc]. unfold days_until, occurrence in *.
  destruct (date_lt (this_year today bd) today) eqn:E.
  - apply date_lt_before in E.
    pose proof (toordinal_before _ _ Hthis Ht E) as Hlt.
    destruct Ht as (Hy & Hm & Hd). destruct Hocc as (Hy' & Hm' & Hd').
    unfold toordinal, _ymd2ord in *.
    cbn [year month day this_year next_year] in *.
    pose proof (day_of_year_bounds _ _ _ Hm Hd) as Bt.
    pose proof (day_of_year_bounds _ _ _ Hm' Hd') as Bn.
    pose proof (days_before_next_year (year today)) as Hn.
    pose proof (days_before_month_next_year (year today) (month bd)) as Hd2.
    destruct (2 <? month bd), (_is_leap (year today + 1)),
      (_is_leap (year today)); cbn [andb] in *; lia.
  - pose proof (toordinal_not_before _ _ Hthis Ht E) as Hge.
    destruct Ht as (Hy & Hm & Hd). destruct Hthis as (Hy' & Hm' & Hd').
    unfold toordinal, _ymd2ord in *.
    cbn [year month day this_year next_year] in *.
    pose proof (day_of_year_bounds _ _ _ Hm Hd) as Bt.
    pose proof (day_of_year_bounds _ _ _ Hm' Hd') as Bn.
    destruct (_is_leap (year today)); lia.
Qed.

Lemma days_until_bounds_witness :
  0 <= days_until (mkdate 2024 6 10) (mkdate 1990 1 1) <= 365.
Proof.
  apply days_until_bounds; [|split]; vm_compute; intuition discriminate.
Defined.

Lemma date_lt_irrefl (a : date) : date_lt a a = false.
Proof.
  destruct (date_lt a a) eqn:E; trivial.
  apply date_lt_before in E. unfold date_before in E. lia.
Qed.

(** X15: a birthday that falls today is announced. When the scheduler
    returns, every record whose stored birthday has the day and the month
    of [today] is in the result, with [today] itself as the date, or the
    Monday after when [today] is a Saturday or a Sunday. *)
Theorem birthday_today_is_announced (today : date) (book : AddressBook)
  (l : list (string * date)) (r : Record_) (b : Birthday) (bd : date) :
  Py1.get_upcoming_birthdays today book = Ok l ->
  In r (dict_values book) ->
  birthday r = Some b -> strptime_dmY (value b) = Ok bd ->
  month bd = month today -> day bd = day today ->
  In (value (name r), congratulation today) l.
Proof.
  intros H Hr Hb Hp Hm Hd. apply get_upcoming_birthdays_Ok in H.
  destruct H as [_ ->]. unfold upcoming_spec. apply in_flat_map.
  exists r. split; trivial. apply upcoming_entry_In. exists b, bd.
  assert (Ho : occurrence today bd = today).
  { unfold occurrence, this_year. rewrite Hm, Hd.
    replace (mkdate (year today) (month today) (day today)) with today
      by now destruct today.
    now rewrite date_lt_irrefl. }
  unfold days_until. rewrite Ho. repeat split; trivial; lia.
Qed.

Lemma birthday_today_is_announced_witness :
  In ("Ann"%string, congratulation (mkdate 2024 6 12))
     [("Ann"%string, mkdate 2024 6 12); ("Bob"%string, mkdate 2024 6 17)].
Proof.
  apply (birthday_today_is_announced (mkdate 2024 6 12) june_book
           [("Ann"%string, mkdate 2024 6 12); ("Bob"%string, mkdate 2024 6 17)]
           (mkRecord (mkField "Ann") [mkField "1112223330"]
              (Some (mkField "12.06.1990")))
           (mkField "12.06.1990") (mkdate 1990 6 12)).
  - reflexivity.
  - simpl. tauto.
  - reflexivity.
  - reflexivity.
  - reflexivity.
  - reflexivity.
Defined.

(** ** The command [birthdays] *)

Lemma upcoming_step_unschedulable (today : date) (r : Record_)
  (acc : list (string * date)) :
  valid_date today -> year today < MAXYEAR -> record_valid r ->
  ~ schedulable today r ->
  Py1.upcoming_step today r acc
  = Raise (ValueError "day is out of range for month").
Proof.
  intros (Hy & _) Hmax [_ Hb] Hn. unfold Py1.upcoming_step.
  destruct (birthday r) as [b|] eqn:Eb.
  2:{ exfalso. apply Hn. intros b Hb'. congruence. }
  destruct (proj2 (strptime_accepts (value b)) (Hb b eq_refl)) as [bd Hp].
  rewrite Hp. cbn [obind].
  pose proof (proj2 (proj1 (strptime_Ok _ _) Hp)) as (_ & Hm & _).
  unfold replace_year. rewrite (date_new_day _ _ (day bd) Hy Hm).
  destruct ((1 <=? day bd) && (day bd <=? _days_in_month (year today) (month bd)))
    eqn:E1; [|reflexivity].
  cbn [obind]. fold (this_year today bd).
  assert (Hthis : valid_date (this_year today bd)).
  { apply andb_true_iff in E1. rewrite !Z.leb_le in E1.
    unfold valid_date, this_year. cbn [year month day]. lia. }
  destruct (date_lt (this_year today bd) today) eqn:Elt.
  - cbn [this_year month day].
    rewrite (date_new_day (year today + 1) _ (day bd)); [|lia|exact Hm].
    destruct ((1 <=? day bd)
              && (day bd <=? _days_in_month (year today + 1) (month bd)))
      eqn:E2; [|reflexivity].
    exfalso. apply Hn. intros b' Hb'. rewrite Eb in Hb'. injection Hb' as <-.
    exists bd. split; trivial. split; trivial.
    unfold occurrence. rewrite Elt.
    apply andb_true_iff in E2. rewrite !Z.leb_le in E2.
    unfold valid_date, next_year, MINYEAR, MAXYEAR in *.
    cbn [year month day]. lia.
  - exfalso. apply Hn. intros b' Hb'. rewrite Eb in Hb'. injection Hb' as <-.
    exists bd. split; trivial. split; trivial.
    unfold occurrence. now rewrite Elt.
Qed.

Lemma upcoming_loop_unschedulable (today : date) (records : list Record_)
  (acc : list (string * date)) :
  valid_date today -> year today < MAXYEAR ->
  Forall record_valid records ->
  ~ Forall (schedulable today) records ->
  Py1.upcoming_loop today records acc
  = Raise (ValueError "day is out of range for month").
Proof.
  intros Ht Hmax Hv. revert acc.
  induction Hv as [|r records Hr Hrs IH]; intros acc Hn.
  - exfalso. apply Hn. constructor.
  - simpl. destruct (Py1.upcoming_step today r acc) as [acc'|e] eqn:E.
    + cbn [obind]. apply IH. intros Hall. apply Hn.
      constructor; trivial. now apply (upcoming_step_Ok today r acc acc').
    + assert (Hnr : ~ schedulable today r).
      { intros Hs. rewrite (upcoming_step_spec today r acc Hs) in E.
        discriminate. }
      rewrite (upcoming_step_unschedulable today r acc Ht Hmax Hr Hnr) in E.
      now inversion E.
Qed.

Lemma records_valid_values (book : AddressBook) :
  records_valid book -> Forall record_valid (dict_values book).
Proof.
  unfold records_valid, dict_values. intros H. now apply Forall_map.
Qed.

Lemma two_digits_table :
  forallb (fun n => String.eqb (two_digits n) (pad2 n))
    (map Z.of_nat (seq 0 100)) = true.
Proof. vm_compute. reflexivity. Qed.

Lemma two_digits_pad2 (n : Z) : 0 <= n <= 99 -> two_digits n = pad2 n.
Proof.
  intros Hn. pose proof two_digits_table as T.
  rewrite forallb_forall in T. apply String.eqb_eq, T.
  apply in_map_iff. exists (Z.to_nat n). split; [lia|].
  apply in_seq. lia.
Qed.

Lemma days_in_month_table (leap : bool) (m : Z) :
  1 <= m <= 12 -> (if (m =? 2) && leap then 29 else _DAYS_IN_MONTH m) <= 31.
Proof.
  intros Hm.
  destruct (month_cases m Hm) as
    [->|[->|[->|[->|[->|[->|[->|[->|[->|[->|[->| ->]]]]]]]]]]];
    destruct leap; vm_compute; discriminate.
Qed.

Lemma fromordinal_fields (n : Z) :
  1 <= month (fromordinal n) <= 12 /\ 1 <= day (fromordinal n) <= 31.
Proof.
  unfold fromordinal. rewrite ord2ymd_unfold. cbv zeta.
  destruct (_ || _); [cbn [month day]; lia|].
  match goal with
  | |- context [month_day ?l ?r] =>
      pose proof (month_day_spec l r) as Hmd; set (leap := l) in *;
      set (r1 := r) in *
  end.
  assert (Hr : 0 <= r1 <= 364) by (subst r1; Z.div_mod_to_equations; lia).
  specialize (Hmd Hr). unfold month_day_ok in Hmd.
  destruct (month_day leap r1) as [m d]. cbn [fst snd month day].
  rewrite !andb_true_iff, !Z.leb_le, Z.eqb_eq in Hmd.
  pose proof (days_in_month_table leap m ltac:(lia)). lia.
Qed.

Lemma congratulation_fields (d : date) :
  valid_date d ->
  1 <= month (congratulation d) <= 12 /\ 1 <= day (congratulation d) <= 31.
Proof.
  intros (_ & Hm & Hd). unfold congratulation.
  destruct (5 <=? weekday d); [apply fromordinal_fields|].
  pose proof (days_in_month_le_31 (year d) (month d) Hm). lia.
Qed.

Lemma strftime_Ymd_text (f : Z -> string) (d : date) :
  1 <= month d <= 12 -> 1 <= day d <= 31 ->
  Py1.strftime_Ymd f d = date_text f d.
Proof.
  intros Hm Hd. unfold Py1.strftime_Ymd, date_text.
  now rewrite !two_digits_pad2 by lia.
Qed.

Lemma upcoming_spec_fields (today : date) (book : AddressBook)
  (e : string * date) :
  Forall (schedulable today) (dict_values book) ->
  In e (upcoming_spec today book) ->
  1 <= month (snd e) <= 12 /\ 1 <= day (snd e) <= 31.
Proof.
  intros Hs Hin. unfold upcoming_spec in Hin.
  apply in_flat_map in Hin. destruct Hin as (r & Hr & He).
  rewrite Forall_forall in Hs. specialize (Hs r Hr).
  destruct e as [n d].
  apply upcoming_entry_In in He.
  destruct He as (b & bd & Hb & Hp & _ & _ & ->).
  destruct (Hs b Hb) as (bd' & Hp' & _ & Hocc).
  rewrite Hp in Hp'. inversion Hp'; subst bd'.
  cbn [snd]. now apply congratulation_fields.
Qed.

(** X16: the command [birthdays] never raises and never writes: whatever
    the day and the registry, it answers with a text and the registry is
    as it was. On a registry whose birthdays can all be put on the year
    they are needed in, the text is one line [name: year.month.day] per
    upcoming birthday, month and day on two digits, the lines separated by
    a line feed, or [No upcoming birthdays in the next week.] when there
    is none. On a registry of valid records where one birthday cannot (a
    29 February and a year that is not a leap year), on a day of the
    calendar before the year 9999, the whole answer is the text
    [day is out of range for month], whatever the other birthdays are. *)
Theorem birthdays_spec (f : Z -> string) (today : date)
  (book : AddressBook) :
  (exists text, Py1.birthdays f today book = (Ok text, book))
  /\ (Forall (schedulable today) (dict_values book) ->
      Py1.birthdays f today book
      = (Ok (birthdays_text f (upcoming_spec today book)), book))
  /\ (valid_date today -> year today < MAXYEAR -> records_valid book ->
      ~ Forall (schedulable today) (dict_values book) ->
      Py1.birthdays f today book
      = (Ok "day is out of range for month"%string, book)).
Proof.
  split; [|split].
  - unfold Py1.birthdays.
    match goal with
    | |- context [Py1.input_error_all ?c book] =>
        destruct (input_error_all_total c book) as [t Ht];
        pose proof (birthdays_book f today book) as Hb
    end.
    unfold Py1.birthdays in Hb. rewrite Ht in Hb. cbn [snd] in Hb.
    exists t. now rewrite Ht, Hb.
  - intros Hs.
    unfold Py1.birthdays, Py1.input_error_all, cmd_bind, lift, call, get,
      Py1.get_upcoming_birthdays.
    rewrite (upcoming_loop_spec today (dict_values book) [] Hs). simpl.
    fold (upcoming_spec today book).
    pose proof (upcoming_spec_fields today book) as Hf.
    destruct (upcoming_spec today book) as [|e l]; [reflexivity|].
    unfold birthdays_text. do 3 f_equal.
    apply map_ext_in. intros e' He'.
    destruct (Hf e' Hs He') as [Hm Hd].
    now rewrite (strftime_Ymd_text f (snd e') Hm Hd).
  - intros Ht Hmax Hv Hs.
    unfold Py1.birthdays, Py1.input_error_all, cmd_bind, lift, call, get,
      Py1.get_upcoming_birthdays.
    now rewrite (upcoming_loop_unschedulable today (dict_values book) []
                   Ht Hmax (records_valid_values book Hv) Hs).
Qed.

Lemma birthdays_spec_witness :
  Py1.birthdays str_of_int (mkdate 2024 6 12) june_book
  = (Ok ("Ann: 2024.06.12" ++ String "010" "Bob: 2024.06.17")%string,
     june_book)
  /\ Py1.birthdays str_of_int (mkdate 2023 2 25) leap_book
     = (Ok "day is out of range for month"%string, leap_book).
Proof.
  split.
  - refine (proj1 (proj2 (birthdays_spec str_of_int (mkdate 2024 6 12)
                            june_book)) _).
    apply (proj1 (get_upcoming_birthdays_Ok (mkdate 2024 6 12) june_book
                    [("Ann"%string, mkdate 2024 6 12);
                     ("Bob"%string, mkdate 2024 6 17)] eq_refl)).
  - refine (proj2 (proj2 (birthdays_spec str_of_int (mkdate 2023 2 25)
                            leap_book)) _ _ _ _).
    + vm_compute. intuition discriminate.
    + reflexivity.
    + repeat constructor. intros b Hb. inversion Hb.
      apply strptime_accepts. eexists. reflexivity.
    + intros H. inversion H as [|? ? Hs _]. subst.
      destruct (Hs (mkField "29.02.2024") eq_refl) as (bd & Hp & [Hthis _]).
      inversion Hp; subst bd. destruct Hthis as (_ & _ & Hd).
      vm_compute in Hd. intuition.
Defined.

(** ** Operations on a record, one after the other *)

Lemma first_match_last (v : string) (l : list Phone) (x : Phone) :
  Forall (fun q => value q <> v) l -> value x = v ->
  first_match v (l ++ [x]) l x [].
Proof. intros Hl Hx. now apply (first_match_intro v l x []). Qed.

Lemma remove_scan_last (v : string) (l : list Phone) (x : Phone) :
  Forall (fun q => value q <> v) l -> value x = v ->
  remove_scan v (l ++ [x]) = l.
Proof.
  intros Hl Hx. induction Hl as [|q l Hq Hl IH]; simpl.
  - rewrite Hx, String.eqb_refl. reflexivity.
  - destruct (String.eqb_spec (value q) v); [contradiction|].
    now rewrite IH.
Qed.

Lemma Phone_init_rule (v : string) :
  phone_rule v ->
  Py1.Phone_init v = Ok (mkField v) /\ PyMain.Phone_init v = Ok (mkField v).
Proof.
  intros H. apply Phone_validate_rule in H.
  now rewrite Py1_Phone_init_validate, PyMain_Phone_init_validate, H.
Qed.

(** X17: adding a phone and removing it again is a round trip when the
    record did not hold the phone: for a valid phone that is not among the
    phones of the record, [add_phone] followed by [remove_phone] succeeds
    and leaves the record exactly as it was, in both files. *)
Theorem add_then_remove_phone (r : Record_) (v : string) :
  phone_rule v ->
  Forall (fun q => value q <> v) (phones r) ->
  (PyMain.add_phone v ;;; PyMain.remove_phone v) r = (Ok tt, r)
  /\ (Py1.add_phone v ;;; Py1.remove_phone v) r = (Ok tt, r).
Proof.
  intros Hv Hn. destruct (Phone_init_rule v Hv) as [H1 Hm].
  unfold bind.
  rewrite PyMain_add_phone_run, Py1_add_phone_run, H1, Hm. split.
  - rewrite PyMain_remove_phone_run. cbn [phones set_phones].
    rewrite (first_match_find_index v _ _ _ _
               (first_match_last v (phones r) (mkField v) Hn eq_refl)).
    rewrite (remove_at_app (phones r) (mkField v) []), app_nil_r.
    now destruct r.
  - rewrite Py1_remove_phone_scan. cbn [phones set_phones].
    rewrite (remove_scan_last v (phones r) (mkField v) Hn eq_refl).
    now destruct r.
Qed.

Lemma add_then_remove_phone_witness :
  (PyMain.add_phone "4445556660" ;;; PyMain.remove_phone "4445556660") ann
  = (Ok tt, ann)
  /\ (Py1.add_phone "4445556660" ;;; Py1.remove_phone "4445556660") ann
     = (Ok tt, ann).
Proof.
  apply (add_then_remove_phone ann "4445556660").
  - split; [reflexivity | repeat constructor].
  - repeat constructor. discriminate.
Defined.

Lemma first_match_inv (v : string) (l pre post : list Phone) (x : Phone) :
  first_match v l pre x post ->
  l = pre ++ x :: post /\ Forall (fun q => value q <> v) pre /\ value x = v.
Proof. intros H. now inversion H. Qed.

Lemma first_match_replaced (v w : string) (pre post : list Phone)
  (x : Phone) :
  Forall (fun q => value q <> w) pre ->
  first_match w (pre ++ mkField w :: post) pre (mkField w) post.
Proof. intros H. now apply (first_match_intro w pre (mkField w) post). Qed.

(** X18: editing a phone and editing it back is a round trip when the new
    value was not among the phones: with [v] among the phones of the
    record and [w] not, [edit_phone(v, w)] followed by
    [edit_phone(w, v)] succeeds and leaves the record exactly as it was,
    in [1.py] for any [w], in [main.py] for [v] and [w] that satisfy the
    phone rule. *)
Theorem edit_phone_and_back (r : Record_) (v w : string) :
  ~ Forall (fun q => value q <> v) (phones r) ->
  Forall (fun q => value q <> w) (phones r) ->
  (Py1.edit_phone v w ;;; Py1.edit_phone w v) r = (Ok tt, r)
  /\ (phone_rule v -> phone_rule w ->
      (PyMain.edit_phone v w ;;; PyMain.edit_phone w v) r = (Ok tt, r)).
Proof.
  intros Hv Hw.
  destruct (first_match_or_none v (phones r)) as [Hn|(pre & x & post & Hm)];
    [contradiction|].
  destruct (first_match_inv _ _ _ _ _ Hm) as (Hl & Hpre & Hx).
  rewrite Hl in Hw. apply Forall_app in Hw. destruct Hw as [Hwpre _].
  assert (Hback : set_phones (pre ++ mkField v :: post)
                    (set_phones (pre ++ mkField w :: post) r) = r).
  { clear Hm Hv. destruct r as [n l b]. simpl in Hl. subst l.
    destruct x as [xv]. simpl in Hx. subst xv. reflexivity. }
  unfold bind. split.
  - rewrite (proj2 (Py1_edit_phone_spec r v w) pre x post Hm).
    rewrite (proj2 (Py1_edit_phone_spec
                      (set_phones (pre ++ mkField w :: post) r) w v)
               pre (mkField w) post
               (first_match_replaced v w pre post (mkField w) Hwpre)).
    now rewrite Hback.
  - intros Rv Rw.
    rewrite (proj2 (PyMain_edit_phone_spec r v w) pre x post Hm).
    rewrite (proj2 (Phone_init_rule w Rw)).
    rewrite (proj2 (PyMain_edit_phone_spec
                      (set_phones (pre ++ mkField w :: post) r) w v)
               pre (mkField w) post
               (first_match_replaced v w pre post (mkField w) Hwpre)).
    rewrite (proj2 (Phone_init_rule v Rv)).
    now rewrite Hback.
Qed.

Lemma edit_phone_and_back_witness :
  (Py1.edit_phone "1112223330" "abc" ;;; Py1.edit_phone "abc" "1112223330")
    ann = (Ok tt, ann).
Proof.
  refine (proj1 (edit_phone_and_back ann "1112223330" "abc" _ _)).
  - intros H. inversion H as [|? ? Hx _]. now apply Hx.
  - repeat constructor. discriminate.
Defined.

Lemma no_neighbours_tail (v : string) (x : Phone) (l : list Phone) :
  no_neighbours v (x :: l) -> no_neighbours v l.
Proof. destruct l; simpl; tauto. Qed.

Lemma remove_scan_filter (v : string) (l : list Phone) :
  no_neighbours v l -> remove_scan v l = filter (differs v) l.
Proof.
  induction l as [|x|x y l IHl IHyl] using list_pair_ind; intros H.
  - reflexivity.
  - simpl. unfold differs. now destruct (value x =? v)%string.
  - rewrite remove_scan_two.
    change (filter (differs v) (x :: y :: l))
      with (if differs v x then x :: filter (differs v) (y :: l)
            else filter (differs v) (y :: l)).
    destruct H as [Hxy Hyl]. unfold differs at 1.
    destruct (String.eqb_spec (value x) v) as [Ex|Nx]; cbn [negb].
    + assert (Ny : differs v y = true).
      { unfold differs. destruct (String.eqb_spec (value y) v); tauto. }
      cbn [filter]. rewrite Ny. f_equal. apply IHl.
      now apply (no_neighbours_tail v y).
    + f_equal. now apply IHyl.
Qed.

(** X19: [remove_phone] of [1.py] goes on after the first hit. When no two
    phones equal to [p] are next to each other in the list, it removes
    every phone equal to [p], not only the first one, and keeps the
    others in their order. *)
Theorem Py1_remove_phone_removes_all (r : Record_) (p : string) :
  no_neighbours p (phones r) ->
  Py1.remove_phone p r
  = (Ok tt, set_phones (filter (differs p) (phones r)) r).
Proof.
  intros H. rewrite Py1_remove_phone_scan.
  now rewrite (remove_scan_filter p (phones r) H).
Qed.

Lemma Py1_remove_phone_removes_all_witness :
  Py1.remove_phone "1112223330"
    (mkRecord (mkField "Ann")
       [mkField "1112223330"; mkField "4445556660"; mkField "1112223330"]
       None)
  = (Ok tt, mkRecord (mkField "Ann") [mkField "4445556660"] None).
Proof.
  apply (Py1_remove_phone_removes_all
           (mkRecord (mkField "Ann")
              [mkField "1112223330"; mkField "4445556660";
               mkField "1112223330"] None) "1112223330").
  simpl. repeat split; intros [H1 H2]; discriminate.
Defined.

(** ** The menu of [main.py] *)

Lemma PyMain_Birthday_init_text (v : string) :
  (birthday_text v -> PyMain.Birthday_init v = Ok (mkField v))
  /\ (~ birthday_text v ->
      PyMain.Birthday_init v
      = Raise (ValueError
          "Невірний формат дати. Використовуйте DD.MM.YYYY")).
Proof.
  unfold PyMain.Birthday_init. split; intros H.
  - apply strptime_accepts in H. now destruct H as [x ->].
  - destruct (strptime_dmY v) as [x|e] eqn:E.
    + exfalso. apply H. apply strptime_accepts. now exists x.
    + now destruct (strptime_raises_ValueError v e E) as [msg ->].
Qed.

Lemma PyMain_Record_init_Ok (who : string) (b : option string)
  (r : Record_) :
  PyMain.Record_init who b = Ok r ->
  who <> EmptyString
  /\ r = mkRecord (mkField who) [] (initial_birthday b)
  /\ (forall x, initial_birthday b = Some x -> birthday_text (value x)).
Proof.
  unfold PyMain.Record_init, PyMain.Name_init.
  destruct who as [|c who]; [discriminate|]. cbn [obind].
  destruct b as [[|c' v]|]; cbn [obind initial_birthday].
  - intros H. inversion H. repeat split; discriminate.
  - destruct (PyMain.Birthday_init (String c' v)) as [x|e] eqn:E;
      [|discriminate].
    destruct (Birthday_init_Ok _ _ (or_intror E)) as [-> Ht].
    cbn [obind]. intros H. inversion H.
    split; [discriminate|]. split; [reflexivity|].
    intros x Hx. inversion Hx. exact Ht.
  - intros H. inversion H. repeat split; discriminate.
Qed.

(** X20: what [Record(name, birthday)] of [main.py] accepts. It fails on
    the empty name, before it looks at the birthday; a birthday that is
    [None] or the empty string gives a record without birthday; any other
    birthday must be a text that [Birthday] accepts, and is stored as it
    is. The record starts without phones. *)
Theorem PyMain_Record_init_spec (who : string) (b : option string) :
  (who = EmptyString ->
     PyMain.Record_init who b
     = Raise (ValueError "Ім'я не може бути порожнім"))
  /\ (who <> EmptyString ->
      (forall x, initial_birthday b = Some x -> birthday_text (value x)) ->
      PyMain.Record_init who b
      = Ok (mkRecord (mkField who) [] (initial_birthday b)))
  /\ (who <> EmptyString ->
      (exists x, initial_birthday b = Some x /\ ~ birthday_text (value x)) ->
      PyMain.Record_init who b
      = Raise (ValueError
          "Невірний формат дати. Використовуйте DD.MM.YYYY")).
Proof.
  unfold PyMain.Record_init, PyMain.Name_init.
  split; [intros ->; reflexivity|].
  split; intros Hw H; (destruct who as [|c who]; [contradiction|]);
    cbn [obind].
  - destruct b as [[|c' v]|]; cbn [obind initial_birthday] in *; trivial.
    now rewrite (proj1 (PyMain_Birthday_init_text (String c' v))
                   (H _ eq_refl)).
  - destruct H as (x & Hx & Hn).
    destruct b as [[|c' v]|]; cbn [initial_birthday] in Hx;
      try discriminate.
    inversion Hx; subst x. cbn [value] in Hn.
    now rewrite (proj2 (PyMain_Birthday_init_text (String c' v)) Hn).
Qed.

Lemma PyMain_Record_init_spec_witness :
  PyMain.Record_init "Ann" (Some EmptyString)
  = Ok (mkRecord (mkField "Ann") [] None).
Proof.
  refine (proj1 (proj2 (PyMain_Record_init_spec "Ann" (Some EmptyString)))
            _ _).
  - discriminate.
  - intros x Hx. discriminate Hx.
Defined.

Lemma command_name_run (name_line phone_line birthday_line : string)
  (book : AddressBook) :
  PyMain.command_name name_line phone_line birthday_line book =
  match PyMain.Record_init (str_strip name_line)
          (Some (str_strip birthday_line)) with
  | Raise e => (Raise e, book)
  | Ok r =>
      match str_strip phone_line with
      | EmptyString => PyMain.add_record r book
      | String _ _ as phone =>
          match PyMain.Phone_init phone with
          | Raise e => (Raise e, book)
          | Ok p => PyMain.add_record (set_phones (phones r ++ [p]) r) book
          end
      end
  end.
Proof.
  unfold PyMain.command_name, bind, call, ret, on_local. cbv zeta.
  destruct (PyMain.Record_init (str_strip name_line)
              (Some (str_strip birthday_line))) as [r|e]; trivial.
  destruct (str_strip phone_line) as [|c phone]; trivial.
  rewrite PyMain_add_phone_run.
  now destruct (PyMain.Phone_init (String c phone)).
Qed.

Lemma PyMain_add_record_run (r : Record_) (book : AddressBook) :
  PyMain.add_record r book =
  if dict_contains (value (name r)) book
  then (Raise (ValueError "Контакт з таким іменем вже існує."), book)
  else (Ok tt, dict_set (value (name r)) r book).
Proof.
  unfold PyMain.add_record, bind, get, raise, modify.
  now destruct (dict_contains (value (name r)) book).
Qed.

Lemma book_ok_add (book : AddressBook) (r : Record_) :
  book_ok book -> record_valid r -> value (name r) <> EmptyString ->
  book_ok (snd (PyMain.add_record r book)).
Proof.
  intros (Hk & Hv & Hn) Hr Hne. rewrite PyMain_add_record_run.
  destruct (dict_contains (value (name r)) book);
    [simpl; unfold book_ok; auto|].
  simpl. split; [now apply book_keyed_set|].
  split; [now apply records_valid_set|].
  apply dict_set_Forall; trivial.
  intros k' E. apply String.eqb_eq in E. now subst.
Qed.

Lemma book_ok_on_record (k : string) (r : Record_) (m : M Record_ unit)
  (book : AddressBook) :
  keeps_name m -> keeps_valid m -> book_ok book ->
  dict_get k book = Some r ->
  book_ok (snd (on_record k r m book)).
Proof.
  intros Hm1 Hm2 (Hk & Hv & Hn) Hg.
  split; [now apply on_record_keyed|].
  split; [now apply on_record_valid|].
  rewrite on_record_eq. simpl. apply dict_set_Forall; trivial.
  - intros k' E. apply String.eqb_eq in E. subst k'.
    apply dict_get_In in Hg. rewrite Forall_forall in Hn.
    exact (Hn _ Hg).
  - apply dict_get_In in Hg. rewrite Forall_forall in Hn.
    exact (Hn _ Hg).
Qed.

Lemma PyMain_menu_ok (c : menu_command) (book : AddressBook) :
  book_ok book -> book_ok (snd (PyMain_menu c book)).
Proof.
  intros Hok. destruct c as [who phone b|who phone|who v w|who v|who];
    simpl.
  - rewrite command_name_run.
    generalize (str_strip who) (str_strip phone) (str_strip b).
    clear who phone b. intros who phone b.
    destruct (PyMain.Record_init who (Some b)) as [r|e] eqn:E; trivial.
    destruct (PyMain_Record_init_Ok _ _ _ E) as (Hne & -> & Hb).
    assert (Hr : record_valid
                   (mkRecord (mkField who) [] (initial_birthday (Some b)))).
    { split; [constructor | exact Hb]. }
    destruct phone as [|c phone]; [now apply book_ok_add|].
    destruct (PyMain.Phone_init (String c phone)) as [p|e] eqn:Ep; trivial.
    apply book_ok_add; trivial.
    pose proof (proj1 (proj2 (proj2 (proj2 keeps_valid_methods)))
                  (String c phone) _ Hr) as H.
    rewrite PyMain_add_phone_run, Ep in H. exact H.
  - unfold PyMain.command_add_phone, PyMain.search_record, bind, get, ret.
    cbv zeta. generalize (str_strip who) (str_strip phone).
    clear who phone. intros who phone.
    destruct (dict_get who book) as [r|] eqn:E; trivial.
    apply book_ok_on_record; trivial;
      [apply keeps_name_methods | apply keeps_valid_methods].
  - unfold PyMain.command_edit_phone, PyMain.search_record, bind, get, ret.
    cbv zeta. generalize (str_strip who) (str_strip v) (str_strip w).
    clear who v w. intros who v w.
    destruct (dict_get who book) as [r|] eqn:E; trivial.
    apply book_ok_on_record; trivial;
      [apply keeps_name_methods | apply keeps_valid_methods].
  - unfold PyMain.command_remove_phone, PyMain.search_record, bind, get,
      ret.
    cbv zeta. generalize (str_strip who) (str_strip v).
    clear who v. intros who v.
    destruct (dict_get who book) as [r|] eqn:E; trivial.
    apply book_ok_on_record; trivial;
      [apply keeps_name_methods | apply keeps_valid_methods].
  - unfold PyMain.command_delete, PyMain.delete_record, bind, get, raise,
      modify.
    generalize (str_strip who). clear who. intros who.
    destruct (negb (dict_contains who book)); trivial. simpl.
    destruct Hok as (Hk & Hv & Hn).
    split; [now apply book_keyed_del|].
    split; now apply dict_del_Forall.
Qed.

(** X21: the menu of [main.py] keeps the data model. Starting from a
    registry with distinct keys, every record stored under its own,
    non-empty name, every phone satisfying the phone rule and every
    birthday a text that [Birthday] accepts (the empty registry is one),
    any sequence of the commands [name], [add_phone], [edit_phone],
    [remove_phone] and [delete], failed ones included, ends in such a
    registry. *)
Theorem PyMain_menu_session_ok (cs : list menu_command)
  (book : AddressBook) :
  book_ok book -> book_ok (PyMain_menu_session cs book).
Proof.
  revert book. induction cs as [|c cs IH]; intros book Hok; [exact Hok|].
  simpl. apply IH. now apply PyMain_menu_ok.
Qed.

Lemma PyMain_menu_session_ok_witness :
  book_ok (PyMain_menu_session
             [MenuName " Ann" "1112223330 " "12.06.1990";
              MenuEditPhone "Ann " "1112223330" "12";
              MenuName "Ann" "" "  ";
              MenuRemovePhone "Ann" " 1112223330"] []).
Proof.
  apply PyMain_menu_session_ok.
  repeat split; constructor.
Defined.

(** X22: the command [name] of [main.py], on the three lines as the user
    typed them. The lines count without the white space around them.
    When nothing is left of the name the command reports the empty-name
    error; under a name that the registry holds it reports an error,
    whatever the other two lines are; in both cases the registry is left
    as it was, so the command never replaces a contact. Under a new name,
    with a phone that is empty or valid and a birthday that is empty or
    valid, it adds at the end a record with that name, at most that one
    phone and that birthday. *)
Theorem command_name_spec (book : AddressBook)
  (name_line phone_line birthday_line : string) :
  (str_strip name_line = EmptyString ->
     PyMain.command_name name_line phone_line birthday_line book
     = (Raise (ValueError "Ім'я не може бути порожнім"), book))
  /\ (dict_contains (str_strip name_line) book = true ->
      exists e,
        PyMain.command_name name_line phone_line birthday_line book
        = (Raise e, book))
  /\ (dict_contains (str_strip name_line) book = false ->
      str_strip name_line <> EmptyString ->
      str_strip phone_line = EmptyString
      \/ phone_rule (str_strip phone_line) ->
      str_strip birthday_line = EmptyString
      \/ birthday_text (str_strip birthday_line) ->
      PyMain.command_name name_line phone_line birthday_line book
      = (Ok tt,
         book ++ [(str_strip name_line,
                   mkRecord (mkField (str_strip name_line))
                     (match str_strip phone_line with
                      | EmptyString => []
                      | String _ _ as phone => [mkField phone]
                      end)
                     (match str_strip birthday_line with
                      | EmptyString => None
                      | String _ _ as b => Some (mkField b)
                      end))])).
Proof.
  rewrite command_name_run.
  generalize (str_strip name_line) (str_strip phone_line)
    (str_strip birthday_line).
  intros who phone b. split; [|split].
  - intros ->. reflexivity.
  - intros Hc.
    destruct (PyMain.Record_init who (Some b)) as [r|e] eqn:E;
      [|now exists e].
    destruct (PyMain_Record_init_Ok _ _ _ E) as (_ & -> & _).
    destruct phone as [|c phone].
    + rewrite PyMain_add_record_run. simpl. rewrite Hc. eexists; reflexivity.
    + destruct (PyMain.Phone_init (String c phone)) as [p|e];
        [|now exists e].
      rewrite PyMain_add_record_run. simpl. rewrite Hc.
      eexists; reflexivity.
  - intros Hc Hw Hp Hb.
    assert (Hn : dict_get who book = None).
    { unfold dict_contains in Hc. now destruct (dict_get who book). }
    assert (Hi : PyMain.Record_init who (Some b)
                 = Ok (mkRecord (mkField who) []
                         (match b with
                          | EmptyString => None
                          | String _ _ as b => Some (mkField b)
                          end))).
    { destruct who as [|c who]; [contradiction|].
      unfold PyMain.Record_init. cbn [PyMain.Name_init obind].
      destruct b as [|c' b]; [reflexivity|].
      destruct Hb as [Hb|Hb]; [discriminate|].
      now rewrite (proj1 (PyMain_Birthday_init_text _) Hb). }
    rewrite Hi. destruct phone as [|c phone].
    + rewrite PyMain_add_record_run. simpl. rewrite Hc.
      rewrite (dict_set_absent _ _ _ Hn). now destruct b.
    + destruct Hp as [Hp|Hp]; [discriminate|].
      rewrite (proj2 (Phone_init_rule _ Hp)), PyMain_add_record_run.
      simpl. rewrite Hc. rewrite (dict_set_absent _ _ _ Hn).
      now destruct b.
Qed.

Lemma command_name_spec_witness :
  PyMain.command_name "  Bob " " 4445556660" "   " address_book
  = (Ok tt,
     [("Ann"%string, mkRecord (mkField "Ann") [mkField "1112223330"] None);
      ("Bob"%string, mkRecord (mkField "Bob") [mkField "4445556660"] None)]).
Proof.
  refine (proj2 (proj2 (command_name_spec address_book "  Bob "
                          " 4445556660" "   ")) _ _ _ _).
  - reflexivity.
  - discriminate.
  - right. split; [reflexivity | repeat constructor].
  - left. reflexivity.
Defined.
